(** * AvantDigitalRead: debounced pin polling, edge and gesture events

    A shallow embedding of [src/AvantDigitalRead.h] and
    [src/AvantDigitalRead.cpp], and the properties of the pin state
    machine, the deferred callback scheduler and the pin registry.

    Conventions of the embedding.
    - [unsigned long] is the 32-bit unsigned type of the Arduino targets:
      a [Z] in [0, 2^32); the only arithmetic the library does on it is
      subtraction, written [usub] with its wrap-around.
    - [int] values (pin numbers, modes, [clickCount]) are [Z]; the
      increment of [clickCount] is not wrapped (signed overflow is
      undefined in C++ and needs more than 2^15 counted presses without a
      reset of the count).
    - A [PinCallback] is a function pointer: [None] is [nullptr], [Some c]
      is the callback named [c].  Calling it is recorded in the log
      [invoked]; the callbacks themselves are opaque and are taken not to
      call back into the library.
    - [digitalRead] and [millis] are inputs of every tick; [pinMode] is
      recorded in the log [pinModeCalls]. *)

From Stdlib Require Import ZArith List Bool Lia Arith.
Import ListNotations.
Local Open Scope Z_scope.

(** ** Types of the header *)

Definition DEFAULT_MIN_PRESS_MS : Z := 50.
Definition DEFAULT_MAX_PRESS_MS : Z := 300.
Definition DEFAULT_MAX_INTERVAL_MS : Z := 300.
Definition DEFAULT_PRESS_DURATION_MS : Z := 1000.
Definition DEFAULT_REPEAT_LONG_PRESS : bool := false.
Definition DEFAULT_DEBOUNCE_TIME : Z := 50.

Inductive PinState : Type :=
  | PIN_LOW
  | PIN_HIGH
  | PIN_UNINITIALIZED
  | PIN_ERROR.

(** The enumerators' values, used where the code compares a [PinState]
    with an [int] or returns one as an [int]. *)
Definition PinState_to_int (s : PinState) : Z :=
  match s with
  | PIN_LOW => 0
  | PIN_HIGH => 1
  | PIN_UNINITIALIZED => -1
  | PIN_ERROR => -2
  end.

Inductive EventType : Type :=
  | EVENT_CHANGE
  | EVENT_RISING
  | EVENT_FALLING
  | EVENT_SINGLE_PRESS
  | EVENT_DOUBLE_PRESS
  | EVENT_LONG_PRESS.

Definition PinState_eqb (a b : PinState) : bool :=
  PinState_to_int a =? PinState_to_int b.

Definition EventType_eqb (a b : EventType) : bool :=
  match a, b with
  | EVENT_CHANGE, EVENT_CHANGE
  | EVENT_RISING, EVENT_RISING
  | EVENT_FALLING, EVENT_FALLING
  | EVENT_SINGLE_PRESS, EVENT_SINGLE_PRESS
  | EVENT_DOUBLE_PRESS, EVENT_DOUBLE_PRESS
  | EVENT_LONG_PRESS, EVENT_LONG_PRESS => true
  | _, _ => false
  end.

(** What [digitalRead] returns: Arduino's [LOW] (0) or [HIGH] (1). *)
Inductive Level : Type := LOW | HIGH.

Definition Level_to_int (l : Level) : Z :=
  match l with LOW => 0 | HIGH => 1 end.

(** The cast [(PinState)rawReading]. *)
Definition PinState_of_Level (l : Level) : PinState :=
  match l with LOW => PIN_LOW | HIGH => PIN_HIGH end.

Definition CallbackId : Type := nat.
Definition PinCallback : Type := option CallbackId.

Definition is_null (c : PinCallback) : bool :=
  match c with None => true | Some _ => false end.

(** [unsigned long] subtraction. *)
Definition ULONG_RANGE : Z := 2 ^ 32.
Definition usub (a b : Z) : Z := (a - b) mod ULONG_RANGE.

(** [struct DelayedCallback].  The callback stored is never null:
    [triggerCallback] returns before building the entry when it is. *)
Record DelayedCallback : Type := mkDelayedCallback {
  dc_callback : CallbackId;
  dc_pin : Z;
  dc_newState : PinState;
  dc_oldState : PinState;
  dc_event : EventType;
  dc_timestamp : Z;
  dc_delayMs : Z;
  dc_executed : bool
}.

(** One call of a user callback, with the five arguments it received. *)
Record Invocation : Type := mkInvocation {
  iv_callback : CallbackId;
  iv_pin : Z;
  iv_newState : PinState;
  iv_oldState : PinState;
  iv_event : EventType;
  iv_timestamp : Z
}.

(** [struct PinInfo]. *)

Record PinInfo : Type := mkPinInfo {
  pin : Z;
  mode : Z;
  currentState : PinState;
  lastState : PinState;
  lastDebounceTime : Z;
  debounceTime : Z;
  eventsEnabled : bool;
  onChangeCallback : PinCallback;
  onChangeDelay : Z;
  onRisingCallback : PinCallback;
  onRisingDelay : Z;
  onFallingCallback : PinCallback;
  onFallingDelay : Z;
  onSinglePressCallback : PinCallback;
  onSinglePressDelay : Z;
  onDoublePressCallback : PinCallback;
  onDoublePressDelay : Z;
  onLongPressCallback : PinCallback;
  onLongPressDelay : Z;
  minPressMs : Z;
  maxPressMs : Z;
  maxIntervalMs : Z;
  pressDurationMs : Z;
  repeatLongPress : bool;
  pressStartTime : Z;
  releaseTime : Z;
  lastClickTime : Z;
  clickCount : Z;
  longPressTriggered : bool
}.

(** Assignment to one field of a [PinInfo]. *)
Definition set_currentState (v : PinState) (p : PinInfo) : PinInfo :=
  mkPinInfo (pin p) (mode p) v (lastState p) (lastDebounceTime p)
    (debounceTime p) (eventsEnabled p) (onChangeCallback p)
    (onChangeDelay p) (onRisingCallback p) (onRisingDelay p)
    (onFallingCallback p) (onFallingDelay p) (onSinglePressCallback p)
    (onSinglePressDelay p) (onDoublePressCallback p) (onDoublePressDelay p)
    (onLongPressCallback p) (onLongPressDelay p) (minPressMs p)
    (maxPressMs p) (maxIntervalMs p) (pressDurationMs p) (repeatLongPress p)
    (pressStartTime p) (releaseTime p) (lastClickTime p) (clickCount p)
    (longPressTriggered p).

Definition set_lastState (v : PinState) (p : PinInfo) : PinInfo :=
  mkPinInfo (pin p) (mode p) (currentState p) v (lastDebounceTime p)
    (debounceTime p) (eventsEnabled p) (onChangeCallback p)
    (onChangeDelay p) (onRisingCallback p) (onRisingDelay p)
    (onFallingCallback p) (onFallingDelay p) (onSinglePressCallback p)
    (onSinglePressDelay p) (onDoublePressCallback p) (onDoublePressDelay p)
    (onLongPressCallback p) (onLongPressDelay p) (minPressMs p)
    (maxPressMs p) (maxIntervalMs p) (pressDurationMs p) (repeatLongPress p)
    (pressStartTime p) (releaseTime p) (lastClickTime p) (clickCount p)
    (longPressTriggered p).

Definition set_lastDebounceTime (v : Z) (p : PinInfo) : PinInfo :=
  mkPinInfo (pin p) (mode p) (currentState p) (lastState p) v
    (debounceTime p) (eventsEnabled p) (onChangeCallback p)
    (onChangeDelay p) (onRisingCallback p) (onRisingDelay p)
    (onFallingCallback p) (onFallingDelay p) (onSinglePressCallback p)
    (onSinglePressDelay p) (onDoublePressCallback p) (onDoublePressDelay p)
    (onLongPressCallback p) (onLongPressDelay p) (minPressMs p)
    (maxPressMs p) (maxIntervalMs p) (pressDurationMs p) (repeatLongPress p)
    (pressStartTime p) (releaseTime p) (lastClickTime p) (clickCount p)
    (longPressTriggered p).

Definition set_debounceTime (v : Z) (p : PinInfo) : PinInfo :=
  mkPinInfo (pin p) (mode p) (currentState p) (lastState p)
    (lastDebounceTime p) v (eventsEnabled p) (onChangeCallback p)
    (onChangeDelay p) (onRisingCallback p) (onRisingDelay p)
    (onFallingCallback p) (onFallingDelay p) (onSinglePressCallback p)
    (onSinglePressDelay p) (onDoublePressCallback p) (onDoublePressDelay p)
    (onLongPressCallback p) (onLongPressDelay p) (minPressMs p)
    (maxPressMs p) (maxIntervalMs p) (pressDurationMs p) (repeatLongPress p)
    (pressStartTime p) (releaseTime p) (lastClickTime p) (clickCount p)
    (longPressTriggered p).

Definition set_eventsEnabled (v : bool) (p : PinInfo) : PinInfo :=
  mkPinInfo (pin p) (mode p) (currentState p) (lastState p)
    (lastDebounceTime p) (debounceTime p) v (onChangeCallback p)
    (onChangeDelay p) (onRisingCallback p) (onRisingDelay p)
    (onFallingCallback p) (onFallingDelay p) (onSinglePressCallback p)
    (onSinglePressDelay p) (onDoublePressCallback p) (onDoublePressDelay p)
    (onLongPressCallback p) (onLongPressDelay p) (minPressMs p)
    (maxPressMs p) (maxIntervalMs p) (pressDurationMs p) (repeatLongPress p)
    (pressStartTime p) (releaseTime p) (lastClickTime p) (clickCount p)
    (longPressTriggered p).

Definition set_onChangeCallback (v : PinCallback) (p : PinInfo) : PinInfo :=
  mkPinInfo (pin p) (mode p) (currentState p) (lastState p)
    (lastDebounceTime p) (debounceTime p) (eventsEnabled p) v
    (onChangeDelay p) (onRisingCallback p) (onRisingDelay p)
    (onFallingCallback p) (onFallingDelay p) (onSinglePressCallback p)
    (onSinglePressDelay p) (onDoublePressCallback p) (onDoublePressDelay p)
    (onLongPressCallback p) (onLongPressDelay p) (minPressMs p)
    (maxPressMs p) (maxIntervalMs p) (pressDurationMs p) (repeatLongPress p)
    (pressStartTime p) (releaseTime p) (lastClickTime p) (clickCount p)
    (longPressTriggered p).

Definition set_onChangeDelay (v : Z) (p : PinInfo) : PinInfo :=
  mkPinInfo (pin p) (mode p) (currentState p) (lastState p)
    (lastDebounceTime p) (debounceTime p) (eventsEnabled p)
    (onChangeCallback p) v (onRisingCallback p) (onRisingDelay p)
    (onFallingCallback p) (onFallingDelay p) (onSinglePressCallback p)
    (onSinglePressDelay p) (onDoublePressCallback p) (onDoublePressDelay p)
    (onLongPressCallback p) (onLongPressDelay p) (minPressMs p)
    (maxPressMs p) (maxIntervalMs p) (pressDurationMs p) (repeatLongPress p)
    (pressStartTime p) (releaseTime p) (lastClickTime p) (clickCount p)
    (longPressTriggered p).

Definition set_onRisingCallback (v : PinCallback) (p : PinInfo) : PinInfo :=
  mkPinInfo (pin p) (mode p) (currentState p) (lastState p)
    (lastDebounceTime p) (debounceTime p) (eventsEnabled p)
    (onChangeCallback p) (onChangeDelay p) v (onRisingDelay p)
    (onFallingCallback p) (onFallingDelay p) (onSinglePressCallback p)
    (onSinglePressDelay p) (onDoublePressCallback p) (onDoublePressDelay p)
    (onLongPressCallback p) (onLongPressDelay p) (minPressMs p)
    (maxPressMs p) (maxIntervalMs p) (pressDurationMs p) (repeatLongPress p)
    (pressStartTime p) (releaseTime p) (lastClickTime p) (clickCount p)
    (longPressTriggered p).

Definition set_onRisingDelay (v : Z) (p : PinInfo) : PinInfo :=
  mkPinInfo (pin p) (mode p) (currentState p) (lastState p)
    (lastDebounceTime p) (debounceTime p) (eventsEnabled p)
    (onChangeCallback p) (onChangeDelay p) (onRisingCallback p) v
    (onFallingCallback p) (onFallingDelay p) (onSinglePressCallback p)
    (onSinglePressDelay p) (onDoublePressCallback p) (onDoublePressDelay p)
    (onLongPressCallback p) (onLongPressDelay p) (minPressMs p)
    (maxPressMs p) (maxIntervalMs p) (pressDurationMs p) (repeatLongPress p)
    (pressStartTime p) (releaseTime p) (lastClickTime p) (clickCount p)
    (longPressTriggered p).

Definition set_onFallingCallback (v : PinCallback) (p : PinInfo) : PinInfo :=
  mkPinInfo (pin p) (mode p) (currentState p) (lastState p)
    (lastDebounceTime p) (debounceTime p) (eventsEnabled p)
    (onChangeCallback p) (onChangeDelay p) (onRisingCallback p)
    (onRisingDelay p) v (onFallingDelay p) (onSinglePressCallback p)
    (onSinglePressDelay p) (onDoublePressCallback p) (onDoublePressDelay p)
    (onLongPressCallback p) (onLongPressDelay p) (minPressMs p)
    (maxPressMs p) (maxIntervalMs p) (pressDurationMs p) (repeatLongPress p)
    (pressStartTime p) (releaseTime p) (lastClickTime p) (clickCount p)
    (longPressTriggered p).

Definition set_onFallingDelay (v : Z) (p : PinInfo) : PinInfo :=
  mkPinInfo (pin p) (mode p) (currentState p) (lastState p)
    (lastDebounceTime p) (debounceTime p) (eventsEnabled p)
    (onChangeCallback p) (onChangeDelay p) (onRisingCallback p)
    (onRisingDelay p) (onFallingCallback p) v (onSinglePressCallback p)
    (onSinglePressDelay p) (onDoublePressCallback p) (onDoublePressDelay p)
    (onLongPressCallback p) (onLongPressDelay p) (minPressMs p)
    (maxPressMs p) (maxIntervalMs p) (pressDurationMs p) (repeatLongPress p)
    (pressStartTime p) (releaseTime p) (lastClickTime p) (clickCount p)
    (longPressTriggered p).

Definition set_onSinglePressCallback (v : PinCallback) (p : PinInfo) : PinInfo :=
  mkPinInfo (pin p) (mode p) (currentState p) (lastState p)
    (lastDebounceTime p) (debounceTime p) (eventsEnabled p)
    (onChangeCallback p) (onChangeDelay p) (onRisingCallback p)
    (onRisingDelay p) (onFallingCallback p) (onFallingDelay p) v
    (onSinglePressDelay p) (onDoublePressCallback p) (onDoublePressDelay p)
    (onLongPressCallback p) (onLongPressDelay p) (minPressMs p)
    (maxPressMs p) (maxIntervalMs p) (pressDurationMs p) (repeatLongPress p)
    (pressStartTime p) (releaseTime p) (lastClickTime p) (clickCount p)
    (longPressTriggered p).

Definition set_onSinglePressDelay (v : Z) (p : PinInfo) : PinInfo :=
  mkPinInfo (pin p) (mode p) (currentState p) (lastState p)
    (lastDebounceTime p) (debounceTime p) (eventsEnabled p)
    (onChangeCallback p) (onChangeDelay p) (onRisingCallback p)
    (onRisingDelay p) (onFallingCallback p) (onFallingDelay p)
    (onSinglePressCallback p) v (onDoublePressCallback p)
    (onDoublePressDelay p) (onLongPressCallback p) (onLongPressDelay p)
    (minPressMs p) (maxPressMs p) (maxIntervalMs p) (pressDurationMs p)
    (repeatLongPress p) (pressStartTime p) (releaseTime p) (lastClickTime p)
    (clickCount p) (longPressTriggered p).

Definition set_onDoublePressCallback (v : PinCallback) (p : PinInfo) : PinInfo :=
  mkPinInfo (pin p) (mode p) (currentState p) (lastState p)
    (lastDebounceTime p) (debounceTime p) (eventsEnabled p)
    (onChangeCallback p) (onChangeDelay p) (onRisingCallback p)
    (onRisingDelay p) (onFallingCallback p) (onFallingDelay p)
    (onSinglePressCallback p) (onSinglePressDelay p) v
    (onDoublePressDelay p) (onLongPressCallback p) (onLongPressDelay p)
    (minPressMs p) (maxPressMs p) (maxIntervalMs p) (pressDurationMs p)
    (repeatLongPress p) (pressStartTime p) (releaseTime p) (lastClickTime p)
    (clickCount p) (longPressTriggered p).

Definition set_onDoublePressDelay (v : Z) (p : PinInfo) : PinInfo :=
  mkPinInfo (pin p) (mode p) (currentState p) (lastState p)
    (lastDebounceTime p) (debounceTime p) (eventsEnabled p)
    (onChangeCallback p) (onChangeDelay p) (onRisingCallback p)
    (onRisingDelay p) (onFallingCallback p) (onFallingDelay p)
    (onSinglePressCallback p) (onSinglePressDelay p)
    (onDoublePressCallback p) v (onLongPressCallback p) (onLongPressDelay p)
    (minPressMs p) (maxPressMs p) (maxIntervalMs p) (pressDurationMs p)
    (repeatLongPress p) (pressStartTime p) (releaseTime p) (lastClickTime p)
    (clickCount p) (longPressTriggered p).

Definition set_onLongPressCallback (v : PinCallback) (p : PinInfo) : PinInfo :=
  mkPinInfo (pin p) (mode p) (currentState p) (lastState p)
    (lastDebounceTime p) (debounceTime p) (eventsEnabled p)
    (onChangeCallback p) (onChangeDelay p) (onRisingCallback p)
    (onRisingDelay p) (onFallingCallback p) (onFallingDelay p)
    (onSinglePressCallback p) (onSinglePressDelay p)
    (onDoublePressCallback p) (onDoublePressDelay p) v (onLongPressDelay p)
    (minPressMs p) (maxPressMs p) (maxIntervalMs p) (pressDurationMs p)
    (repeatLongPress p) (pressStartTime p) (releaseTime p) (lastClickTime p)
    (clickCount p) (longPressTriggered p).

Definition set_onLongPressDelay (v : Z) (p : PinInfo) : PinInfo :=
  mkPinInfo (pin p) (mode p) (currentState p) (lastState p)
    (lastDebounceTime p) (debounceTime p) (eventsEnabled p)
    (onChangeCallback p) (onChangeDelay p) (onRisingCallback p)
    (onRisingDelay p) (onFallingCallback p) (onFallingDelay p)
    (onSinglePressCallback p) (onSinglePressDelay p)
    (onDoublePressCallback p) (onDoublePressDelay p) (onLongPressCallback p)
    v (minPressMs p) (maxPressMs p) (maxIntervalMs p) (pressDurationMs p)
    (repeatLongPress p) (pressStartTime p) (releaseTime p) (lastClickTime p)
    (clickCount p) (longPressTriggered p).

Definition set_minPressMs (v : Z) (p : PinInfo) : PinInfo :=
  mkPinInfo (pin p) (mode p) (currentState p) (lastState p)
    (lastDebounceTime p) (debounceTime p) (eventsEnabled p)
    (onChangeCallback p) (onChangeDelay p) (onRisingCallback p)
    (onRisingDelay p) (onFallingCallback p) (onFallingDelay p)
    (onSinglePressCallback p) (onSinglePressDelay p)
    (onDoublePressCallback p) (onDoublePressDelay p) (onLongPressCallback p)
    (onLongPressDelay p) v (maxPressMs p) (maxIntervalMs p)
    (pressDurationMs p) (repeatLongPress p) (pressStartTime p)
    (releaseTime p) (lastClickTime p) (clickCount p) (longPressTriggered p).

Definition set_maxPressMs (v : Z) (p : PinInfo) : PinInfo :=
  mkPinInfo (pin p) (mode p) (currentState p) (lastState p)
    (lastDebounceTime p) (debounceTime p) (eventsEnabled p)
    (onChangeCallback p) (onChangeDelay p) (onRisingCallback p)
    (onRisingDelay p) (onFallingCallback p) (onFallingDelay p)
    (onSinglePressCallback p) (onSinglePressDelay p)
    (onDoublePressCallback p) (onDoublePressDelay p) (onLongPressCallback p)
    (onLongPressDelay p) (minPressMs p) v (maxIntervalMs p)
    (pressDurationMs p) (repeatLongPress p) (pressStartTime p)
    (releaseTime p) (lastClickTime p) (clickCount p) (longPressTriggered p).

Definition set_maxIntervalMs (v : Z) (p : PinInfo) : PinInfo :=
  mkPinInfo (pin p) (mode p) (currentState p) (lastState p)
    (lastDebounceTime p) (debounceTime p) (eventsEnabled p)
    (onChangeCallback p) (onChangeDelay p) (onRisingCallback p)
    (onRisingDelay p) (onFallingCallback p) (onFallingDelay p)
    (onSinglePressCallback p) (onSinglePressDelay p)
    (onDoublePressCallback p) (onDoublePressDelay p) (onLongPressCallback p)
    (onLongPressDelay p) (minPressMs p) (maxPressMs p) v (pressDurationMs p)
    (repeatLongPress p) (pressStartTime p) (releaseTime p) (lastClickTime p)
    (clickCount p) (longPressTriggered p).

Definition set_pressDurationMs (v : Z) (p : PinInfo) : PinInfo :=
  mkPinInfo (pin p) (mode p) (currentState p) (lastState p)
    (lastDebounceTime p) (debounceTime p) (eventsEnabled p)
    (onChangeCallback p) (onChangeDelay p) (onRisingCallback p)
    (onRisingDelay p) (onFallingCallback p) (onFallingDelay p)
    (onSinglePressCallback p) (onSinglePressDelay p)
    (onDoublePressCallback p) (onDoublePressDelay p) (onLongPressCallback p)
    (onLongPressDelay p) (minPressMs p) (maxPressMs p) (maxIntervalMs p) v
    (repeatLongPress p) (pressStartTime p) (releaseTime p) (lastClickTime p)
    (clickCount p) (longPressTriggered p).

Definition set_repeatLongPress (v : bool) (p : PinInfo) : PinInfo :=
  mkPinInfo (pin p) (mode p) (currentState p) (lastState p)
    (lastDebounceTime p) (debounceTime p) (eventsEnabled p)
    (onChangeCallback p) (onChangeDelay p) (onRisingCallback p)
    (onRisingDelay p) (onFallingCallback p) (onFallingDelay p)
    (onSinglePressCallback p) (onSinglePressDelay p)
    (onDoublePressCallback p) (onDoublePressDelay p) (onLongPressCallback p)
    (onLongPressDelay p) (minPressMs p) (maxPressMs p) (maxIntervalMs p)
    (pressDurationMs p) v (pressStartTime p) (releaseTime p)
    (lastClickTime p) (clickCount p) (longPressTriggered p).

Definition set_pressStartTime (v : Z) (p : PinInfo) : PinInfo :=
  mkPinInfo (pin p) (mode p) (currentState p) (lastState p)
    (lastDebounceTime p) (debounceTime p) (eventsEnabled p)
    (onChangeCallback p) (onChangeDelay p) (onRisingCallback p)
    (onRisingDelay p) (onFallingCallback p) (onFallingDelay p)
    (onSinglePressCallback p) (onSinglePressDelay p)
    (onDoublePressCallback p) (onDoublePressDelay p) (onLongPressCallback p)
    (onLongPressDelay p) (minPressMs p) (maxPressMs p) (maxIntervalMs p)
    (pressDurationMs p) (repeatLongPress p) v (releaseTime p)
    (lastClickTime p) (clickCount p) (longPressTriggered p).

Definition set_lastClickTime (v : Z) (p : PinInfo) : PinInfo :=
  mkPinInfo (pin p) (mode p) (currentState p) (lastState p)
    (lastDebounceTime p) (debounceTime p) (eventsEnabled p)
    (onChangeCallback p) (onChangeDelay p) (onRisingCallback p)
    (onRisingDelay p) (onFallingCallback p) (onFallingDelay p)
    (onSinglePressCallback p) (onSinglePressDelay p)
    (onDoublePressCallback p) (onDoublePressDelay p) (onLongPressCallback p)
    (onLongPressDelay p) (minPressMs p) (maxPressMs p) (maxIntervalMs p)
    (pressDurationMs p) (repeatLongPress p) (pressStartTime p)
    (releaseTime p) v (clickCount p) (longPressTriggered p).

Definition set_clickCount (v : Z) (p : PinInfo) : PinInfo :=
  mkPinInfo (pin p) (mode p) (currentState p) (lastState p)
    (lastDebounceTime p) (debounceTime p) (eventsEnabled p)
    (onChangeCallback p) (onChangeDelay p) (onRisingCallback p)
    (onRisingDelay p) (onFallingCallback p) (onFallingDelay p)
    (onSinglePressCallback p) (onSinglePressDelay p)
    (onDoublePressCallback p) (onDoublePressDelay p) (onLongPressCallback p)
    (onLongPressDelay p) (minPressMs p) (maxPressMs p) (maxIntervalMs p)
    (pressDurationMs p) (repeatLongPress p) (pressStartTime p)
    (releaseTime p) (lastClickTime p) v (longPressTriggered p).

Definition set_longPressTriggered (v : bool) (p : PinInfo) : PinInfo :=
  mkPinInfo (pin p) (mode p) (currentState p) (lastState p)
    (lastDebounceTime p) (debounceTime p) (eventsEnabled p)
    (onChangeCallback p) (onChangeDelay p) (onRisingCallback p)
    (onRisingDelay p) (onFallingCallback p) (onFallingDelay p)
    (onSinglePressCallback p) (onSinglePressDelay p)
    (onDoublePressCallback p) (onDoublePressDelay p) (onLongPressCallback p)
    (onLongPressDelay p) (minPressMs p) (maxPressMs p) (maxIntervalMs p)
    (pressDurationMs p) (repeatLongPress p) (pressStartTime p)
    (releaseTime p) (lastClickTime p) (clickCount p) v.

(** ** The scheduler: [triggerCallback] and [processDelayedCallbacks] *)

(** The part of the object that raising an event touches: the vector
    [delayedCallbacks], and the log of the callbacks called so far. *)
Record Dispatch : Type := mkDispatch {
  delayedCallbacks : list DelayedCallback;
  invoked : list Invocation
}.

Definition triggerCallback (callback : PinCallback) (pin_ : Z)
    (newState oldState : PinState) (event : EventType)
    (timestamp delayMs : Z) (d : Dispatch) : Dispatch :=
  match callback with
  | None => d
  | Some c =>
      if delayMs =? 0 then
        mkDispatch (delayedCallbacks d)
          (invoked d ++ [mkInvocation c pin_ newState oldState event timestamp])
      else
        mkDispatch
          (delayedCallbacks d ++
             [mkDelayedCallback c pin_ newState oldState event timestamp
                delayMs false])
          (invoked d)
  end.

(** The test of the scan loop of [processDelayedCallbacks]. *)
Definition isReady (currentTime : Z) (cb : DelayedCallback) : bool :=
  negb (dc_executed cb) &&
  (dc_delayMs cb <=? usub currentTime (dc_timestamp cb)).

(** The scan loop: walks [delayedCallbacks] once; a ready entry is pushed
    on [readyCallbacks] and erased, the others stay in place.  Returns
    the entries that stay and the ready ones, both in vector order. *)
Fixpoint scanDelayed (currentTime : Z) (l : list DelayedCallback)
    : list DelayedCallback * list DelayedCallback :=
  match l with
  | [] => ([], [])
  | cb :: rest =>
      let '(kept, ready) := scanDelayed currentTime rest in
      if isReady currentTime cb then (kept, cb :: ready)
      else (cb :: kept, ready)
  end.

(** The call made for a ready entry: the timestamp passed is the
    [currentTime] of the drain. *)
Definition fire (currentTime : Z) (cb : DelayedCallback) : Invocation :=
  mkInvocation (dc_callback cb) (dc_pin cb) (dc_newState cb) (dc_oldState cb)
    (dc_event cb) currentTime.

Definition processDelayedCallbacks (currentTime : Z) (d : Dispatch)
    : Dispatch :=
  let '(kept, readyCallbacks) := scanDelayed currentTime (delayedCallbacks d) in
  mkDispatch kept (invoked d ++ map (fire currentTime) readyCallbacks).

(** ** The pin state machine *)

(** Long-press block of [detectButtonGestures]. *)
Definition checkLongPress (pinInfo : PinInfo) (currentTime : Z) (d : Dispatch)
    : PinInfo * Dispatch :=
  if PinState_eqb (currentState pinInfo) PIN_LOW
     && negb (is_null (onLongPressCallback pinInfo)) then
    if pressDurationMs pinInfo <=? usub currentTime (pressStartTime pinInfo)
    then
      if repeatLongPress pinInfo || negb (longPressTriggered pinInfo) then
        (set_longPressTriggered true pinInfo,
         triggerCallback (onLongPressCallback pinInfo) (pin pinInfo)
           (currentState pinInfo) (currentState pinInfo) EVENT_LONG_PRESS
           currentTime (onLongPressDelay pinInfo) d)
      else (pinInfo, d)
    else (pinInfo, d)
  else (set_longPressTriggered false pinInfo, d).

(** Raising [EVENT_SINGLE_PRESS]. *)
Definition triggerSinglePress (pinInfo : PinInfo) (currentTime : Z)
    (d : Dispatch) : Dispatch :=
  triggerCallback (onSinglePressCallback pinInfo) (pin pinInfo)
    (currentState pinInfo) (currentState pinInfo) EVENT_SINGLE_PRESS
    currentTime (onSinglePressDelay pinInfo) d.

(** Click block of [detectButtonGestures]. *)
Definition checkClick (pinInfo : PinInfo) (currentTime : Z) (d : Dispatch)
    : PinInfo * Dispatch :=
  if PinState_eqb (currentState pinInfo) PIN_HIGH then
    if 0 <? pressStartTime pinInfo then
      let pressDuration := usub currentTime (pressStartTime pinInfo) in
      let '(pinInfo, d) :=
        if (minPressMs pinInfo <=? pressDuration)
           && (pressDuration <=? maxPressMs pinInfo) then
          let '(pinInfo, d) :=
            if (clickCount pinInfo =? 2)
               && negb (is_null (onDoublePressCallback pinInfo)) then
              if usub currentTime (lastClickTime pinInfo)
                 <=? maxIntervalMs pinInfo then
                (set_clickCount 0 pinInfo,
                 triggerCallback (onDoublePressCallback pinInfo) (pin pinInfo)
                   (currentState pinInfo) (currentState pinInfo)
                   EVENT_DOUBLE_PRESS currentTime
                   (onDoublePressDelay pinInfo) d)
              else
                (set_clickCount 1 pinInfo,
                 if negb (is_null (onSinglePressCallback pinInfo))
                 then triggerSinglePress pinInfo currentTime d else d)
            else if clickCount pinInfo =? 1 then
              if is_null (onDoublePressCallback pinInfo) then
                (set_clickCount 0 pinInfo,
                 if negb (is_null (onSinglePressCallback pinInfo))
                 then triggerSinglePress pinInfo currentTime d else d)
              else (pinInfo, d)
            else (pinInfo, d) in
          (set_lastClickTime currentTime pinInfo, d)
        else if maxPressMs pinInfo <? pressDuration then
          (set_clickCount 0 pinInfo, d)
        else (pinInfo, d) in
      (set_pressStartTime 0 pinInfo, d)
    else (pinInfo, d)
  else (pinInfo, d).

(** Single-press timeout block of [detectButtonGestures]. *)
Definition checkSinglePressTimeout (pinInfo : PinInfo) (currentTime : Z)
    (d : Dispatch) : PinInfo * Dispatch :=
  if PinState_eqb (currentState pinInfo) PIN_HIGH
     && (clickCount pinInfo =? 1)
     && negb (is_null (onDoublePressCallback pinInfo))
     && (pressStartTime pinInfo =? 0) then
    if maxIntervalMs pinInfo <? usub currentTime (lastClickTime pinInfo) then
      (set_clickCount 0 pinInfo,
       if negb (is_null (onSinglePressCallback pinInfo))
       then triggerSinglePress pinInfo currentTime d else d)
    else (pinInfo, d)
  else (pinInfo, d).

Definition detectButtonGestures (pinInfo : PinInfo) (currentTime : Z)
    (d : Dispatch) : PinInfo * Dispatch :=
  if negb (eventsEnabled pinInfo) then (pinInfo, d)
  else
    let '(pinInfo, d) := checkLongPress pinInfo currentTime d in
    let '(pinInfo, d) := checkClick pinInfo currentTime d in
    checkSinglePressTimeout pinInfo currentTime d.

(** The edge callbacks raised on an accepted transition (the
    [if (pinInfo.eventsEnabled)] block of [update]). *)
Definition triggerEdges (pinInfo : PinInfo) (previousState : PinState)
    (currentTime : Z) (d : Dispatch) : Dispatch :=
  if eventsEnabled pinInfo then
    let d :=
      if negb (is_null (onChangeCallback pinInfo)) then
        triggerCallback (onChangeCallback pinInfo) (pin pinInfo)
          (currentState pinInfo) previousState EVENT_CHANGE currentTime
          (onChangeDelay pinInfo) d
      else d in
    let d :=
      if PinState_eqb (currentState pinInfo) PIN_HIGH
         && PinState_eqb previousState PIN_LOW
         && negb (is_null (onRisingCallback pinInfo)) then
        triggerCallback (onRisingCallback pinInfo) (pin pinInfo)
          (currentState pinInfo) previousState EVENT_RISING currentTime
          (onRisingDelay pinInfo) d
      else d in
    if PinState_eqb (currentState pinInfo) PIN_LOW
       && PinState_eqb previousState PIN_HIGH
       && negb (is_null (onFallingCallback pinInfo)) then
      triggerCallback (onFallingCallback pinInfo) (pin pinInfo)
        (currentState pinInfo) previousState EVENT_FALLING currentTime
        (onFallingDelay pinInfo) d
    else d
  else d.

(** The debounce part of the loop body of [update], up to the call of
    [detectButtonGestures]. *)
Definition debounce (pinInfo : PinInfo) (rawReading : Level) (currentTime : Z)
    (d : Dispatch) : PinInfo * Dispatch :=
  let pinInfo :=
    if negb (Level_to_int rawReading =? PinState_to_int (lastState pinInfo))
    then set_lastDebounceTime currentTime pinInfo else pinInfo in
  let '(pinInfo, d) :=
    if debounceTime pinInfo <? usub currentTime (lastDebounceTime pinInfo) then
      if negb (Level_to_int rawReading
               =? PinState_to_int (currentState pinInfo)) then
        let previousState := currentState pinInfo in
        let pinInfo := set_currentState (PinState_of_Level rawReading) pinInfo in
        let pinInfo :=
          if PinState_eqb (currentState pinInfo) PIN_LOW
             && PinState_eqb previousState PIN_HIGH then
            set_clickCount (clickCount pinInfo + 1)
              (set_pressStartTime currentTime pinInfo)
          else pinInfo in
        (pinInfo, triggerEdges pinInfo previousState currentTime d)
      else (pinInfo, d)
    else (pinInfo, d) in
  (set_lastState (PinState_of_Level rawReading) pinInfo, d).

(** The loop body of [update] for one pin. *)
Definition updatePin (pinInfo : PinInfo) (rawReading : Level)
    (currentTime : Z) (d : Dispatch) : PinInfo * Dispatch :=
  let '(pinInfo, d) := debounce pinInfo rawReading currentTime d in
  detectButtonGestures pinInfo currentTime d.

(** ** The object and its public operations *)

Record AvantDigitalRead : Type := mkAvantDigitalRead {
  pinList : list PinInfo;
  dispatch : Dispatch;
  pinModeCalls : list (Z * Z)
}.

(** The constructor: both vectors empty. *)
Definition newAvantDigitalRead : AvantDigitalRead :=
  mkAvantDigitalRead [] (mkDispatch [] []) [].

Fixpoint findPinIn (l : list PinInfo) (pin_ : Z) : option PinInfo :=
  match l with
  | [] => None
  | pinInfo :: rest =>
      if pin pinInfo =? pin_ then Some pinInfo else findPinIn rest pin_
  end.

Definition findPin (a : AvantDigitalRead) (pin_ : Z) : option PinInfo :=
  findPinIn (pinList a) pin_.

(** Writing through the pointer [findPin] returned: the first record of
    the pin is replaced. *)
Fixpoint storePin (l : list PinInfo) (pin_ : Z) (f : PinInfo -> PinInfo)
    : list PinInfo :=
  match l with
  | [] => []
  | pinInfo :: rest =>
      if pin pinInfo =? pin_ then f pinInfo :: rest
      else pinInfo :: storePin rest pin_ f
  end.

(** The shape of every per-pin setter: [findPin], [false] on [nullptr],
    otherwise the assignments [f] and [true]. *)
Definition withPin (a : AvantDigitalRead) (pin_ : Z) (f : PinInfo -> PinInfo)
    : bool * AvantDigitalRead :=
  match findPin a pin_ with
  | None => (false, a)
  | Some _ =>
      (true,
       mkAvantDigitalRead (storePin (pinList a) pin_ f) (dispatch a)
         (pinModeCalls a))
  end.

(** The record [addPin] builds; [reading] is what [digitalRead] gave. *)
Definition newPin (pin_ mode_ : Z) (reading : Level) : PinInfo :=
  mkPinInfo pin_ mode_ (PinState_of_Level reading) (PinState_of_Level reading)
    0 DEFAULT_DEBOUNCE_TIME true
    None 0 None 0 None 0 None 0 None 0 None 0
    DEFAULT_MIN_PRESS_MS DEFAULT_MAX_PRESS_MS DEFAULT_MAX_INTERVAL_MS
    DEFAULT_PRESS_DURATION_MS DEFAULT_REPEAT_LONG_PRESS
    0 0 0 0 false.

Definition addPin (a : AvantDigitalRead) (pin_ mode_ : Z) (reading : Level)
    : bool * AvantDigitalRead :=
  match findPin a pin_ with
  | Some _ => (false, a)
  | None =>
      (true,
       mkAvantDigitalRead (pinList a ++ [newPin pin_ mode_ reading])
         (dispatch a) (pinModeCalls a ++ [(pin_, mode_)]))
  end.

(** The loop of [removePin]: erases the first record of the pin. *)
Fixpoint erasePin (l : list PinInfo) (pin_ : Z) : option (list PinInfo) :=
  match l with
  | [] => None
  | pinInfo :: rest =>
      if pin pinInfo =? pin_ then Some rest
      else option_map (cons pinInfo) (erasePin rest pin_)
  end.

Definition removePin (a : AvantDigitalRead) (pin_ : Z)
    : bool * AvantDigitalRead :=
  match erasePin (pinList a) pin_ with
  | Some l => (true, mkAvantDigitalRead l (dispatch a) (pinModeCalls a))
  | None => (false, a)
  end.

Definition isInitialized (a : AvantDigitalRead) (pin_ : Z) : bool :=
  match findPin a pin_ with Some _ => true | None => false end.

Definition getPinMode (a : AvantDigitalRead) (pin_ : Z) : Z :=
  match findPin a pin_ with
  | None => PinState_to_int PIN_UNINITIALIZED
  | Some pinInfo => mode pinInfo
  end.

Definition readPin (a : AvantDigitalRead) (pin_ : Z) : PinState :=
  match findPin a pin_ with
  | None => PIN_UNINITIALIZED
  | Some pinInfo => currentState pinInfo
  end.

Definition setDebounceTime (a : AvantDigitalRead) (pin_ debounceMs : Z) :=
  withPin a pin_ (set_debounceTime debounceMs).

Definition getDebounceTime (a : AvantDigitalRead) (pin_ : Z) : Z :=
  match findPin a pin_ with
  | None => DEFAULT_DEBOUNCE_TIME
  | Some pinInfo => debounceTime pinInfo
  end.

Definition onChange (a : AvantDigitalRead) (pin_ : Z) (callback : PinCallback)
    (delayMs : Z) :=
  withPin a pin_ (fun p =>
    set_onChangeDelay delayMs (set_onChangeCallback callback p)).

Definition onRising (a : AvantDigitalRead) (pin_ : Z) (callback : PinCallback)
    (delayMs : Z) :=
  withPin a pin_ (fun p =>
    set_onRisingDelay delayMs (set_onRisingCallback callback p)).

Definition onFalling (a : AvantDigitalRead) (pin_ : Z) (callback : PinCallback)
    (delayMs : Z) :=
  withPin a pin_ (fun p =>
    set_onFallingDelay delayMs (set_onFallingCallback callback p)).

Definition onSinglePress (a : AvantDigitalRead) (pin_ : Z)
    (callback : PinCallback) (delayMs : Z) :=
  withPin a pin_ (fun p =>
    set_onSinglePressDelay delayMs (set_onSinglePressCallback callback p)).

Definition setClickParameters (a : AvantDigitalRead) (pin_ : Z)
    (minPressMs_ maxPressMs_ : Z) :=
  withPin a pin_ (fun p =>
    set_maxPressMs maxPressMs_ (set_minPressMs minPressMs_ p)).

Definition onDoublePress (a : AvantDigitalRead) (pin_ : Z)
    (callback : PinCallback) (delayMs maxIntervalMs_ : Z) :=
  withPin a pin_ (fun p =>
    set_maxIntervalMs maxIntervalMs_
      (set_onDoublePressDelay delayMs (set_onDoublePressCallback callback p))).

Definition onLongPress (a : AvantDigitalRead) (pin_ : Z)
    (callback : PinCallback) (delayMs pressDurationMs_ : Z) (repeat_ : bool) :=
  withPin a pin_ (fun p =>
    set_repeatLongPress repeat_
      (set_pressDurationMs pressDurationMs_
         (set_onLongPressDelay delayMs (set_onLongPressCallback callback p)))).

Definition enablePinEvents (a : AvantDigitalRead) (pin_ : Z) :=
  withPin a pin_ (set_eventsEnabled true).

Definition disablePinEvents (a : AvantDigitalRead) (pin_ : Z) :=
  withPin a pin_ (set_eventsEnabled false).

Definition enableAllEvents (a : AvantDigitalRead) : AvantDigitalRead :=
  mkAvantDigitalRead (map (set_eventsEnabled true) (pinList a)) (dispatch a)
    (pinModeCalls a).

Definition disableAllEvents (a : AvantDigitalRead) : AvantDigitalRead :=
  mkAvantDigitalRead (map (set_eventsEnabled false) (pinList a)) (dispatch a)
    (pinModeCalls a).

(** The [for] loop of [update] over [pinList]; [digitalRead] is the
    hardware level of each pin at this tick. *)
Fixpoint updatePins (l : list PinInfo) (digitalRead : Z -> Level)
    (currentTime : Z) (d : Dispatch) : list PinInfo * Dispatch :=
  match l with
  | [] => ([], d)
  | pinInfo :: rest =>
      let '(pinInfo', d) :=
        updatePin pinInfo (digitalRead (pin pinInfo)) currentTime d in
      let '(rest', d) := updatePins rest digitalRead currentTime d in
      (pinInfo' :: rest', d)
  end.

(** [update], with [millis()] returning [currentTime]. *)
Definition update (a : AvantDigitalRead) (digitalRead : Z -> Level)
    (currentTime : Z) : AvantDigitalRead :=
  let '(l, d) := updatePins (pinList a) digitalRead currentTime (dispatch a) in
  mkAvantDigitalRead l (processDelayedCallbacks currentTime d)
    (pinModeCalls a).

(** Every per-pin configuration setter of the public interface, with its
    arguments. *)
Inductive Setter : Type :=
  | SetDebounceTime (debounceMs : Z)
  | OnChange (callback : PinCallback) (delayMs : Z)
  | OnRising (callback : PinCallback) (delayMs : Z)
  | OnFalling (callback : PinCallback) (delayMs : Z)
  | OnSinglePress (callback : PinCallback) (delayMs : Z)
  | SetClickParameters (minPressMs_ maxPressMs_ : Z)
  | OnDoublePress (callback : PinCallback) (delayMs maxIntervalMs_ : Z)
  | OnLongPress (callback : PinCallback) (delayMs pressDurationMs_ : Z)
      (repeat_ : bool)
  | EnablePinEvents
  | DisablePinEvents.

Definition applySetter (a : AvantDigitalRead) (pin_ : Z) (s : Setter)
    : bool * AvantDigitalRead :=
  match s with
  | SetDebounceTime ms => setDebounceTime a pin_ ms
  | OnChange c dl => onChange a pin_ c dl
  | OnRising c dl => onRising a pin_ c dl
  | OnFalling c dl => onFalling a pin_ c dl
  | OnSinglePress c dl => onSinglePress a pin_ c dl
  | SetClickParameters mn mx => setClickParameters a pin_ mn mx
  | OnDoublePress c dl mi => onDoublePress a pin_ c dl mi
  | OnLongPress c dl du r => onLongPress a pin_ c dl du r
  | EnablePinEvents => enablePinEvents a pin_
  | DisablePinEvents => disablePinEvents a pin_
  end.

(** The public operations that take a pin and can fail on it ([addPin]
    succeeds on an unregistered pin), and the value each returns, tagged
    with its C++ type. *)
Inductive Operation : Type :=
  | OpRemovePin
  | OpIsInitialized
  | OpGetPinMode
  | OpReadPin
  | OpGetDebounceTime
  | OpSetter (s : Setter).

Inductive Value : Type :=
  | VBool (b : bool)
  | VInt (z : Z)
  | VPinState (s : PinState)
  | VULong (z : Z).

Definition perform (a : AvantDigitalRead) (pin_ : Z) (op : Operation)
    : Value * AvantDigitalRead :=
  match op with
  | OpRemovePin => let '(b, a') := removePin a pin_ in (VBool b, a')
  | OpIsInitialized => (VBool (isInitialized a pin_), a)
  | OpGetPinMode => (VInt (getPinMode a pin_), a)
  | OpReadPin => (VPinState (readPin a pin_), a)
  | OpGetDebounceTime => (VULong (getDebounceTime a pin_), a)
  | OpSetter s => let '(b, a') := applySetter a pin_ s in (VBool b, a')
  end.

(** The two error shapes: the boolean [false], and the sentinel
    [PIN_UNINITIALIZED] (as a [PinState], or as the [int] -1 that
    [getPinMode] returns). *)
Definition isErrorShape (v : Value) : bool :=
  match v with
  | VBool b => negb b
  | VPinState s => PinState_eqb s PIN_UNINITIALIZED
  | VInt z => z =? PinState_to_int PIN_UNINITIALIZED
  | VULong _ => false
  end.

(** The registry invariant: at most one record per pin identifier. *)
Definition registry_ok (a : AvantDigitalRead) : Prop :=
  NoDup (map pin (pinList a)).

(** ** Counting the events raised *)

(** An event is raised when [triggerCallback] is reached with a callback:
    the callback is called at once, or an entry is queued.  [raisedIn]
    counts, for one pin and one event kind, the calls made and the entries
    still queued. *)
Definition iv_is (k : Z) (e : EventType) (i : Invocation) : bool :=
  (iv_pin i =? k) && EventType_eqb (iv_event i) e.

Definition dc_is (k : Z) (e : EventType) (c : DelayedCallback) : bool :=
  (dc_pin c =? k) && EventType_eqb (dc_event c) e.

Definition raisedIn (k : Z) (e : EventType) (d : Dispatch) : nat :=
  (length (filter (iv_is k e) (invoked d))
   + length (filter (dc_is k e) (delayedCallbacks d)))%nat.

Definition noDispatch : Dispatch := mkDispatch [] [].

(** What [d'] adds to [d]: both vectors only ever grow at the end while
    the pins are processed. *)
Definition dappend (d d' : Dispatch) : Dispatch :=
  mkDispatch (delayedCallbacks d ++ delayedCallbacks d')
    (invoked d ++ invoked d').

(** The events one pin raises in one tick, and its record afterwards. *)
Definition pinRaised (p : PinInfo) (raw : Level) (now : Z) : Dispatch :=
  snd (updatePin p raw now noDispatch).

Definition pinNext (p : PinInfo) (raw : Level) (now : Z) : PinInfo :=
  fst (updatePin p raw now noDispatch).

(** A run of ticks: each gives [millis()] and the hardware levels. *)
Definition Tick : Type := (Z * (Z -> Level))%type.

Fixpoint run (a : AvantDigitalRead) (ticks : list Tick) : AvantDigitalRead :=
  match ticks with
  | [] => a
  | (now, digitalRead) :: rest => run (update a digitalRead now) rest
  end.

(** The same for one pin on its own: its record after the ticks and the
    events it raised, oldest first. *)
Fixpoint runPin (p : PinInfo) (ticks : list (Z * Level)) (d : Dispatch)
    : PinInfo * Dispatch :=
  match ticks with
  | [] => (p, d)
  | (now, raw) :: rest =>
      let '(p', d') := updatePin p raw now d in runPin p' rest d'
  end.

(** ** Predicates and views used in the statements *)

(** A block of the loop body is framed when its record does not depend on
    the dispatch state and its events are appended to it. *)
Definition Framed (f : Dispatch -> PinInfo * Dispatch) : Prop :=
  forall d, f d = (fst (f noDispatch), dappend d (snd (f noDispatch))).

(** Every call made and every entry queued in [d] is for pin [k]. *)
Definition OnlyPin (k : Z) (d : Dispatch) : Prop :=
  Forall (fun i => iv_pin i = k) (invoked d)
  /\ Forall (fun c => dc_pin c = k) (delayedCallbacks d).

(** The events all the pins raise in one tick, in registry order. *)
Fixpoint pinsRaised (l : list PinInfo) (digitalRead : Z -> Level) (t : Z)
    : Dispatch :=
  match l with
  | [] => noDispatch
  | p :: rest =>
      dappend (pinRaised p (digitalRead (pin p)) t)
        (pinsRaised rest digitalRead t)
  end.

(** The pin's view of the ticks: the time and its own hardware level. *)
Definition ticksOf (k : Z) (ticks : list Tick) : list (Z * Level) :=
  map (fun tk : Tick => (fst tk, snd tk k)) ticks.

(** The entry [triggerCallback] queues for a callback with a delay. *)
Definition queued (c : CallbackId) (k : Z) (n o : PinState) (e : EventType)
    (detectedAt delayMs : Z) : DelayedCallback :=
  mkDelayedCallback c k n o e detectedAt delayMs false.

(** The states the object can be in: built by the constructor and changed
    only through the public operations. *)
Inductive Reachable : AvantDigitalRead -> Prop :=
  | Reachable_new : Reachable newAvantDigitalRead
  | Reachable_addPin a k m r :
      Reachable a -> Reachable (snd (addPin a k m r))
  | Reachable_removePin a k :
      Reachable a -> Reachable (snd (removePin a k))
  | Reachable_setter a k s :
      Reachable a -> Reachable (snd (applySetter a k s))
  | Reachable_enableAll a :
      Reachable a -> Reachable (enableAllEvents a)
  | Reachable_disableAll a :
      Reachable a -> Reachable (disableAllEvents a)
  | Reachable_update a rd t :
      Reachable a -> Reachable (update a rd t).

(** The three event kinds of the edge classification. *)
Definition isEdge (e : EventType) : bool :=
  match e with
  | EVENT_CHANGE | EVENT_RISING | EVENT_FALLING => true
  | _ => false
  end.

(** The configuration of a pin: what only the setters assign. *)
Record sameConfig (p q : PinInfo) : Prop := mkSameConfig {
  sc_pin : pin q = pin p;
  sc_mode : mode q = mode p;
  sc_debounceTime : debounceTime q = debounceTime p;
  sc_eventsEnabled : eventsEnabled q = eventsEnabled p;
  sc_onChange : onChangeCallback q = onChangeCallback p;
  sc_onChangeDelay : onChangeDelay q = onChangeDelay p;
  sc_onRising : onRisingCallback q = onRisingCallback p;
  sc_onRisingDelay : onRisingDelay q = onRisingDelay p;
  sc_onFalling : onFallingCallback q = onFallingCallback p;
  sc_onFallingDelay : onFallingDelay q = onFallingDelay p;
  sc_onSinglePress : onSinglePressCallback q = onSinglePressCallback p;
  sc_onSinglePressDelay : onSinglePressDelay q = onSinglePressDelay p;
  sc_onDoublePress : onDoublePressCallback q = onDoublePressCallback p;
  sc_onDoublePressDelay : onDoublePressDelay q = onDoublePressDelay p;
  sc_onLongPress : onLongPressCallback q = onLongPressCallback p;
  sc_onLongPressDelay : onLongPressDelay q = onLongPressDelay p;
  sc_minPressMs : minPressMs q = minPressMs p;
  sc_maxPressMs : maxPressMs q = maxPressMs p;
  sc_maxIntervalMs : maxIntervalMs q = maxIntervalMs p;
  sc_pressDurationMs : pressDurationMs q = pressDurationMs p;
  sc_repeatLongPress : repeatLongPress q = repeatLongPress p
}.

(** The fields the debouncer owns. *)
Record sameSample (p q : PinInfo) : Prop := mkSameSample {
  ss_currentState : currentState q = currentState p;
  ss_lastState : lastState q = lastState p;
  ss_lastDebounceTime : lastDebounceTime q = lastDebounceTime p
}.

(** The tests of the debouncer. *)
Definition toggled (p : PinInfo) (raw : Level) : bool :=
  negb (Level_to_int raw =? PinState_to_int (lastState p)).

Definition accepts (p : PinInfo) (raw : Level) (t : Z) : bool :=
  (debounceTime p
   <? usub t (if toggled p raw then t else lastDebounceTime p))
  && negb (Level_to_int raw =? PinState_to_int (currentState p)).

Definition pressAccepted (p : PinInfo) (raw : Level) (t : Z) : bool :=
  accepts p raw t
  && PinState_eqb (PinState_of_Level raw) PIN_LOW
  && PinState_eqb (currentState p) PIN_HIGH.

(** Whether an accepted transition from [old] to [new] raises the edge
    event [e] for a pin configured as [p]. *)
Definition edgeDue (p : PinInfo) (old : PinState) (new : PinState)
    (e : EventType) : bool :=
  match e with
  | EVENT_CHANGE => negb (is_null (onChangeCallback p))
  | EVENT_RISING =>
      PinState_eqb old PIN_LOW && PinState_eqb new PIN_HIGH
      && negb (is_null (onRisingCallback p))
  | EVENT_FALLING =>
      PinState_eqb old PIN_HIGH && PinState_eqb new PIN_LOW
      && negb (is_null (onFallingCallback p))
  | _ => false
  end.

(** The events of kind [e] raised for pin [k] between two states. *)
Definition fired (a a' : AvantDigitalRead) (k : Z) (e : EventType) : nat :=
  (raisedIn k e (dispatch a') - raisedIn k e (dispatch a))%nat.

(** The debounced level of a pin after each tick. *)
Fixpoint levels (p : PinInfo) (ticks : list (Z * Level)) : list PinState :=
  match ticks with
  | [] => []
  | (t, raw) :: rest =>
      currentState (pinNext p raw t) :: levels (pinNext p raw t) rest
  end.

(** What [readPin] returns for pin [k] after each tick. *)
Fixpoint readings (a : AvantDigitalRead) (k : Z) (ticks : list Tick)
    : list PinState :=
  match ticks with
  | [] => []
  | (t, rd) :: rest =>
      readPin (update a rd t) k :: readings (update a rd t) k rest
  end.

(** The number of changes of level along a list of readings that follows
    the level [c]: the accepted transitions. *)
Fixpoint transitions (c : PinState) (ls : list PinState) : nat :=
  match ls with
  | [] => 0%nat
  | c' :: rest =>
      ((if PinState_eqb c' c then 0 else 1) + transitions c' rest)%nat
  end.

(** A raw signal that toggles faster than the debounce time [dt]: every
    sample is taken at most [dt] after the latest sample that differed
    from the one before it ([lastToggle], none yet at the start);
    [prev] is the previous sample. *)
Fixpoint bouncing (dt : Z) (prev : PinState) (lastToggle : option Z)
    (ticks : list (Z * Level)) : Prop :=
  match ticks with
  | [] => True
  | (t, raw) :: rest =>
      let lastToggle' :=
        if negb (Level_to_int raw =? PinState_to_int prev) then Some t
        else lastToggle in
      match lastToggle' with
      | Some t0 => usub t t0 <= dt
      | None => True
      end
      /\ bouncing dt (PinState_of_Level raw) lastToggle' rest
  end.

(** Elapsed times that start at [lo], never decrease and end at [hi]. *)
Fixpoint climbsTo (lo : Z) (es : list Z) (hi : Z) : Prop :=
  match es with
  | [] => lo = hi
  | e :: rest => lo <= e <= hi /\ climbsTo e rest hi
  end.

(** The stable samples: level [raw], taken [e] ms after [T]. *)
Definition stableTicks (T : Z) (raw : Level) (es : list Z)
    : list (Z * Level) :=
  map (fun e => ((T + e) mod ULONG_RANGE, raw)) es.

(** The calls and the queued entries of pin [k]. *)
Definition iv_for (k : Z) (i : Invocation) : bool := iv_pin i =? k.
Definition dc_for (k : Z) (c : DelayedCallback) : bool := dc_pin c =? k.

(** Whether the long press is due at time [t] for a press that started
    at [s]. *)
Definition longPressDue (dur s t : Z) : bool := dur <=? usub t s.

(** The expiry test of the single-press timeout. *)
Definition waitExpired (p : PinInfo) (t : Z) : bool :=
  (clickCount p =? 1) && negb (is_null (onDoublePressCallback p))
  && (maxIntervalMs p <? usub t (lastClickTime p)).

(** The fields of the click classifier. *)
Record sameClicks (p q : PinInfo) : Prop := mkSameClicks {
  sk_currentState : currentState q = currentState p;
  sk_pressStartTime : pressStartTime q = pressStartTime p;
  sk_clickCount : clickCount q = clickCount p;
  sk_lastClickTime : lastClickTime q = lastClickTime p
}.

(** A millisecond clock that does not wrap: the times never decrease and
    stay below 2^32. *)
Fixpoint clockFrom (t0 : Z) (ts : list Z) : Prop :=
  match ts with
  | [] => True
  | t :: rest => t0 <= t < ULONG_RANGE /\ clockFrom t rest
  end.

(** ** Concrete registries and runs *)

(** A registry with pins 2 and 4. *)
Definition twoPins : AvantDigitalRead :=
  snd (addPin (snd (addPin newAvantDigitalRead 2 0 HIGH)) 4 0 LOW).

(** The record of a pin known to be registered. *)
Definition recordOf (a : AvantDigitalRead) (k : Z) : PinInfo :=
  match findPin a k with
  | Some p => p
  | None => newPin k 0 LOW
  end.

(** Pin 4 of [twoPins] (LOW at registration) with change, rising and
    falling callbacks, after a first tick that saw it HIGH at 100 ms. *)
Definition risingSetup : AvantDigitalRead :=
  let a := snd (onChange twoPins 4 (Some 1%nat) 0) in
  let a := snd (onRising a 4 (Some 2%nat) 25) in
  let a := snd (onFalling a 4 (Some 3%nat) 0) in
  update a (fun _ => HIGH) 100.

(** Ticks in which every pin reads the same level. *)
Definition allRead (ticks : list (Z * Level)) : list Tick :=
  map (fun tk => (fst tk, fun _ : Z => snd tk)) ticks.

(** Pin 2, registered while HIGH, with the default debounce time 50. *)
Definition onePin : AvantDigitalRead :=
  snd (addPin newAvantDigitalRead 2 0 HIGH).

(** Pin 2 with a change callback deferred by 100 ms: a press accepted at
    1060 ms queues CHANGE, then the pin's events are disabled. *)
Definition disabledSetup : AvantDigitalRead :=
  let a := snd (onChange onePin 2 (Some 1%nat) 100) in
  let a := run a (allRead [(1000, LOW); (1060, LOW)]) in
  snd (disablePinEvents a 2).



(** Pin 2 with single- and double-press callbacks, after one valid click:
    pressed from 1060 to 1220 ms (160 ms), so the click was counted at
    1220 ms. *)
Definition oneClick : AvantDigitalRead :=
  let a := snd (onSinglePress onePin 2 (Some 1%nat) 0) in
  let a := snd (onDoublePress a 2 (Some 2%nat) 0 300) in
  run a (allRead [(1000, LOW); (1060, LOW); (1160, HIGH); (1220, HIGH)]).

(** Pin 2 with single- and double-press callbacks (clicks of 50 to
    300 ms, at most 300 ms apart), idle. *)
Definition clickSetup : AvantDigitalRead :=
  let a := snd (onSinglePress onePin 2 (Some 1%nat) 0) in
  snd (onDoublePress a 2 (Some 2%nat) 0 300).

(** ** Further views: the registry *)

(** The registry with the records of pin [k] filtered out. *)
Definition withoutPin (k : Z) (l : list PinInfo) : list PinInfo :=
  filter (fun p => negb (pin p =? k)) l.

(** A registry of three pins and a deferred change callback on pin 4. *)
Definition threePins : AvantDigitalRead :=
  let a := snd (addPin twoPins 7 1 HIGH) in
  snd (onChange a 4 (Some 9%nat) 40).

(** The gesture and debounce state of a record, and its identity: what
    no setter assigns. *)
Record sameState (p q : PinInfo) : Prop := mkSameState {
  st_pin : pin q = pin p;
  st_mode : mode q = mode p;
  st_currentState : currentState q = currentState p;
  st_lastState : lastState q = lastState p;
  st_lastDebounceTime : lastDebounceTime q = lastDebounceTime p;
  st_pressStartTime : pressStartTime q = pressStartTime p;
  st_releaseTime : releaseTime q = releaseTime p;
  st_lastClickTime : lastClickTime q = lastClickTime p;
  st_clickCount : clickCount q = clickCount p;
  st_longPressTriggered : longPressTriggered q = longPressTriggered p
}.

(** The assignments each setter makes through the pointer it found. *)
Definition setterFn (s : Setter) : PinInfo -> PinInfo :=
  match s with
  | SetDebounceTime ms => set_debounceTime ms
  | OnChange c dl => fun p => set_onChangeDelay dl (set_onChangeCallback c p)
  | OnRising c dl => fun p => set_onRisingDelay dl (set_onRisingCallback c p)
  | OnFalling c dl =>
      fun p => set_onFallingDelay dl (set_onFallingCallback c p)
  | OnSinglePress c dl =>
      fun p => set_onSinglePressDelay dl (set_onSinglePressCallback c p)
  | SetClickParameters mn mx =>
      fun p => set_maxPressMs mx (set_minPressMs mn p)
  | OnDoublePress c dl mi =>
      fun p =>
        set_maxIntervalMs mi
          (set_onDoublePressDelay dl (set_onDoublePressCallback c p))
  | OnLongPress c dl du r =>
      fun p =>
        set_repeatLongPress r
          (set_pressDurationMs du
             (set_onLongPressDelay dl (set_onLongPressCallback c p)))
  | EnablePinEvents => set_eventsEnabled true
  | DisablePinEvents => set_eventsEnabled false
  end.

(** ** Further views: what an event carries *)

(** An event as [triggerCallback] receives it: the seven arguments. *)
Record Raised : Type := mkRaised {
  r_callback : CallbackId;
  r_pin : Z;
  r_newState : PinState;
  r_oldState : PinState;
  r_event : EventType;
  r_timestamp : Z;
  r_delayMs : Z
}.

(** A call made at detection is an event with delay 0; a queued entry
    is an event with its delay. *)
Definition raisedOfCall (i : Invocation) : Raised :=
  mkRaised (iv_callback i) (iv_pin i) (iv_newState i) (iv_oldState i)
    (iv_event i) (iv_timestamp i) 0.

Definition raisedOfEntry (c : DelayedCallback) : Raised :=
  mkRaised (dc_callback c) (dc_pin c) (dc_newState c) (dc_oldState c)
    (dc_event c) (dc_timestamp c) (dc_delayMs c).

(** The callback slot and the delay of each event kind. *)
Definition callbackFor (p : PinInfo) (e : EventType) : PinCallback :=
  match e with
  | EVENT_CHANGE => onChangeCallback p
  | EVENT_RISING => onRisingCallback p
  | EVENT_FALLING => onFallingCallback p
  | EVENT_SINGLE_PRESS => onSinglePressCallback p
  | EVENT_DOUBLE_PRESS => onDoublePressCallback p
  | EVENT_LONG_PRESS => onLongPressCallback p
  end.

Definition delayFor (p : PinInfo) (e : EventType) : Z :=
  match e with
  | EVENT_CHANGE => onChangeDelay p
  | EVENT_RISING => onRisingDelay p
  | EVENT_FALLING => onFallingDelay p
  | EVENT_SINGLE_PRESS => onSinglePressDelay p
  | EVENT_DOUBLE_PRESS => onDoublePressDelay p
  | EVENT_LONG_PRESS => onLongPressDelay p
  end.

(** What an event raised at time [t] for a pin configured as [cfg]
    carries, the debounced level going from [old] to [new] in the tick. *)
Definition payload (cfg : PinInfo) (old new : PinState) (t : Z) (r : Raised)
    : Prop :=
  eventsEnabled cfg = true
  /\ callbackFor cfg (r_event r) = Some (r_callback r)
  /\ r_delayMs r = delayFor cfg (r_event r)
  /\ r_pin r = pin cfg
  /\ r_timestamp r = t
  /\ r_newState r = new
  /\ match r_event r with
     | EVENT_CHANGE => r_oldState r = old /\ new <> old
     | EVENT_RISING => r_oldState r = old /\ old = PIN_LOW /\ new = PIN_HIGH
     | EVENT_FALLING => r_oldState r = old /\ old = PIN_HIGH /\ new = PIN_LOW
     | EVENT_SINGLE_PRESS | EVENT_DOUBLE_PRESS =>
         r_oldState r = new /\ new = PIN_HIGH
     | EVENT_LONG_PRESS => r_oldState r = new /\ new = PIN_LOW
     end.

(** Every call of [d] satisfies [Q], and every queued entry satisfies
    [Q] and is as [triggerCallback] builds it: not executed, with a
    delay other than 0. *)
Definition EveryRaised (Q : Raised -> Prop) (d : Dispatch) : Prop :=
  Forall (fun i => Q (raisedOfCall i)) (invoked d)
  /\ Forall (fun c => Q (raisedOfEntry c) /\ dc_executed c = false
                      /\ dc_delayMs c <> 0)
       (delayedCallbacks d).

(** An entry as [triggerCallback] leaves it in the queue. *)
Definition pending (c : DelayedCallback) : Prop :=
  dc_executed c = false /\ dc_delayMs c <> 0.

(** The delays of a record as the header types them: [unsigned long]
    values are never negative. *)
Definition delaysUnsigned (p : PinInfo) : Prop :=
  forall e, 0 <= delayFor p e.

(** ** Further views: the click classifier *)

(** A click count the classifier has no branch for: 3 or more, or 2 or
    more with no double-press callback. *)
Definition unreported (p : PinInfo) : Prop :=
  3 <= clickCount p
  \/ (2 <= clickCount p /\ is_null (onDoublePressCallback p) = true).

(** A pin with both click callbacks and a press window of 200 to 1000
    ms, after a press accepted at 1060 whose release is first read at
    1100. *)
Definition shortPressSetup : AvantDigitalRead :=
  snd (setClickParameters clickSetup 2 200 1000).

Definition shortPressHeld : AvantDigitalRead :=
  run shortPressSetup (allRead [(1000, LOW); (1060, LOW); (1100, HIGH)]).

(** A pin with both click callbacks and the default press window (50 to
    300 ms), after a press accepted at 1060 and held until 2000. *)
Definition longPressHeld : AvantDigitalRead :=
  run clickSetup (allRead [(1000, LOW); (1060, LOW); (2000, HIGH)]).

(** A pin with a single-press callback only and a press window of 200 to
    1000 ms, after a press of 100 ms and during a second press accepted
    at 2060, whose release is first read at 2300. *)
Definition secondPressHeld : AvantDigitalRead :=
  let a := snd (onSinglePress onePin 2 (Some 1%nat) 0) in
  let a := snd (setClickParameters a 2 200 1000) in
  run a (allRead [(1000, LOW); (1060, LOW); (1100, HIGH); (1160, HIGH);
                  (2000, LOW); (2060, LOW); (2300, HIGH)]).

(** ** Further views: the records of a registry *)

(** The two levels a debounced pin can be at. *)
Definition twoValued (s : PinState) : Prop := s = PIN_LOW \/ s = PIN_HIGH.

(** What every stored record satisfies, given the [pinMode] calls made. *)
Definition recordOk (calls : list (Z * Z)) (p : PinInfo) : Prop :=
  twoValued (currentState p) /\ twoValued (lastState p)
  /\ In (pin p, mode p) calls /\ 0 <= clickCount p.



(** A pin registered while it reads LOW, with a long-press callback of
    1000 ms registered afterwards. *)
Definition pressedAtStart : AvantDigitalRead :=
  snd (onLongPress (snd (addPin newAvantDigitalRead 2 0 LOW)) 2
         (Some 5%nat) 0 1000 false).

(** A pin registered while it reads LOW, with a long-press callback of
    500 ms, still pressed at 500; the callback is then registered again
    with 1000 ms. *)
Definition pressedLatched : AvantDigitalRead :=
  let a :=
    snd (onLongPress (snd (addPin newAvantDigitalRead 2 0 LOW)) 2
           (Some 5%nat) 0 500 false) in
  let a := run a (allRead [(100, LOW); (500, LOW)]) in
  snd (onLongPress a 2 (Some 5%nat) 0 1000 false).

(** * Properties *)

(** ** Raising events only appends to the dispatch state *)

Lemma dappend_nil_r (d : Dispatch) : dappend d noDispatch = d.
Proof. destruct d; unfold dappend; simpl; now rewrite !app_nil_r. Qed.

Lemma dappend_nil_l (d : Dispatch) : dappend noDispatch d = d.
Proof. now destruct d. Qed.

Lemma dappend_assoc (a b c : Dispatch) :
  dappend (dappend a b) c = dappend a (dappend b c).
Proof. unfold dappend; simpl; now rewrite !app_assoc. Qed.

Lemma triggerCallback_frame c k n o e t dl d :
  triggerCallback c k n o e t dl d
  = dappend d (triggerCallback c k n o e t dl noDispatch).
Proof.
  unfold triggerCallback.
  destruct c as [c|]; [destruct (dl =? 0)|];
    unfold dappend; simpl; rewrite ?app_nil_r; now destruct d.
Qed.

Lemma Framed_ret p : Framed (fun d => (p, d)).
Proof. intro d; simpl; now rewrite dappend_nil_r. Qed.

Lemma Framed_bind f g :
  Framed f -> (forall p, Framed (g p)) ->
  Framed (fun d => let '(p, d') := f d in g p d').
Proof.
  intros Hf Hg d. rewrite (Hf d).
  destruct (f noDispatch) as [p0 d0] eqn:E0; simpl.
  rewrite (Hg p0 (dappend d d0)), (Hg p0 d0); simpl.
  now rewrite dappend_assoc.
Qed.

Lemma Framed_if (b : bool) f g :
  Framed f -> Framed g -> Framed (fun d => if b then f d else g d).
Proof. now destruct b. Qed.

Lemma triggerSinglePress_frame p t d :
  triggerSinglePress p t d = dappend d (triggerSinglePress p t noDispatch).
Proof. apply triggerCallback_frame. Qed.

Lemma checkLongPress_Framed p t : Framed (checkLongPress p t).
Proof.
  intro d. unfold checkLongPress.
  repeat match goal with
         | |- context [if ?c then _ else _] => destruct c
         end; simpl; rewrite ?dappend_nil_r; try reflexivity.
  now rewrite triggerCallback_frame.
Qed.

Lemma checkClick_Framed p t : Framed (checkClick p t).
Proof.
  intro d. unfold checkClick.
  repeat match goal with
         | |- context [if ?c then _ else _] => destruct c
         end; simpl; rewrite ?dappend_nil_r; try reflexivity;
    f_equal; try apply triggerCallback_frame; apply triggerSinglePress_frame.
Qed.

Lemma checkSinglePressTimeout_Framed p t :
  Framed (checkSinglePressTimeout p t).
Proof.
  intro d. unfold checkSinglePressTimeout.
  repeat match goal with
         | |- context [if ?c then _ else _] => destruct c
         end; simpl; rewrite ?dappend_nil_r; try reflexivity;
    f_equal; apply triggerSinglePress_frame.
Qed.

Lemma detectButtonGestures_Framed p t : Framed (detectButtonGestures p t).
Proof.
  unfold detectButtonGestures.
  apply Framed_if; [apply Framed_ret|].
  apply (Framed_bind (checkLongPress p t)); [apply checkLongPress_Framed|].
  intro p1.
  apply (Framed_bind (checkClick p1 t)); [apply checkClick_Framed|].
  intro p2. apply checkSinglePressTimeout_Framed.
Qed.

Lemma triggerEdges_frame p prev t d :
  triggerEdges p prev t d = dappend d (triggerEdges p prev t noDispatch).
Proof.
  unfold triggerEdges.
  destruct (eventsEnabled p); [|now rewrite dappend_nil_r].
  repeat match goal with
         | |- context [if ?c then _ else _] => destruct c
         end;
    repeat (rewrite (triggerCallback_frame _ _ _ _ _ _ _ (triggerCallback _ _ _ _ _ _ _ _)); symmetry;
            rewrite (triggerCallback_frame _ _ _ _ _ _ _ (triggerCallback _ _ _ _ _ _ _ _)); symmetry);
    rewrite ?dappend_nil_r; try reflexivity;
    rewrite ?(triggerCallback_frame _ _ _ _ _ _ _ d), <- ?dappend_assoc;
    try reflexivity.
Qed.

Lemma debounce_Framed p raw t : Framed (debounce p raw t).
Proof.
  intro d. unfold debounce.
  repeat match goal with
         | |- context [if ?c then _ else _] => destruct c
         end; simpl; rewrite ?dappend_nil_r; try reflexivity;
    f_equal; apply triggerEdges_frame.
Qed.

Lemma updatePin_Framed p raw t : Framed (updatePin p raw t).
Proof.
  unfold updatePin.
  apply (Framed_bind (debounce p raw t)); [apply debounce_Framed|].
  intro p1. apply detectButtonGestures_Framed.
Qed.

Lemma updatePin_frame p raw t d :
  updatePin p raw t d = (pinNext p raw t, dappend d (pinRaised p raw t)).
Proof. apply updatePin_Framed. Qed.

(** ** Counting lemmas *)

Lemma raisedIn_dappend k e d d' :
  raisedIn k e (dappend d d') = (raisedIn k e d + raisedIn k e d')%nat.
Proof.
  unfold raisedIn, dappend; simpl. rewrite !filter_app, !length_app. lia.
Qed.

Lemma raisedIn_noDispatch k e : raisedIn k e noDispatch = 0%nat.
Proof. reflexivity. Qed.

Lemma scanDelayed_filter t l :
  scanDelayed t l
  = (filter (fun c => negb (isReady t c)) l, filter (isReady t) l).
Proof.
  induction l as [|c l IH]; simpl; [reflexivity|].
  rewrite IH. now destruct (isReady t c).
Qed.

Lemma iv_is_fire k e t c : iv_is k e (fire t c) = dc_is k e c.
Proof. reflexivity. Qed.

Lemma filter_split_length {A} (f g : A -> bool) (l : list A) :
  (length (filter f (filter g l))
   + length (filter f (filter (fun x => negb (g x)) l)))%nat
  = length (filter f l).
Proof.
  induction l as [|x l IH]; simpl; [reflexivity|].
  destruct (g x), (f x) eqn:F; simpl; rewrite ?F; simpl; lia.
Qed.

Lemma filter_map_comm {A B} (h : A -> B) (f : B -> bool) (l : list A) :
  filter f (map h l) = map h (filter (fun x => f (h x)) l).
Proof.
  induction l as [|x l IH]; simpl; [reflexivity|].
  destruct (f (h x)); simpl; now rewrite IH.
Qed.

(** Draining moves entries from the queue to the log: what was raised
    stays raised. *)
Lemma raisedIn_processDelayedCallbacks k e t d :
  raisedIn k e (processDelayedCallbacks t d) = raisedIn k e d.
Proof.
  unfold processDelayedCallbacks. rewrite scanDelayed_filter.
  unfold raisedIn; simpl.
  rewrite filter_app, length_app, filter_map_comm, length_map.
  rewrite (filter_ext _ (dc_is k e)) by (intro; apply iv_is_fire).
  pose proof (filter_split_length (dc_is k e) (isReady t) (delayedCallbacks d)).
  lia.
Qed.

(** ** Every event a pin raises carries that pin's identifier *)

Lemma OnlyPin_noDispatch k : OnlyPin k noDispatch.
Proof. split; constructor. Qed.

Lemma OnlyPin_trigger c k n o e t dl d :
  OnlyPin k d -> OnlyPin k (triggerCallback c k n o e t dl d).
Proof.
  intros [Hi Hd]. unfold triggerCallback.
  destruct c as [c|]; [destruct (dl =? 0)|]; split; simpl; auto;
    apply Forall_app; split; auto; now repeat constructor.
Qed.

Create HintDb pins.
#[local] Hint Resolve OnlyPin_trigger OnlyPin_noDispatch : pins.

Ltac split_ifs :=
  repeat match goal with
         | |- context [if ?c then _ else _] => destruct c
         end.

Lemma checkLongPress_pin p t d :
  pin (fst (checkLongPress p t d)) = pin p
  /\ (OnlyPin (pin p) d -> OnlyPin (pin p) (snd (checkLongPress p t d))).
Proof. unfold checkLongPress; split_ifs; simpl; auto with pins. Qed.

Lemma checkClick_pin p t d :
  pin (fst (checkClick p t d)) = pin p
  /\ (OnlyPin (pin p) d -> OnlyPin (pin p) (snd (checkClick p t d))).
Proof.
  unfold checkClick, triggerSinglePress; split_ifs; simpl; auto with pins.
Qed.

Lemma checkSinglePressTimeout_pin p t d :
  pin (fst (checkSinglePressTimeout p t d)) = pin p
  /\ (OnlyPin (pin p) d ->
      OnlyPin (pin p) (snd (checkSinglePressTimeout p t d))).
Proof.
  unfold checkSinglePressTimeout, triggerSinglePress; split_ifs; simpl;
    auto with pins.
Qed.

Lemma detectButtonGestures_pin p t d :
  pin (fst (detectButtonGestures p t d)) = pin p
  /\ (OnlyPin (pin p) d -> OnlyPin (pin p) (snd (detectButtonGestures p t d))).
Proof.
  unfold detectButtonGestures.
  destruct (negb (eventsEnabled p)); [simpl; auto|].
  destruct (checkLongPress_pin p t d) as [E1 O1].
  destruct (checkLongPress p t d) as [p1 d1]; simpl in *.
  destruct (checkClick_pin p1 t d1) as [E2 O2].
  destruct (checkClick p1 t d1) as [p2 d2]; simpl in *.
  destruct (checkSinglePressTimeout_pin p2 t d2) as [E3 O3].
  rewrite E2, E1 in *. split; [congruence|auto].
Qed.

Lemma triggerEdges_pin p prev t d :
  OnlyPin (pin p) d -> OnlyPin (pin p) (triggerEdges p prev t d).
Proof. unfold triggerEdges; split_ifs; auto with pins. Qed.

Lemma debounce_pin p raw t d :
  pin (fst (debounce p raw t d)) = pin p
  /\ (OnlyPin (pin p) d -> OnlyPin (pin p) (snd (debounce p raw t d))).
Proof.
  unfold debounce; split_ifs; simpl; split; auto; intro H;
    match goal with
    | |- OnlyPin _ (triggerEdges ?q _ _ _) => exact (triggerEdges_pin q _ _ _ H)
    end.
Qed.

Lemma updatePin_pin p raw t d :
  pin (fst (updatePin p raw t d)) = pin p
  /\ (OnlyPin (pin p) d -> OnlyPin (pin p) (snd (updatePin p raw t d))).
Proof.
  unfold updatePin.
  destruct (debounce_pin p raw t d) as [E1 O1].
  destruct (debounce p raw t d) as [p1 d1]; simpl in *.
  destruct (detectButtonGestures_pin p1 t d1) as [E2 O2].
  rewrite E1 in *. split; auto.
Qed.

Lemma pinNext_pin p raw t : pin (pinNext p raw t) = pin p.
Proof. apply updatePin_pin. Qed.

Lemma pinRaised_OnlyPin p raw t : OnlyPin (pin p) (pinRaised p raw t).
Proof. apply updatePin_pin, OnlyPin_noDispatch. Qed.

Lemma raisedIn_other_pin k k' e d :
  OnlyPin k' d -> k' <> k -> raisedIn k e d = 0%nat.
Proof.
  intros [Hi Hd] N. unfold raisedIn.
  assert (filter (iv_is k e) (invoked d) = []) as ->.
  { induction Hi as [|i l Hx _ IH]; simpl; [reflexivity|].
    unfold iv_is at 1. rewrite Hx.
    destruct (Z.eqb_spec k' k); [contradiction|exact IH]. }
  assert (filter (dc_is k e) (delayedCallbacks d) = []) as ->.
  { induction Hd as [|c l Hx _ IH]; simpl; [reflexivity|].
    unfold dc_is at 1. rewrite Hx.
    destruct (Z.eqb_spec k' k); [contradiction|exact IH]. }
  reflexivity.
Qed.

(** ** From one pin to the registry *)

Lemma updatePins_frame l rd t d :
  updatePins l rd t d
  = (map (fun p => pinNext p (rd (pin p)) t) l,
     dappend d (pinsRaised l rd t)).
Proof.
  revert d; induction l as [|p l IH]; intro d; simpl.
  - now rewrite dappend_nil_r.
  - rewrite updatePin_frame, IH. now rewrite dappend_assoc.
Qed.

Lemma findPinIn_map_next l rd t k :
  findPinIn (map (fun p => pinNext p (rd (pin p)) t) l) k
  = option_map (fun p => pinNext p (rd k) t) (findPinIn l k).
Proof.
  induction l as [|p l IH]; simpl; [reflexivity|].
  rewrite pinNext_pin.
  destruct (Z.eqb_spec (pin p) k) as [->|N]; [reflexivity|exact IH].
Qed.

Lemma map_pin_next l rd t :
  map pin (map (fun p => pinNext p (rd (pin p)) t) l) = map pin l.
Proof.
  rewrite map_map. apply map_ext. intro p. apply pinNext_pin.
Qed.

Lemma findPinIn_Some_pin l k p : findPinIn l k = Some p -> pin p = k.
Proof.
  induction l as [|q l IH]; simpl; [discriminate|].
  destruct (Z.eqb_spec (pin q) k); [now intros [= <-]|exact IH].
Qed.

Lemma findPinIn_None l k : findPinIn l k = None <-> ~ In k (map pin l).
Proof.
  induction l as [|q l IH]; simpl; [tauto|].
  destruct (Z.eqb_spec (pin q) k); split; try discriminate; tauto.
Qed.

Lemma pinsRaised_absent l rd t k e :
  ~ In k (map pin l) -> raisedIn k e (pinsRaised l rd t) = 0%nat.
Proof.
  induction l as [|q l IH]; simpl; intro N; [reflexivity|].
  rewrite raisedIn_dappend, IH by tauto.
  rewrite (raisedIn_other_pin k (pin q)); auto using pinRaised_OnlyPin.
Qed.

Lemma pinsRaised_present l rd t k e p :
  NoDup (map pin l) -> findPinIn l k = Some p ->
  raisedIn k e (pinsRaised l rd t) = raisedIn k e (pinRaised p (rd k) t).
Proof.
  induction l as [|q l IH]; simpl; [discriminate|].
  intros ND F. inversion ND as [|? ? Hnot ND']; subst.
  rewrite raisedIn_dappend.
  destruct (Z.eqb_spec (pin q) k) as [E|N].
  - injection F as ->. subst k.
    rewrite (pinsRaised_absent l rd t (pin p) e Hnot). lia.
  - rewrite (raisedIn_other_pin k (pin q)); auto using pinRaised_OnlyPin.
Qed.

(** One tick, seen from one registered pin: its record advances by
    [pinNext] and the events raised for it are those of [pinRaised]. *)
Lemma update_pin_view a rd t k p :
  registry_ok a -> findPin a k = Some p ->
  registry_ok (update a rd t)
  /\ findPin (update a rd t) k = Some (pinNext p (rd k) t)
  /\ forall e,
       raisedIn k e (dispatch (update a rd t))
       = (raisedIn k e (dispatch a) + raisedIn k e (pinRaised p (rd k) t))%nat.
Proof.
  unfold registry_ok, findPin, update. intros ND F.
  rewrite updatePins_frame; simpl.
  rewrite map_pin_next, findPinIn_map_next, F; simpl.
  split; [exact ND|split; [reflexivity|intro e]].
  rewrite raisedIn_processDelayedCallbacks, raisedIn_dappend.
  now rewrite (pinsRaised_present _ _ _ _ _ p).
Qed.

Lemma runPin_frame p ticks d :
  runPin p ticks d
  = (fst (runPin p ticks noDispatch),
     dappend d (snd (runPin p ticks noDispatch))).
Proof.
  revert p d; induction ticks as [|[t raw] ticks IH]; intros p d; simpl.
  - now rewrite dappend_nil_r.
  - rewrite (updatePin_frame p raw t d), (updatePin_frame p raw t noDispatch).
    rewrite IH, (IH _ (dappend noDispatch _)); simpl.
    now rewrite dappend_nil_l, dappend_assoc.
Qed.

(** A run of ticks, seen from one registered pin. *)
Lemma run_pin_view a ticks k p :
  registry_ok a -> findPin a k = Some p ->
  registry_ok (run a ticks)
  /\ findPin (run a ticks) k = Some (fst (runPin p (ticksOf k ticks) noDispatch))
  /\ forall e,
       raisedIn k e (dispatch (run a ticks))
       = (raisedIn k e (dispatch a)
          + raisedIn k e (snd (runPin p (ticksOf k ticks) noDispatch)))%nat.
Proof.
  revert a p; induction ticks as [|[t rd] ticks IH]; intros a p ND F; simpl.
  - split; [exact ND|split; [exact F|intro e]].
    rewrite raisedIn_noDispatch. lia.
  - destruct (update_pin_view a rd t k p ND F) as (ND1 & F1 & R1).
    destruct (IH _ _ ND1 F1) as (ND2 & F2 & R2).
    rewrite (updatePin_frame p (rd k) t noDispatch), dappend_nil_l.
    rewrite (runPin_frame _ _ (pinRaised p (rd k) t)); simpl.
    split; [exact ND2|split; [exact F2|intro e]].
    rewrite R2, R1, raisedIn_dappend. lia.
Qed.

(** ** The deferred callback scheduler *)

Lemma usub_elapsed detectedAt e :
  0 <= e < ULONG_RANGE -> usub ((detectedAt + e) mod ULONG_RANGE) detectedAt = e.
Proof.
  intro He. unfold usub.
  rewrite Zminus_mod_idemp_l.
  replace (detectedAt + e - detectedAt) with e by lia.
  now apply Z.mod_small.
Qed.

Lemma scanDelayed_app t l1 l2 :
  scanDelayed t (l1 ++ l2)
  = (fst (scanDelayed t l1) ++ fst (scanDelayed t l2),
     snd (scanDelayed t l1) ++ snd (scanDelayed t l2)).
Proof.
  rewrite !scanDelayed_filter; simpl. now rewrite !filter_app.
Qed.

(** C4.  An event with a callback and delay 0 calls the callback at once,
    with the detection time.  With a delay [k > 0] the event is queued; a
    drain [e] milliseconds after the detection (the clock may have wrapped
    in between) behaves, when [e < k], as on the queue without the entry
    and leaves the entry queued behind the others; when [e >= k] it
    behaves as on the queue without the entry and then calls the callback
    once, with the time of the drain as the timestamp, and the entry is
    gone from the queue. *)
Theorem deferred_callback_contract
    (c : CallbackId) (k : Z) (n o : PinState) (ev : EventType)
    (detectedAt : Z) (d : Dispatch) :
  triggerCallback (Some c) k n o ev detectedAt 0 d
  = mkDispatch (delayedCallbacks d)
      (invoked d ++ [mkInvocation c k n o ev detectedAt])
  /\ forall delayMs e,
      0 < delayMs -> 0 <= e < ULONG_RANGE ->
      let t := (detectedAt + e) mod ULONG_RANGE in
      let without := processDelayedCallbacks t d in
      let within :=
        processDelayedCallbacks t
          (triggerCallback (Some c) k n o ev detectedAt delayMs d) in
      triggerCallback (Some c) k n o ev detectedAt delayMs d
      = mkDispatch
          (delayedCallbacks d ++ [queued c k n o ev detectedAt delayMs])
          (invoked d)
      /\ (e < delayMs ->
          within
          = mkDispatch
              (delayedCallbacks without
                 ++ [queued c k n o ev detectedAt delayMs])
              (invoked without))
      /\ (delayMs <= e ->
          within
          = mkDispatch (delayedCallbacks without)
              (invoked without ++ [mkInvocation c k n o ev t])).
Proof.
  split; [reflexivity|].
  intros delayMs e Hk He t without within.
  assert (Htrig : triggerCallback (Some c) k n o ev detectedAt delayMs d
                  = mkDispatch
                      (delayedCallbacks d
                         ++ [queued c k n o ev detectedAt delayMs])
                      (invoked d)).
  { unfold triggerCallback.
    destruct (Z.eqb_spec delayMs 0); [lia|reflexivity]. }
  split; [exact Htrig|].
  subst within without. rewrite Htrig.
  unfold processDelayedCallbacks; simpl delayedCallbacks; simpl invoked.
  rewrite scanDelayed_app.
  destruct (scanDelayed t (delayedCallbacks d)) as [kept ready] eqn:E.
  simpl scanDelayed. unfold isReady, queued; simpl.
  subst t. rewrite (usub_elapsed detectedAt e He).
  split; intro Hlt.
  - destruct (Z.leb_spec delayMs e); [lia|]. simpl.
    now rewrite app_nil_r.
  - destruct (Z.leb_spec delayMs e); [|lia]. simpl.
    now rewrite app_nil_r, map_app, app_assoc.
Qed.

Lemma deferred_callback_contract_witness :
  let d := mkDispatch [queued 7%nat 3 PIN_HIGH PIN_LOW EVENT_RISING 90 20] [] in
  processDelayedCallbacks 149
    (triggerCallback (Some 1%nat) 2 PIN_LOW PIN_HIGH EVENT_FALLING 100 50 d)
  = mkDispatch [queued 1%nat 2 PIN_LOW PIN_HIGH EVENT_FALLING 100 50]
      [mkInvocation 7%nat 3 PIN_HIGH PIN_LOW EVENT_RISING 149]
  /\ processDelayedCallbacks 150
       (triggerCallback (Some 1%nat) 2 PIN_LOW PIN_HIGH EVENT_FALLING 100 50 d)
     = mkDispatch []
         [mkInvocation 7%nat 3 PIN_HIGH PIN_LOW EVENT_RISING 150;
          mkInvocation 1%nat 2 PIN_LOW PIN_HIGH EVENT_FALLING 150].
Proof.
  intro d.
  pose proof (deferred_callback_contract 1%nat 2 PIN_LOW PIN_HIGH
                EVENT_FALLING 100 d) as [_ H].
  split.
  - destruct (H 50 49 ltac:(lia) ltac:(unfold ULONG_RANGE; lia))
      as (_ & Hb & _).
    exact (Hb ltac:(lia)).
  - destruct (H 50 50 ltac:(lia) ltac:(unfold ULONG_RANGE; lia))
      as (_ & _ & Ha).
    exact (Ha ltac:(lia)).
Defined.

(** ** The pin registry *)

Lemma storePin_pins l k f :
  (forall p, pin (f p) = pin p) -> map pin (storePin l k f) = map pin l.
Proof.
  intro Hf. induction l as [|q l IH]; simpl; [reflexivity|].
  destruct (pin q =? k); simpl; [now rewrite Hf|now rewrite IH].
Qed.

Lemma withPin_pins a k f :
  (forall p, pin (f p) = pin p) ->
  map pin (pinList (snd (withPin a k f))) = map pin (pinList a).
Proof.
  intro Hf. unfold withPin.
  destruct (findPin a k); simpl; [now apply storePin_pins|reflexivity].
Qed.

Lemma applySetter_pins a k s :
  map pin (pinList (snd (applySetter a k s))) = map pin (pinList a).
Proof. destruct s; simpl; now apply withPin_pins. Qed.

Lemma erasePin_NoDup l k l' :
  erasePin l k = Some l' ->
  NoDup (map pin l) -> NoDup (map pin l') /\ ~ In k (map pin l').
Proof.
  revert l'; induction l as [|q l IH]; simpl; intros l' E ND; [discriminate|].
  inversion ND as [|? ? Hnot ND']; subst.
  destruct (Z.eqb_spec (pin q) k) as [Ek|Nk].
  - injection E as <-. subst k. now split.
  - destruct (erasePin l k) as [l0|] eqn:E0; [|discriminate].
    injection E as <-. destruct (IH l0 eq_refl ND') as [ND0 N0].
    assert (incl (map pin l0) (map pin l)) as Hincl.
    { clear -E0. revert l0 E0.
      induction l as [|x l IHl]; simpl; intros l0 E0; [discriminate|].
      destruct (pin x =? k).
      - injection E0 as <-. now apply incl_tl, incl_refl.
      - destruct (erasePin l k) as [l1|]; [|discriminate].
        injection E0 as <-. simpl. intros y [->|Hy]; [now left|right].
        now apply (IHl l1 eq_refl). }
    split; simpl.
    + constructor; [intro H; apply Hnot, Hincl, H|exact ND0].
    + intros [H|H]; [contradiction|now apply N0].
Qed.

Lemma erasePin_None l k : erasePin l k = None <-> findPinIn l k = None.
Proof.
  induction l as [|q l IH]; simpl; [tauto|].
  destruct (pin q =? k); [split; discriminate|].
  destruct (erasePin l k); simpl; [split; [discriminate|]|tauto].
  intro F. apply IH in F. discriminate.
Qed.

Lemma addPin_registry_ok a k m r :
  registry_ok a -> registry_ok (snd (addPin a k m r)).
Proof.
  unfold registry_ok, addPin, findPin. intro ND.
  destruct (findPinIn (pinList a) k) eqn:F; simpl; [exact ND|].
  rewrite map_app; simpl.
  apply findPinIn_None in F.
  apply NoDup_app; [exact ND|repeat constructor; simpl; tauto|].
  intros x Hx [<-|[]]. contradiction.
Qed.

Lemma removePin_registry_ok a k :
  registry_ok a ->
  registry_ok (snd (removePin a k)) /\ findPin (snd (removePin a k)) k = None.
Proof.
  unfold registry_ok, removePin, findPin. intro ND.
  destruct (erasePin (pinList a) k) as [l|] eqn:E; simpl.
  - destruct (erasePin_NoDup _ _ _ E ND) as [ND' N].
    split; [exact ND'|now apply findPinIn_None].
  - split; [exact ND|now apply erasePin_None].
Qed.

Lemma Reachable_registry_ok a : Reachable a -> registry_ok a.
Proof.
  induction 1 as [|a k m r _ IH|a k _ IH|a k s _ IH|a _ IH|a _ IH|a rd t _ IH].
  - constructor.
  - now apply addPin_registry_ok.
  - now apply removePin_registry_ok.
  - unfold registry_ok. now rewrite applySetter_pins.
  - unfold registry_ok, enableAllEvents; simpl.
    rewrite map_map. exact IH.
  - unfold registry_ok, disableAllEvents; simpl.
    rewrite map_map. exact IH.
  - unfold registry_ok, update.
    rewrite updatePins_frame; simpl. now rewrite map_pin_next.
Qed.

Lemma applySetter_unregistered a k s :
  findPin a k = None -> applySetter a k s = (false, a).
Proof.
  intro F. destruct s; simpl;
    unfold setDebounceTime, onChange, onRising, onFalling, onSinglePress,
      setClickParameters, onDoublePress, onLongPress, enablePinEvents,
      disablePinEvents, withPin; now rewrite F.
Qed.

(** C9.  In every state the object can reach: the registry holds at most
    one record per pin identifier; [addPin] on a registered pin returns
    [false], leaves the object as it was and does not call [pinMode];
    each per-pin setter on an unregistered pin returns [false] and leaves
    the object as it was (so no record is created); and after [removePin]
    the pin is unregistered, so each setter fails on it in the same way. *)
Theorem registry_rejections (a : AvantDigitalRead) (k : Z) :
  Reachable a ->
  registry_ok a
  /\ (forall m r, findPin a k <> None -> addPin a k m r = (false, a))
  /\ (forall s, findPin a k = None -> applySetter a k s = (false, a))
  /\ (forall s,
        let a' := snd (removePin a k) in
        findPin a' k = None /\ applySetter a' k s = (false, a')).
Proof.
  intro R. pose proof (Reachable_registry_ok a R) as ND.
  split; [exact ND|]. split; [|split].
  - intros m r F. unfold addPin. destruct (findPin a k); [reflexivity|].
    now contradiction F.
  - intros s F. now apply applySetter_unregistered.
  - intros s a'. destruct (removePin_registry_ok a k ND) as [_ F].
    split; [exact F|now apply applySetter_unregistered].
Qed.

Lemma twoPins_Reachable : Reachable twoPins.
Proof. unfold twoPins. do 2 apply Reachable_addPin. apply Reachable_new. Qed.

Lemma registry_rejections_witness :
  addPin twoPins 2 5 LOW = (false, twoPins)
  /\ onChange twoPins 9 (Some 1%nat) 0 = (false, twoPins)
  /\ setDebounceTime (snd (removePin twoPins 4)) 4 80
     = (false, snd (removePin twoPins 4)).
Proof.
  split; [|split].
  - destruct (registry_rejections twoPins 2 twoPins_Reachable)
      as (_ & H & _ & _).
    apply H. vm_compute. discriminate.
  - destruct (registry_rejections twoPins 9 twoPins_Reachable)
      as (_ & _ & H & _).
    apply (H (OnChange (Some 1%nat) 0)). reflexivity.
  - destruct (registry_rejections twoPins 4 twoPins_Reachable)
      as (_ & _ & _ & H).
    apply (H (SetDebounceTime 80)).
Defined.

(** ** Operations on an unregistered pin *)

(** C5, as amended.  On an unregistered pin every public operation that
    takes a pin and can fail leaves the object as it was and returns:
    [false] from [removePin], [isInitialized] and each setter; the
    sentinel [PIN_UNINITIALIZED] from [readPin] and, as the [int] -1,
    from [getPinMode]; and from [getDebounceTime] the default debounce
    time 50, which is neither of the two error shapes. *)
Theorem unregistered_pin_results
    (a : AvantDigitalRead) (k : Z) (op : Operation) :
  findPin a k = None ->
  snd (perform a k op) = a
  /\ fst (perform a k op)
     = match op with
       | OpRemovePin | OpIsInitialized | OpSetter _ => VBool false
       | OpReadPin => VPinState PIN_UNINITIALIZED
       | OpGetPinMode => VInt (-1)
       | OpGetDebounceTime => VULong DEFAULT_DEBOUNCE_TIME
       end
  /\ (op <> OpGetDebounceTime -> isErrorShape (fst (perform a k op)) = true).
Proof.
  intro F. destruct op; simpl.
  - unfold removePin.
    assert (erasePin (pinList a) k = None) as -> by now apply erasePin_None.
    simpl. now repeat split.
  - unfold isInitialized. rewrite F. now repeat split.
  - unfold getPinMode. rewrite F. now repeat split.
  - unfold readPin. rewrite F. now repeat split.
  - unfold getDebounceTime. rewrite F. split; [reflexivity|].
    split; [reflexivity|]. intro N. now contradiction N.
  - rewrite (applySetter_unregistered a k s F). now repeat split.
Qed.

Lemma unregistered_pin_results_witness :
  fst (perform twoPins 9 OpReadPin) = VPinState PIN_UNINITIALIZED
  /\ fst (perform twoPins 9 OpGetDebounceTime) = VULong 50
  /\ snd (perform twoPins 9 (OpSetter EnablePinEvents)) = twoPins.
Proof.
  split; [|split].
  - apply (unregistered_pin_results twoPins 9 OpReadPin). reflexivity.
  - apply (unregistered_pin_results twoPins 9 OpGetDebounceTime). reflexivity.
  - apply (unregistered_pin_results twoPins 9 (OpSetter EnablePinEvents)).
    reflexivity.
Defined.

(** C5 as stated fails: pin 9 is not registered, and [getDebounceTime]
    returns 50 for it, an [unsigned long] that is neither [false] nor the
    sentinel. *)
Lemma getDebounceTime_unregistered_counterexample :
  findPin twoPins 9 = None
  /\ fst (perform twoPins 9 OpGetDebounceTime) = VULong 50
  /\ isErrorShape (fst (perform twoPins 9 OpGetDebounceTime)) = false.
Proof. repeat split. Qed.

(** ** Which block raises which kind of event *)

Lemma raisedIn_trigger k e c k' n o e' t dl :
  raisedIn k e (triggerCallback c k' n o e' t dl noDispatch)
  = if negb (is_null c) && (k' =? k) && EventType_eqb e' e
    then 1%nat else 0%nat.
Proof.
  unfold triggerCallback, raisedIn.
  destruct c as [c|]; [|reflexivity].
  destruct (dl =? 0); simpl; unfold iv_is, dc_is; simpl;
    now destruct ((k' =? k) && EventType_eqb e' e).
Qed.

Ltac count_raised :=
  simpl; rewrite ?raisedIn_dappend, ?raisedIn_trigger, ?raisedIn_noDispatch;
  simpl; rewrite ?andb_false_r, ?andb_true_r; simpl.

Lemma checkLongPress_kinds p t k e :
  e <> EVENT_LONG_PRESS ->
  raisedIn k e (snd (checkLongPress p t noDispatch)) = 0%nat.
Proof.
  intro N. unfold checkLongPress. split_ifs; count_raised; auto.
  destruct e; try contradiction; now rewrite ?andb_false_r.
Qed.

Lemma checkClick_kinds p t k e :
  e <> EVENT_SINGLE_PRESS -> e <> EVENT_DOUBLE_PRESS ->
  raisedIn k e (snd (checkClick p t noDispatch)) = 0%nat.
Proof.
  intros N1 N2. unfold checkClick, triggerSinglePress.
  split_ifs; count_raised; auto;
    destruct e; try contradiction; now rewrite ?andb_false_r.
Qed.

Lemma checkSinglePressTimeout_kinds p t k e :
  e <> EVENT_SINGLE_PRESS ->
  raisedIn k e (snd (checkSinglePressTimeout p t noDispatch)) = 0%nat.
Proof.
  intro N. unfold checkSinglePressTimeout, triggerSinglePress.
  split_ifs; count_raised; auto;
    destruct e; try contradiction; now rewrite ?andb_false_r.
Qed.

(** With events enabled the three gesture blocks run one after the
    other, each on the record the block before left. *)
Lemma detectButtonGestures_split p t :
  eventsEnabled p = true ->
  let p1 := fst (checkLongPress p t noDispatch) in
  let p2 := fst (checkClick p1 t noDispatch) in
  detectButtonGestures p t noDispatch
  = (fst (checkSinglePressTimeout p2 t noDispatch),
     dappend (snd (checkLongPress p t noDispatch))
       (dappend (snd (checkClick p1 t noDispatch))
          (snd (checkSinglePressTimeout p2 t noDispatch)))).
Proof.
  intros En p1 p2. unfold detectButtonGestures. rewrite En; simpl.
  rewrite (checkLongPress_Framed p t noDispatch), dappend_nil_l.
  fold p1. rewrite (checkClick_Framed p1 t _). fold p2.
  rewrite (checkSinglePressTimeout_Framed p2 t _).
  now rewrite dappend_assoc.
Qed.

Lemma detectButtonGestures_disabled p t d :
  eventsEnabled p = false -> detectButtonGestures p t d = (p, d).
Proof. intro En. unfold detectButtonGestures. now rewrite En. Qed.

Lemma detectButtonGestures_no_edges p t k e :
  isEdge e = true ->
  raisedIn k e (snd (detectButtonGestures p t noDispatch)) = 0%nat.
Proof.
  intro He. destruct (eventsEnabled p) eqn:En.
  - rewrite (detectButtonGestures_split p t En); simpl.
    rewrite !raisedIn_dappend.
    rewrite checkLongPress_kinds, checkClick_kinds,
      checkSinglePressTimeout_kinds; auto;
      intros ->; discriminate.
  - now rewrite detectButtonGestures_disabled.
Qed.

Lemma triggerEdges_kinds p prev t k e :
  isEdge e = false -> raisedIn k e (triggerEdges p prev t noDispatch) = 0%nat.
Proof.
  intro He. unfold triggerEdges.
  destruct (eventsEnabled p); [|reflexivity].
  split_ifs;
    rewrite ?(triggerCallback_frame _ _ _ _ _ _ _
                (triggerCallback _ _ _ _ _ _ _ _));
    rewrite ?(triggerCallback_frame _ _ _ _ _ _ _
                (dappend _ _));
    count_raised; auto;
    destruct e; try discriminate; now rewrite ?andb_false_r.
Qed.

Lemma debounce_no_gestures p raw t k e :
  isEdge e = false ->
  raisedIn k e (snd (debounce p raw t noDispatch)) = 0%nat.
Proof.
  intro He. unfold debounce. split_ifs; simpl; auto;
    now apply triggerEdges_kinds.
Qed.

(** The tick of one pin, split at the call of [detectButtonGestures]. *)
Lemma updatePin_split p raw t :
  let p1 := fst (debounce p raw t noDispatch) in
  pinNext p raw t = fst (detectButtonGestures p1 t noDispatch)
  /\ pinRaised p raw t
     = dappend (snd (debounce p raw t noDispatch))
         (snd (detectButtonGestures p1 t noDispatch)).
Proof.
  intro p1. unfold pinNext, pinRaised, updatePin.
  destruct (debounce p raw t noDispatch) as [q d] eqn:E. subst p1; simpl.
  now rewrite (detectButtonGestures_Framed q t d).
Qed.

(** ** What a tick leaves alone *)

Lemma sameConfig_refl p : sameConfig p p.
Proof. now constructor. Qed.

Lemma sameConfig_trans p q r : sameConfig p q -> sameConfig q r -> sameConfig p r.
Proof. intros [] []. constructor; congruence. Qed.

Lemma checkLongPress_sameConfig p t d :
  sameConfig p (fst (checkLongPress p t d)).
Proof. unfold checkLongPress. split_ifs; now constructor. Qed.

Lemma checkClick_sameConfig p t d : sameConfig p (fst (checkClick p t d)).
Proof. unfold checkClick. split_ifs; now constructor. Qed.

Lemma checkSinglePressTimeout_sameConfig p t d :
  sameConfig p (fst (checkSinglePressTimeout p t d)).
Proof. unfold checkSinglePressTimeout. split_ifs; now constructor. Qed.

Lemma detectButtonGestures_keeps p t d :
  let q := fst (detectButtonGestures p t d) in
  sameConfig p q /\ sameSample p q.
Proof.
  unfold detectButtonGestures.
  destruct (negb (eventsEnabled p)); simpl; [now split; constructor|].
  pose proof (checkLongPress_sameConfig p t d) as C1.
  assert (S1 : sameSample p (fst (checkLongPress p t d)))
    by (unfold checkLongPress; split_ifs; now constructor).
  destruct (checkLongPress p t d) as [p1 d1]; simpl in *.
  pose proof (checkClick_sameConfig p1 t d1) as C2.
  assert (S2 : sameSample p1 (fst (checkClick p1 t d1)))
    by (unfold checkClick; split_ifs; now constructor).
  destruct (checkClick p1 t d1) as [p2 d2]; simpl in *.
  pose proof (checkSinglePressTimeout_sameConfig p2 t d2) as C3.
  assert (S3 : sameSample p2 (fst (checkSinglePressTimeout p2 t d2)))
    by (unfold checkSinglePressTimeout; split_ifs; now constructor).
  split.
  - eauto using sameConfig_trans.
  - destruct S1, S2, S3. constructor; congruence.
Qed.

Lemma debounce_fields p raw t d :
  let q := fst (debounce p raw t d) in
  sameConfig p q
  /\ lastClickTime q = lastClickTime p
  /\ longPressTriggered q = longPressTriggered p
  /\ lastState q = PinState_of_Level raw
  /\ lastDebounceTime q = (if toggled p raw then t else lastDebounceTime p)
  /\ currentState q
     = (if accepts p raw t then PinState_of_Level raw else currentState p)
  /\ pressStartTime q
     = (if pressAccepted p raw t then t else pressStartTime p)
  /\ clickCount q
     = (if pressAccepted p raw t then clickCount p + 1 else clickCount p).
Proof.
  unfold debounce, pressAccepted, accepts, toggled.
  destruct (negb (Level_to_int raw =? PinState_to_int (lastState p)));
    simpl;
    match goal with
    | |- context [?a <? ?b] => destruct (a <? b)
    end; simpl;
    destruct (negb (Level_to_int raw =? PinState_to_int (currentState p)));
    simpl;
    try (destruct (PinState_eqb (PinState_of_Level raw) PIN_LOW); simpl;
         destruct (PinState_eqb (currentState p) PIN_HIGH); simpl);
    repeat split; reflexivity.
Qed.

(** ** Edge events *)

Lemma raisedIn_trigger_after k e c k' n o e' t dl d :
  raisedIn k e (triggerCallback c k' n o e' t dl d)
  = (raisedIn k e d
     + if negb (is_null c) && (k' =? k)%Z && EventType_eqb e' e
       then 1 else 0)%nat.
Proof.
  now rewrite triggerCallback_frame, raisedIn_dappend, raisedIn_trigger.
Qed.

Arguments triggerCallback : simpl never.

Lemma triggerEdges_count p prev t k e :
  raisedIn k e (triggerEdges p prev t noDispatch)
  = if eventsEnabled p && (pin p =? k) && edgeDue p prev (currentState p) e
    then 1%nat else 0%nat.
Proof.
  unfold triggerEdges, edgeDue.
  destruct (eventsEnabled p); [|reflexivity]. simpl.
  destruct (onChangeCallback p), (onRisingCallback p), (onFallingCallback p),
    (currentState p), prev, (pin p =? k) eqn:K, e; simpl;
    rewrite ?raisedIn_trigger_after, ?raisedIn_noDispatch, ?K; reflexivity.
Qed.

Lemma debounce_count p raw t k e :
  raisedIn k e (snd (debounce p raw t noDispatch))
  = if accepts p raw t && eventsEnabled p && (pin p =? k)
       && edgeDue p (currentState p) (PinState_of_Level raw) e
    then 1%nat else 0%nat.
Proof.
  unfold debounce, accepts, toggled.
  destruct (negb (Level_to_int raw =? PinState_to_int (lastState p)));
    simpl;
    match goal with
    | |- context [?a <? ?b] => destruct (a <? b)
    end; simpl; try reflexivity;
    destruct (negb (Level_to_int raw =? PinState_to_int (currentState p)));
    simpl; try reflexivity;
    destruct (PinState_eqb (PinState_of_Level raw) PIN_LOW); simpl;
    destruct (PinState_eqb (currentState p) PIN_HIGH); simpl;
    rewrite triggerEdges_count; simpl;
    destruct (eventsEnabled p); simpl; try reflexivity;
    destruct e; reflexivity.
Qed.

Lemma PinState_of_Level_int raw :
  PinState_to_int (PinState_of_Level raw) = Level_to_int raw.
Proof. now destruct raw. Qed.

Lemma PinState_to_int_inj a b :
  PinState_to_int a = PinState_to_int b -> a = b.
Proof. destruct a, b; simpl; intro H; try reflexivity; discriminate. Qed.

(** The level changes in a tick exactly when the debouncer accepts. *)
Lemma pinNext_currentState p raw t :
  currentState (pinNext p raw t)
  = if accepts p raw t then PinState_of_Level raw else currentState p.
Proof.
  destruct (updatePin_split p raw t) as [-> _].
  destruct (detectButtonGestures_keeps (fst (debounce p raw t noDispatch)) t
              noDispatch) as [_ [-> _ _]].
  apply debounce_fields.
Qed.

Lemma accepts_changes p raw t :
  accepts p raw t = true <-> currentState (pinNext p raw t) <> currentState p.
Proof.
  rewrite pinNext_currentState.
  destruct (accepts p raw t) eqn:A.
  - split; [intros _ E|reflexivity]. unfold accepts in A.
    apply andb_prop in A as [_ A]. rewrite <- E, PinState_of_Level_int in A.
    now rewrite Z.eqb_refl in A.
  - split; [discriminate|]. intro N. now contradiction N.
Qed.

Lemma fired_update a rd t k p e :
  registry_ok a -> findPin a k = Some p ->
  fired a (update a rd t) k e = raisedIn k e (pinRaised p (rd k) t).
Proof.
  intros ND F. unfold fired.
  destruct (update_pin_view a rd t k p ND F) as (_ & _ & R).
  rewrite R. lia.
Qed.

Lemma readPin_update a rd t k p :
  registry_ok a -> findPin a k = Some p ->
  readPin a k = currentState p
  /\ readPin (update a rd t) k = currentState (pinNext p (rd k) t).
Proof.
  intros ND F. unfold readPin.
  destruct (update_pin_view a rd t k p ND F) as (_ & -> & _).
  now rewrite F.
Qed.

(** C8.  On a tick in which the debounced level of a registered pin
    changes from [old] to [new]: CHANGE is raised (once) exactly when a
    change callback is registered and events are enabled; RISING exactly
    when moreover [old] is LOW and [new] is HIGH and a rising callback is
    registered; FALLING exactly when [old] is HIGH and [new] is LOW and a
    falling callback is registered; and never both RISING and FALLING. *)
Theorem edge_events_on_transition
    (a : AvantDigitalRead) (rd : Z -> Level) (t k : Z) (p : PinInfo) :
  registry_ok a -> findPin a k = Some p ->
  let a' := update a rd t in
  let old := readPin a k in
  let new := readPin a' k in
  new <> old ->
  fired a a' k EVENT_CHANGE
  = (if eventsEnabled p && negb (is_null (onChangeCallback p))
     then 1%nat else 0%nat)
  /\ fired a a' k EVENT_RISING
     = (if eventsEnabled p && negb (is_null (onRisingCallback p))
           && PinState_eqb old PIN_LOW && PinState_eqb new PIN_HIGH
        then 1%nat else 0%nat)
  /\ fired a a' k EVENT_FALLING
     = (if eventsEnabled p && negb (is_null (onFallingCallback p))
           && PinState_eqb old PIN_HIGH && PinState_eqb new PIN_LOW
        then 1%nat else 0%nat)
  /\ (fired a a' k EVENT_RISING + fired a a' k EVENT_FALLING <= 1)%nat.
Proof.
  intros ND F a' old new Hne.
  destruct (readPin_update a rd t k p ND F) as [Eo En].
  fold old in Eo. fold a' new in En.
  assert (A : accepts p (rd k) t = true).
  { apply accepts_changes. congruence. }
  assert (Enew : new = PinState_of_Level (rd k)).
  { rewrite En, pinNext_currentState. now rewrite A. }
  assert (Cnt : forall e, isEdge e = true ->
            fired a a' k e
            = if eventsEnabled p && edgeDue p old new e then 1%nat else 0%nat).
  { intros e He. unfold a'. rewrite (fired_update a rd t k p e ND F).
    destruct (updatePin_split p (rd k) t) as [_ ->].
    rewrite raisedIn_dappend, detectButtonGestures_no_edges by exact He.
    rewrite debounce_count, A, (findPinIn_Some_pin _ _ _ F), Z.eqb_refl.
    rewrite Eo, Enew. simpl. rewrite andb_true_r. lia. }
  rewrite !Cnt by reflexivity. unfold edgeDue.
  destruct (eventsEnabled p), (onChangeCallback p), (onRisingCallback p),
    (onFallingCallback p), old, new; simpl; repeat split; lia.
Qed.



Lemma edge_events_on_transition_witness :
  let a' := update risingSetup (fun _ => HIGH) 200 in
  fired risingSetup a' 4 EVENT_CHANGE = 1%nat
  /\ fired risingSetup a' 4 EVENT_RISING = 1%nat
  /\ fired risingSetup a' 4 EVENT_FALLING = 0%nat
  /\ (fired risingSetup a' 4 EVENT_RISING
      + fired risingSetup a' 4 EVENT_FALLING <= 1)%nat.
Proof.
  assert (H1 : registry_ok risingSetup).
  { unfold registry_ok. vm_compute.
    repeat constructor; simpl; intuition discriminate. }
  assert (H2 : findPin risingSetup 4 = Some (recordOf risingSetup 4))
    by (vm_compute; reflexivity).
  assert (H3 : readPin (update risingSetup (fun _ => HIGH) 200) 4
               <> readPin risingSetup 4)
    by (vm_compute; discriminate).
  pose proof (edge_events_on_transition risingSetup (fun _ => HIGH) 200 4
                (recordOf risingSetup 4) H1 H2 H3) as H.
  vm_compute in H. vm_compute. exact H.
Defined.

(** ** Runs of ticks seen through [readPin] *)

Lemma readings_levels a k p ticks :
  registry_ok a -> findPin a k = Some p ->
  readings a k ticks = levels p (ticksOf k ticks).
Proof.
  revert a p; induction ticks as [|[t rd] ticks IH]; intros a p ND F; simpl;
    [reflexivity|].
  destruct (update_pin_view a rd t k p ND F) as (ND1 & F1 & _).
  rewrite (IH _ _ ND1 F1). unfold readPin. now rewrite F1.
Qed.

Lemma runPin_pinNext p t raw rest :
  runPin p ((t, raw) :: rest) noDispatch
  = (fst (runPin (pinNext p raw t) rest noDispatch),
     dappend (pinRaised p raw t)
       (snd (runPin (pinNext p raw t) rest noDispatch))).
Proof.
  simpl. rewrite updatePin_frame, dappend_nil_l. apply runPin_frame.
Qed.

(** ** Debouncing *)

Lemma pinNext_sample p raw t :
  let q := pinNext p raw t in
  debounceTime q = debounceTime p
  /\ lastState q = PinState_of_Level raw
  /\ lastDebounceTime q = (if toggled p raw then t else lastDebounceTime p)
  /\ currentState q
     = (if accepts p raw t then PinState_of_Level raw else currentState p).
Proof.
  destruct (updatePin_split p raw t) as [E _]. simpl. rewrite E.
  destruct (detectButtonGestures_keeps (fst (debounce p raw t noDispatch)) t
              noDispatch) as [C [S1 S2 S3]].
  destruct (debounce_fields p raw t noDispatch)
    as (C0 & _ & _ & L & D & Cur & _).
  rewrite (sc_debounceTime _ _ C), (sc_debounceTime _ _ C0), S1, S2, S3.
  auto.
Qed.

Lemma usub_same t : usub t t = 0.
Proof. unfold usub. now rewrite Z.sub_diag. Qed.

Lemma bouncing_no_transition p lastToggle ticks :
  match lastToggle with
  | None => lastState p = currentState p
  | Some t0 => lastDebounceTime p = t0
  end ->
  bouncing (debounceTime p) (lastState p) lastToggle ticks ->
  transitions (currentState p) (levels p ticks) = 0%nat.
Proof.
  revert p lastToggle; induction ticks as [|[t raw] ticks IH];
    intros p lastToggle Inv B; simpl; [reflexivity|].
  simpl in B. destruct B as [Hwin B].
  destruct (pinNext_sample p raw t) as (Edt & Els & Eld & Ecur).
  assert (A : accepts p raw t = false).
  { unfold accepts, toggled in *.
    destruct (negb (Level_to_int raw =? PinState_to_int (lastState p)))
      eqn:Tg.
    - rewrite usub_same in *.
      destruct (Z.ltb_spec (debounceTime p) 0); [lia|reflexivity].
    - destruct lastToggle as [t0|].
      + subst t0.
        destruct (Z.ltb_spec (debounceTime p) (usub t (lastDebounceTime p)));
          [lia|reflexivity].
      + rewrite <- Inv, Tg. apply andb_false_r. }
  rewrite A in Ecur. rewrite Ecur.
  assert (PinState_eqb (currentState p) (currentState p) = true) as ->
    by apply Z.eqb_refl.
  rewrite <- Ecur. apply (IH _ (if negb (Level_to_int raw
                                         =? PinState_to_int (lastState p))
                                then Some t else lastToggle)).
  - unfold toggled in Eld.
    destruct (negb (Level_to_int raw =? PinState_to_int (lastState p)))
      eqn:Tg; [exact Eld|].
    destruct lastToggle as [t0|]; [congruence|].
    rewrite Els, Ecur, <- Inv.
    apply negb_false_iff, Z.eqb_eq in Tg.
    apply PinState_to_int_inj. now rewrite PinState_of_Level_int.
  - now rewrite Edt, Els.
Qed.

Lemma differs_int raw c :
  negb (Level_to_int raw =? PinState_to_int c) = true
  <-> PinState_of_Level raw <> c.
Proof.
  rewrite negb_true_iff, Z.eqb_neq, <- PinState_of_Level_int.
  split; intros N E; apply N; [now subst|now apply PinState_to_int_inj].
Qed.

Lemma PinState_eqb_eq a b : PinState_eqb a b = true <-> a = b.
Proof.
  unfold PinState_eqb. rewrite Z.eqb_eq.
  split; [apply PinState_to_int_inj|now intros ->].
Qed.

Lemma PinState_eqb_refl a : PinState_eqb a a = true.
Proof. now apply PinState_eqb_eq. Qed.

Lemma PinState_eqb_neq a b : PinState_eqb a b = false <-> a <> b.
Proof.
  rewrite <- PinState_eqb_eq. destruct (PinState_eqb a b); split;
    congruence.
Qed.

Lemma settled_no_transition p raw ts :
  currentState p = PinState_of_Level raw ->
  transitions (currentState p) (levels p (map (fun t => (t, raw)) ts)) = 0%nat.
Proof.
  revert p; induction ts as [|t ts IH]; intros p Hc; simpl; [reflexivity|].
  destruct (pinNext_sample p raw t) as (_ & _ & _ & Ecur).
  assert (E : currentState (pinNext p raw t) = currentState p).
  { rewrite Ecur, Hc. now destruct (accepts p raw t). }
  rewrite E, PinState_eqb_refl. rewrite <- E. apply IH. congruence.
Qed.

Lemma stableTicks_map T raw es :
  stableTicks T raw es
  = map (fun t => (t, raw)) (map (fun e => (T + e) mod ULONG_RANGE) es).
Proof. unfold stableTicks. now rewrite map_map. Qed.

Lemma pending_one_transition p raw T lo es :
  lastState p = PinState_of_Level raw ->
  lastDebounceTime p = T ->
  PinState_of_Level raw <> currentState p ->
  0 <= lo <= debounceTime p ->
  debounceTime p + 1 < ULONG_RANGE ->
  climbsTo lo es (debounceTime p + 1) ->
  transitions (currentState p) (levels p (stableTicks T raw es)) = 1%nat.
Proof.
  revert p lo; induction es as [|e es IH]; intros p lo Hl Hd Hc Hlo Hmax Hes;
    simpl in *; [lia|].
  destruct Hes as [He Hes].
  destruct (pinNext_sample p raw ((T + e) mod ULONG_RANGE))
    as (Edt & Els & Eld & Ecur).
  assert (Tg : toggled p raw = false).
  { unfold toggled. rewrite Hl, PinState_of_Level_int.
    now rewrite Z.eqb_refl. }
  rewrite Tg in Eld.
  unfold accepts in Ecur. rewrite Tg, Hd in Ecur.
  rewrite usub_elapsed in Ecur by lia.
  apply differs_int in Hc as Hc'. rewrite Hc', andb_true_r in Ecur.
  destruct (Z.ltb_spec (debounceTime p) e).
  - rewrite Ecur.
    assert (PinState_eqb (PinState_of_Level raw) (currentState p) = false)
      as -> by now apply PinState_eqb_neq.
    rewrite <- Ecur, stableTicks_map, settled_no_transition;
      [reflexivity|exact Ecur].
  - rewrite Ecur, PinState_eqb_refl. rewrite <- Ecur. simpl.
    apply (IH _ e); rewrite ?Edt; try congruence; try lia; assumption.
Qed.

Lemma toggle_then_held p raw T es :
  toggled p raw = true ->
  PinState_of_Level raw <> currentState p ->
  0 <= debounceTime p -> debounceTime p + 1 < ULONG_RANGE ->
  climbsTo 0 es (debounceTime p + 1) ->
  transitions (currentState p)
    (levels p ((T, raw) :: stableTicks T raw es)) = 1%nat.
Proof.
  intros Tg Hc Hdt Hmax Hes. simpl.
  destruct (pinNext_sample p raw T) as (Edt & Els & Eld & Ecur).
  rewrite Tg in Eld. unfold accepts in Ecur. rewrite Tg, usub_same in Ecur.
  destruct (Z.ltb_spec (debounceTime p) 0); [lia|]. simpl in Ecur.
  rewrite Ecur, PinState_eqb_refl. rewrite <- Ecur. simpl.
  apply (pending_one_transition _ raw T 0); rewrite ?Edt; try congruence;
    try lia; assumption.
Qed.

(** C3, as amended.  For a registered pin: (1) while the raw signal
    toggles faster than the debounce time -- every sample at most
    [debounceTime] after the latest toggle, which at the start is the one
    recorded in [lastDebounceTime] if the last sample differs from the
    debounced level and none otherwise -- the debounced level never
    changes; (2) when
    a sample at time [T] toggles to a level other than the debounced one
    and the signal then holds that level for exactly [debounceTime + 1] ms
    (samples at any non-decreasing elapsed times ending at
    [debounceTime + 1], one per millisecond being the case
    [1, 2, ..., debounceTime + 1]) the debounced level changes exactly
    once over these ticks; (3) while the signal holds the debounced level
    itself, as after a bounce back to it, the debounced level does not
    change, however long it is held. *)
Theorem debounce_transitions
    (a : AvantDigitalRead) (k : Z) (p : PinInfo) (ticks : list Tick) :
  registry_ok a -> findPin a k = Some p ->
  (bouncing (debounceTime p) (lastState p)
     (if PinState_eqb (lastState p) (currentState p) then None
      else Some (lastDebounceTime p))
     (ticksOf k ticks) ->
   transitions (readPin a k) (readings a k ticks) = 0%nat)
  /\ (forall T raw es,
        ticksOf k ticks = (T, raw) :: stableTicks T raw es ->
        toggled p raw = true ->
        PinState_of_Level raw <> currentState p ->
        0 <= debounceTime p -> debounceTime p + 1 < ULONG_RANGE ->
        climbsTo 0 es (debounceTime p + 1) ->
        transitions (readPin a k) (readings a k ticks) = 1%nat)
  /\ (forall raw ts,
        ticksOf k ticks = map (fun t => (t, raw)) ts ->
        PinState_of_Level raw = currentState p ->
        transitions (readPin a k) (readings a k ticks) = 0%nat).
Proof.
  intros ND F.
  rewrite (readings_levels a k p ticks ND F).
  assert (readPin a k = currentState p) as ->
    by (unfold readPin; now rewrite F).
  split; [|split].
  - intros B. eapply bouncing_no_transition; [|exact B].
    destruct (PinState_eqb (lastState p) (currentState p)) eqn:E;
      [now apply PinState_eqb_eq|reflexivity].
  - intros T raw es -> Tg Hc H0 Hmax Hes. now apply toggle_then_held.
  - intros raw ts -> Hc. now apply settled_no_transition.
Qed.

(** Deciding a closed proposition by evaluation. *)
Ltac by_evaluation :=
  vm_compute;
  repeat match goal with
         | |- _ /\ _ => split
         | |- _ = _ => reflexivity
         | |- True => exact I
         | |- _ -> False => let H := fresh in intro H; discriminate H
         end.

Lemma onePin_ok : registry_ok onePin.
Proof. unfold registry_ok. by_evaluation. repeat constructor. intros []. Qed.

Lemma debounce_transitions_witness :
  transitions (readPin onePin 2)
    (readings onePin 2
       (allRead [(100, LOW); (130, HIGH); (170, LOW); (200, LOW); (220, LOW)]))
  = 0%nat
  /\ transitions (readPin onePin 2)
       (readings onePin 2
          (allRead ((1000, LOW)
                    :: stableTicks 1000 LOW (map Z.of_nat (seq 1 51)))))
     = 1%nat
  /\ transitions (readPin onePin 2)
       (readings onePin 2 (allRead [(2000, HIGH); (2100, HIGH)]))
     = 0%nat.
Proof.
  assert (F : findPin onePin 2 = Some (recordOf onePin 2))
    by (vm_compute; reflexivity).
  split; [|split].
  - destruct (debounce_transitions onePin 2 (recordOf onePin 2)
                (allRead [(100, LOW); (130, HIGH); (170, LOW); (200, LOW);
                          (220, LOW)]) onePin_ok F) as (H & _ & _).
    apply H; by_evaluation.
  - destruct (debounce_transitions onePin 2 (recordOf onePin 2)
                (allRead ((1000, LOW)
                          :: stableTicks 1000 LOW (map Z.of_nat (seq 1 51))))
                onePin_ok F) as (_ & H & _).
    apply (H 1000 LOW (map Z.of_nat (seq 1 51))); by_evaluation.
  - destruct (debounce_transitions onePin 2 (recordOf onePin 2)
                (allRead [(2000, HIGH); (2100, HIGH)]) onePin_ok F)
      as (_ & _ & H).
    apply (H HIGH [2000; 2100]); by_evaluation.
Defined.

(** C3 as stated fails: pin 2 is HIGH and settled; the raw signal
    toggles to LOW at 1000 ms and back to HIGH at 1010 ms, its last
    toggle, and is then held for 51 ms, sampled every millisecond: the
    debounced level never changes, where the claim has exactly one
    accepted transition. *)
Lemma bounce_back_counterexample :
  let ticks :=
    allRead ((1000, LOW) :: (1010, HIGH)
             :: stableTicks 1010 HIGH (map Z.of_nat (seq 1 51))) in
  readPin onePin 2 = PIN_HIGH
  /\ getDebounceTime onePin 2 = 50
  /\ length ticks = 53%nat
  /\ transitions (readPin onePin 2) (readings onePin 2 ticks) = 0%nat.
Proof. by_evaluation. Qed.

(** ** The gate [eventsEnabled] *)

Lemma pinRaised_disabled p raw t :
  eventsEnabled p = false -> pinRaised p raw t = noDispatch.
Proof.
  intro En. destruct (updatePin_split p raw t) as [_ ->].
  destruct (debounce_fields p raw t noDispatch) as (C & _).
  rewrite detectButtonGestures_disabled
    by now rewrite (sc_eventsEnabled _ _ C).
  simpl. rewrite dappend_nil_r.
  unfold debounce. split_ifs; simpl; try reflexivity;
    unfold triggerEdges; simpl; now rewrite En.
Qed.

Lemma OnlyPin_filter k k' d :
  OnlyPin k' d -> k' <> k ->
  filter (iv_for k) (invoked d) = []
  /\ filter (dc_for k) (delayedCallbacks d) = [].
Proof.
  intros [Hi Hd] N. split.
  - induction Hi as [|i l Hx _ IH]; simpl; [reflexivity|].
    unfold iv_for at 1. rewrite Hx.
    destruct (Z.eqb_spec k' k); [contradiction|exact IH].
  - induction Hd as [|c l Hx _ IH]; simpl; [reflexivity|].
    unfold dc_for at 1. rewrite Hx.
    destruct (Z.eqb_spec k' k); [contradiction|exact IH].
Qed.

Lemma pinsRaised_silent l rd t k :
  (forall p, In p l -> pin p = k -> eventsEnabled p = false) ->
  filter (iv_for k) (invoked (pinsRaised l rd t)) = []
  /\ filter (dc_for k) (delayedCallbacks (pinsRaised l rd t)) = [].
Proof.
  induction l as [|q l IH]; intro H; simpl; [now split|].
  destruct IH as [I1 I2]; [intros p Hp; apply H; now right|].
  rewrite !filter_app, I1, I2, !app_nil_r.
  destruct (Z.eq_dec (pin q) k) as [E|N].
  - rewrite pinRaised_disabled; [now split|]. apply H; [now left|exact E].
  - now apply (OnlyPin_filter k (pin q)); [apply pinRaised_OnlyPin|].
Qed.

Lemma NoDup_pin_unique l k p q :
  NoDup (map pin l) -> findPinIn l k = Some p ->
  In q l -> pin q = k -> q = p.
Proof.
  induction l as [|x l IH]; simpl; [discriminate|].
  intros ND F Hq Ek. inversion ND as [|? ? Hnot ND']; subst.
  destruct (Z.eqb_spec (pin x) (pin q)) as [E|N].
  - injection F as <-. destruct Hq as [->|Hq]; [reflexivity|].
    contradiction Hnot. rewrite E. now apply in_map.
  - destruct Hq as [->|Hq]; [now contradiction N|]. now apply IH.
Qed.

Lemma filter_filter_comm {A} (f g : A -> bool) (l : list A) :
  filter f (filter g l) = filter (fun x => f x && g x) l.
Proof.
  induction l as [|x l IH]; simpl; [reflexivity|].
  destruct (g x), (f x) eqn:Fx; simpl; rewrite ?Fx, IH; reflexivity.
Qed.

Lemma filter_nil_weaken {A} (f h : A -> bool) (l : list A) :
  filter f l = [] -> (forall x, h x = true -> f x = true) ->
  filter h l = [].
Proof.
  intros E Hh. induction l as [|x l IH]; simpl in *; [reflexivity|].
  destruct (f x) eqn:Fx; [discriminate|].
  destruct (h x) eqn:Hx; [apply Hh in Hx; congruence|now apply IH].
Qed.

(** C2, as amended.  On a tick in which a registered pin has
    [eventsEnabled] false, the pin raises no event of any kind, neither
    called nor queued; the only callbacks called for it are those queued
    at earlier ticks whose delay has now elapsed, drained as for any
    other pin; and the debouncer runs as it does with events enabled:
    the last sample, the debounce timer and the debounced level after the
    tick are those of the same record with the gate open. *)
Theorem disabled_pin_tick
    (a : AvantDigitalRead) (rd : Z -> Level) (t k : Z) (p : PinInfo) :
  registry_ok a -> findPin a k = Some p -> eventsEnabled p = false ->
  let a' := update a rd t in
  (forall e, raisedIn k e (dispatch a') = raisedIn k e (dispatch a))
  /\ filter (iv_for k) (invoked (dispatch a'))
     = filter (iv_for k) (invoked (dispatch a))
       ++ map (fire t)
            (filter (fun c => dc_for k c && isReady t c)
               (delayedCallbacks (dispatch a)))
  /\ filter (dc_for k) (delayedCallbacks (dispatch a'))
     = filter (fun c => dc_for k c && negb (isReady t c))
         (delayedCallbacks (dispatch a))
  /\ exists p',
      findPin a' k = Some p'
      /\ eventsEnabled p' = false
      /\ sameSample (pinNext (set_eventsEnabled true p) (rd k) t) p'
      /\ readPin a' k
         = (if accepts p (rd k) t then PinState_of_Level (rd k)
            else currentState p).
Proof.
  intros ND F En a'.
  destruct (update_pin_view a rd t k p ND F) as (_ & F' & R).
  destruct (pinsRaised_silent (pinList a) rd t k) as [S1 S2].
  { intros q Hq Ek. now rewrite (NoDup_pin_unique _ _ _ _ ND F Hq Ek). }
  split; [|split; [|split]].
  - intro e. unfold a'. rewrite R, pinRaised_disabled by exact En.
    rewrite raisedIn_noDispatch. lia.
  - unfold a', update. rewrite updatePins_frame.
    unfold processDelayedCallbacks. rewrite scanDelayed_filter. simpl.
    rewrite !filter_app, S1, app_nil_r, filter_map_comm, filter_app.
    rewrite !filter_filter_comm.
    rewrite (filter_nil_weaken (dc_for k) _
               (delayedCallbacks (pinsRaised _ _ _)) S2), app_nil_r;
      [reflexivity|].
    intros c Hc. now apply andb_prop in Hc.
  - unfold a', update. rewrite updatePins_frame.
    unfold processDelayedCallbacks. rewrite scanDelayed_filter. simpl.
    rewrite !filter_app, !filter_filter_comm.
    rewrite (filter_nil_weaken (dc_for k) _
               (delayedCallbacks (pinsRaised _ _ _)) S2), app_nil_r;
      [reflexivity|].
    intros c Hc. now apply andb_prop in Hc.
  - exists (pinNext p (rd k) t). unfold a'. split; [exact F'|].
    destruct (updatePin_split p (rd k) t) as [E _].
    destruct (debounce_fields p (rd k) t noDispatch) as (C & _).
    split.
    + rewrite E, detectButtonGestures_disabled
        by now rewrite (sc_eventsEnabled _ _ C).
      simpl. now rewrite (sc_eventsEnabled _ _ C).
    + split.
      * destruct (pinNext_sample p (rd k) t) as (_ & L1 & D1 & C1).
        destruct (pinNext_sample (set_eventsEnabled true p) (rd k) t)
          as (_ & L2 & D2 & C2).
        constructor; [rewrite C1, C2|rewrite L1, L2|rewrite D1, D2];
          reflexivity.
      * unfold readPin. rewrite F'. apply pinNext_sample.
Qed.

Lemma disabledSetup_ok : registry_ok disabledSetup.
Proof. unfold registry_ok. by_evaluation. repeat constructor. intros []. Qed.

Lemma disabled_pin_tick_witness :
  let a' := update disabledSetup (fun _ => HIGH) 1200 in
  (forall e, raisedIn 2 e (dispatch a') = raisedIn 2 e (dispatch disabledSetup))
  /\ filter (iv_for 2) (invoked (dispatch a'))
     = [mkInvocation 1%nat 2 PIN_LOW PIN_HIGH EVENT_CHANGE 1200]
  /\ readPin a' 2 = PIN_LOW.
Proof.
  assert (F : findPin disabledSetup 2 = Some (recordOf disabledSetup 2))
    by (vm_compute; reflexivity).
  assert (En : eventsEnabled (recordOf disabledSetup 2) = false)
    by (vm_compute; reflexivity).
  destruct (disabled_pin_tick disabledSetup (fun _ => HIGH) 1200 2
              (recordOf disabledSetup 2) disabledSetup_ok F En)
    as (H1 & H2 & _ & _).
  split; [exact H1|]. split; [|vm_compute; reflexivity].
  vm_compute in H2. vm_compute. exact H2.
Defined.

(** C2 as stated fails: the events of pin 2 are disabled and no callback
    has been called yet, but the tick at 1200 ms calls the change callback
    for pin 2 -- the call queued at 1060 ms falls due, and the drain does
    not look at [eventsEnabled]. *)
Lemma deferred_call_on_disabled_pin_counterexample :
  findPin disabledSetup 2 = Some (recordOf disabledSetup 2)
  /\ eventsEnabled (recordOf disabledSetup 2) = false
  /\ invoked (dispatch disabledSetup) = []
  /\ invoked (dispatch (update disabledSetup (fun _ => HIGH) 1200))
     = [mkInvocation 1%nat 2 PIN_LOW PIN_HIGH EVENT_CHANGE 1200].
Proof. by_evaluation. Qed.

(** ** Long press *)

(** The gesture blocks on a pin at the pressed level: only the long-press
    block acts. *)
Lemma gestures_pressed q t :
  eventsEnabled q = true -> currentState q = PIN_LOW ->
  is_null (onLongPressCallback q) = false ->
  let fires :=
    (pressDurationMs q <=? usub t (pressStartTime q))
    && (repeatLongPress q || negb (longPressTriggered q)) in
  detectButtonGestures q t noDispatch
  = (if fires then set_longPressTriggered true q else q,
     if fires then
       triggerCallback (onLongPressCallback q) (pin q) PIN_LOW PIN_LOW
         EVENT_LONG_PRESS t (onLongPressDelay q) noDispatch
     else noDispatch).
Proof.
  intros En Hc Hcb fires. subst fires.
  unfold detectButtonGestures, checkLongPress. rewrite En, Hc, Hcb. simpl.
  destruct (pressDurationMs q <=? usub t (pressStartTime q)); simpl;
    [destruct (repeatLongPress q || negb (longPressTriggered q)); simpl|];
    unfold checkClick, checkSinglePressTimeout; simpl;
    repeat (rewrite Hc; simpl); reflexivity.
Qed.


(** One tick that leaves the pin at the pressed level. *)
Lemma pressed_tick p raw t :
  eventsEnabled p = true -> is_null (onLongPressCallback p) = false ->
  currentState (pinNext p raw t) = PIN_LOW ->
  let p' := pinNext p raw t in
  let s := if pressAccepted p raw t then t else pressStartTime p in
  let due := longPressDue (pressDurationMs p) s t in
  sameConfig p p'
  /\ pressStartTime p' = s
  /\ clickCount p'
     = (if pressAccepted p raw t then clickCount p + 1 else clickCount p)
  /\ lastClickTime p' = lastClickTime p
  /\ longPressTriggered p' = longPressTriggered p || due
  /\ forall e,
      raisedIn (pin p) e (pinRaised p raw t)
      = (raisedIn (pin p) e (snd (debounce p raw t noDispatch))
         + if EventType_eqb EVENT_LONG_PRESS e
              && due && (repeatLongPress p || negb (longPressTriggered p))
           then 1 else 0)%nat.
Proof.
  intros En Hcb Hlow p' s due.
  destruct (updatePin_split p raw t) as [E1 E2].
  destruct (debounce_fields p raw t noDispatch)
    as (C & Hlc & Hlt & _ & _ & Hcur & Hps & Hcc).
  set (q := fst (debounce p raw t noDispatch)) in *.
  assert (Hq : currentState q = PIN_LOW).
  { destruct (detectButtonGestures_keeps q t noDispatch) as [_ [S _ _]].
    rewrite <- S, <- E1. exact Hlow. }
  assert (G := gestures_pressed q t).
  rewrite (sc_eventsEnabled _ _ C), (sc_onLongPress _ _ C),
    (sc_pressDurationMs _ _ C), (sc_repeatLongPress _ _ C),
    (sc_onLongPressDelay _ _ C), (sc_pin _ _ C), Hps, Hlt in G.
  specialize (G En Hq Hcb). cbv zeta in G.
  fold s in G. unfold longPressDue in due. fold due in G.
  unfold p'. rewrite E1, E2, G. simpl.
  destruct due eqn:D; simpl;
    [destruct (repeatLongPress p || negb (longPressTriggered p)) eqn:RL;
     simpl|].
  - repeat split; try (apply C); try assumption.
    + now rewrite orb_true_r.
    + intro e. rewrite raisedIn_dappend, raisedIn_trigger, Hcb, Z.eqb_refl.
      simpl. now rewrite !andb_true_r.
  - repeat split; try (apply C); try assumption.
    + rewrite orb_true_r, Hlt.
      apply orb_false_iff in RL as [_ RL]. now apply negb_false_iff in RL.
    + intro e. rewrite dappend_nil_r, !andb_false_r. lia.
  - repeat split; try (apply C); try assumption.
    + now rewrite orb_false_r.
    + intro e. rewrite dappend_nil_r, andb_false_r. simpl. lia.
Qed.

Lemma pressAccepted_from_low p raw t :
  currentState p = PIN_LOW -> pressAccepted p raw t = false.
Proof. intro H. unfold pressAccepted. rewrite H. apply andb_false_r. Qed.

(** A run of ticks in which the pin, already at the pressed level, stays
    there. *)
Lemma hold_run p ticks :
  eventsEnabled p = true -> is_null (onLongPressCallback p) = false ->
  currentState p = PIN_LOW ->
  Forall (eq PIN_LOW) (levels p ticks) ->
  let s := pressStartTime p in
  let due := longPressDue (pressDurationMs p) s in
  let pf := fst (runPin p ticks noDispatch) in
  sameConfig p pf
  /\ currentState pf = PIN_LOW
  /\ pressStartTime pf = s
  /\ clickCount pf = clickCount p
  /\ longPressTriggered pf
     = longPressTriggered p || existsb due (map fst ticks)
  /\ raisedIn (pin p) EVENT_LONG_PRESS (snd (runPin p ticks noDispatch))
     = if repeatLongPress p then length (filter due (map fst ticks))
       else if longPressTriggered p then 0%nat
       else if existsb due (map fst ticks) then 1%nat else 0%nat.
Proof.
  revert p; induction ticks as [|[t raw] ticks IH];
    intros p En Hcb Hlow Hall s due pf.
  - subst pf; simpl. repeat split; auto using sameConfig_refl.
    + now rewrite orb_false_r.
    + now destruct (repeatLongPress p), (longPressTriggered p).
  - simpl in Hall. inversion Hall as [|? ? Hl1 Hall']; subst.
    symmetry in Hl1.
    destruct (pressed_tick p raw t En Hcb Hl1)
      as (C & Hps & Hcc & _ & Hlt & Hr).
    rewrite (pressAccepted_from_low p raw t Hlow) in Hps, Hcc, Hlt, Hr.
    fold s in Hps, Hlt, Hr.
    specialize (Hr EVENT_LONG_PRESS).
    rewrite debounce_no_gestures in Hr by reflexivity. simpl in Hr.
    assert (En' : eventsEnabled (pinNext p raw t) = true)
      by now rewrite (sc_eventsEnabled _ _ C).
    assert (Hcb' : is_null (onLongPressCallback (pinNext p raw t)) = false)
      by now rewrite (sc_onLongPress _ _ C).
    destruct (IH _ En' Hcb' Hl1 Hall')
      as (C2 & Hlow2 & Hps2 & Hcc2 & Hlt2 & Hr2).
    rewrite (sc_pin _ _ C), (sc_pressDurationMs _ _ C),
      (sc_repeatLongPress _ _ C), Hps, Hlt in *.
    subst pf. rewrite runPin_pinNext. simpl fst. simpl snd.
    rewrite raisedIn_dappend, Hr, Hr2.
    fold due. simpl map. simpl existsb. simpl filter.
    split; [eauto using sameConfig_trans|].
    split; [exact Hlow2|]. split; [exact Hps2|].
    split; [congruence|]. split; [now rewrite Hlt2, orb_assoc|].
    destruct (repeatLongPress p), (longPressTriggered p), (due t); simpl;
      try reflexivity; lia.
Qed.


Lemma map_fst_ticksOf k ticks : map fst (ticksOf k ticks) = map fst ticks.
Proof. unfold ticksOf. rewrite map_map. now apply map_ext. Qed.

Lemma fired_run a ticks k p e :
  registry_ok a -> findPin a k = Some p ->
  fired a (run a ticks) k e
  = raisedIn k e (snd (runPin p (ticksOf k ticks) noDispatch)).
Proof.
  intros ND F. unfold fired.
  destruct (run_pin_view a ticks k p ND F) as (_ & _ & R). rewrite R. lia.
Qed.



(** The same for [Forall] over a closed list, one element at a time (the
    predicate itself is not evaluated). *)
Ltac forall_by_evaluation :=
  match goal with
  | |- Forall ?P ?l =>
      let l' := eval vm_compute in l in change (Forall P l')
  end;
  repeat (apply Forall_cons; [by_evaluation|]); apply Forall_nil.

(** Discharging the closed hypotheses of a theorem applied to a concrete
    run. *)
Ltac closed_hypothesis :=
  match goal with
  | |- Forall _ _ => forall_by_evaluation
  | |- _ = _ => vm_compute; reflexivity
  | |- _ < _ => vm_compute; reflexivity
  | |- _ <= _ => vm_compute; let H := fresh in intro H; discriminate H
  | |- _ <> _ => vm_compute; let H := fresh in intro H; discriminate H
  | |- _ => idtac
  end.

Ltac registry_by_evaluation :=
  unfold registry_ok; vm_compute;
  repeat (constructor; [simpl; intuition discriminate|]); constructor.



(** ** A pin registered while pressed *)

Lemma findPinIn_app_new l k x :
  findPinIn l k = None -> pin x = k -> findPinIn (l ++ [x]) k = Some x.
Proof.
  intros F E. induction l as [|q l IH]; simpl in *.
  - now rewrite E, Z.eqb_refl.
  - destruct (pin q =? k); [discriminate|now apply IH].
Qed.

Lemma addPin_new a k m r :
  findPin a k = None ->
  findPin (snd (addPin a k m r)) k = Some (newPin k m r).
Proof.
  intro F. unfold addPin. rewrite F. simpl.
  now apply findPinIn_app_new.
Qed.

Lemma findPinIn_storePin l k f p :
  findPinIn l k = Some p -> pin (f p) = pin p ->
  findPinIn (storePin l k f) k = Some (f p).
Proof.
  intros F E. induction l as [|q l IH]; simpl in *; [discriminate|].
  destruct (pin q =? k) eqn:Q; simpl.
  - injection F as ->. now rewrite E, Q.
  - rewrite Q. now apply IH.
Qed.

Lemma onLongPress_registered a k p c dl du r :
  findPin a k = Some p ->
  findPin (snd (onLongPress a k c dl du r)) k
  = Some (set_repeatLongPress r
            (set_pressDurationMs du
               (set_onLongPressDelay dl (set_onLongPressCallback c p)))).
Proof.
  intro F. unfold onLongPress, withPin. rewrite F. unfold findPin. simpl.
  now apply (findPinIn_storePin (pinList a) k
               (fun p => set_repeatLongPress r
                           (set_pressDurationMs du
                              (set_onLongPressDelay dl
                                 (set_onLongPressCallback c p)))) p).
Qed.

Lemma levels_transitions_const c p ticks :
  currentState p = c -> Forall (eq c) (levels p ticks) ->
  transitions (currentState p) (levels p ticks) = 0%nat.
Proof.
  intros <-. generalize (levels p ticks). generalize (currentState p).
  intros c l H. induction H as [|x l <- _ IH]; simpl; [reflexivity|].
  now rewrite PinState_eqb_refl.
Qed.

Lemma not_due_yet dur s ts :
  Forall (fun t => usub t s < dur) ts ->
  existsb (longPressDue dur s) ts = false
  /\ filter (longPressDue dur s) ts = [].
Proof.
  induction 1 as [|t ts Ht _ [IH1 IH2]]; simpl; [now split|].
  unfold longPressDue at 1 3.
  destruct (Z.leb_spec dur (usub t s)); [lia|now split].
Qed.

Lemma runPin_app p l1 l2 :
  runPin p (l1 ++ l2) noDispatch
  = (fst (runPin (fst (runPin p l1 noDispatch)) l2 noDispatch),
     dappend (snd (runPin p l1 noDispatch))
       (snd (runPin (fst (runPin p l1 noDispatch)) l2 noDispatch))).
Proof.
  revert p; induction l1 as [|[t raw] l1 IH]; intro p.
  - simpl. rewrite dappend_nil_l. now destruct (runPin p l2 noDispatch).
  - rewrite <- app_comm_cons, !runPin_pinNext, IH. simpl.
    now rewrite dappend_assoc.
Qed.

Lemma levels_app p l1 l2 :
  levels p (l1 ++ l2)
  = levels p l1 ++ levels (fst (runPin p l1 noDispatch)) l2.
Proof.
  revert p; induction l1 as [|[t raw] l1 IH]; intro p; [reflexivity|].
  rewrite <- app_comm_cons, runPin_pinNext.
  change (fst (?x, ?y)) with x. simpl levels. now rewrite IH.
Qed.

Lemma ticksOf_app k l1 l2 : ticksOf k (l1 ++ l2) = ticksOf k l1 ++ ticksOf k l2.
Proof. apply map_app. Qed.

(** C10.  Two parts.  Registration: a pin registered while its
    hardware level reads LOW, for which a long-press callback is then
    registered, has events enabled, the debounced level LOW,
    [pressStartTime] 0, no press counted and the latch clear.  The
    ticks: for every registered pin with events enabled, a long-press
    callback, the debounced level LOW and [pressStartTime] 0, whatever
    the rest of its configuration and state, over ticks after each of
    which the pin is still at the pressed level: while the clock
    (minus 0) is below [pressDurationMs] no LONG_PRESS is raised, the
    debounced level never changes, no press is counted,
    [pressStartTime] stays 0 and the latch is as it was; and the first
    tick at a time [now] with [now - 0 >= pressDurationMs] raises
    LONG_PRESS exactly once when the latch is clear or
    [repeatLongPress] is set, and does not raise it when the latch is
    set and [repeatLongPress] is not. *)
Theorem long_press_without_press (k : Z) :
  (forall (a : AvantDigitalRead) (m : Z) (c : CallbackId)
          (delayMs dur : Z) (repeat_ : bool),
     registry_ok a -> findPin a k = None ->
     let a2 :=
       snd (onLongPress (snd (addPin a k m LOW)) k (Some c) delayMs dur
              repeat_) in
     registry_ok a2
     /\ exists p,
          findPin a2 k = Some p
          /\ eventsEnabled p = true
          /\ onLongPressCallback p = Some c
          /\ pressDurationMs p = dur
          /\ repeatLongPress p = repeat_
          /\ currentState p = PIN_LOW
          /\ pressStartTime p = 0
          /\ clickCount p = 0
          /\ longPressTriggered p = false)
  /\ (forall (a : AvantDigitalRead) (p : PinInfo) (before : list Tick)
             (rd : Z -> Level) (now : Z),
        registry_ok a -> findPin a k = Some p ->
        eventsEnabled p = true ->
        is_null (onLongPressCallback p) = false ->
        currentState p = PIN_LOW -> pressStartTime p = 0 ->
        let b := run a before in
        Forall (eq PIN_LOW) (readings a k (before ++ [(now, rd)])) ->
        Forall (fun t => usub t 0 < pressDurationMs p) (map fst before) ->
        pressDurationMs p <= usub now 0 ->
        fired a b k EVENT_LONG_PRESS = 0%nat
        /\ transitions (readPin a k) (readings a k before) = 0%nat
        /\ pressStartTime (recordOf b k) = 0
        /\ clickCount (recordOf b k) = clickCount p
        /\ longPressTriggered (recordOf b k) = longPressTriggered p
        /\ fired b (update b rd now) k EVENT_LONG_PRESS
           = if repeatLongPress p || negb (longPressTriggered p)
             then 1%nat else 0%nat).
Proof.
  split.
  - intros a m c delayMs dur repeat_ ND F a2.
    pose proof (addPin_registry_ok a k m LOW ND) as ND1.
    pose proof (addPin_new a k m LOW F) as F1.
    pose proof (onLongPress_registered _ k _ (Some c) delayMs dur repeat_ F1)
      as F2.
    split.
    + unfold registry_ok, a2.
      change (onLongPress (snd (addPin a k m LOW)) k (Some c) delayMs dur
                repeat_)
        with (applySetter (snd (addPin a k m LOW)) k
                (OnLongPress (Some c) delayMs dur repeat_)).
      now rewrite applySetter_pins.
    + eexists. split; [exact F2|]. repeat split.
  - intros a p before rd now ND F En Hcb Hlow0 Hps0 b Hread Hts Hnow.
    rewrite (readings_levels a k p _ ND F), ticksOf_app, levels_app in Hread.
    apply Forall_app in Hread as [Hall Hlast].
    destruct (hold_run p (ticksOf k before) En Hcb Hlow0 Hall)
      as (C & Hlow & Hps & Hcc & Hlt & Hr).
    rewrite map_fst_ticksOf in Hlt, Hr. rewrite Hps0 in Hps, Hlt, Hr.
    destruct (not_due_yet (pressDurationMs p) 0 _ Hts) as [Ex Fi].
    rewrite Ex in Hlt. rewrite Ex, Fi in Hr.
    rewrite orb_false_r in Hlt.
    destruct (run_pin_view a before k p ND F) as (NDb & Fb & _).
    fold b in NDb, Fb.
    set (pf := fst (runPin p (ticksOf k before) noDispatch)) in *.
    assert (Rb : recordOf b k = pf) by (unfold recordOf; now rewrite Fb).
    pose proof (findPinIn_Some_pin _ _ _ F) as Ek.
    split; [|split; [|split; [|split; [|split]]]].
    + unfold b. rewrite (fired_run a before k p _ ND F).
      rewrite <- Ek at 1. rewrite Hr.
      now destruct (repeatLongPress p), (longPressTriggered p).
    + rewrite (readings_levels a k p before ND F).
      assert (readPin a k = currentState p) as ->
        by (unfold readPin; now rewrite F).
      now apply (levels_transitions_const PIN_LOW).
    + now rewrite Rb, Hps.
    + now rewrite Rb, Hcc.
    + now rewrite Rb, Hlt.
    + rewrite (fired_update b rd now k pf _ NDb Fb).
      assert (Enf : eventsEnabled pf = true)
        by now rewrite (sc_eventsEnabled _ _ C).
      assert (Hcbf : is_null (onLongPressCallback pf) = false)
        by now rewrite (sc_onLongPress _ _ C).
      assert (Hl1 : currentState (pinNext pf (rd k) now) = PIN_LOW).
      { simpl in Hlast. inversion Hlast; subst. congruence. }
      destruct (pressed_tick pf (rd k) now Enf Hcbf Hl1)
        as (_ & _ & _ & _ & _ & R).
      specialize (R EVENT_LONG_PRESS).
      rewrite debounce_no_gestures in R by reflexivity.
      rewrite (pressAccepted_from_low pf (rd k) now Hlow) in R.
      rewrite (sc_pin _ _ C), (sc_pressDurationMs _ _ C),
        (sc_repeatLongPress _ _ C), Hps, Hlt, Ek in R.
      rewrite R. unfold longPressDue.
      destruct (Z.leb_spec (pressDurationMs p) (usub now 0)); [|lia].
      reflexivity.
Qed.

Lemma long_press_without_press_witness :
  let a2 := pressedAtStart in
  let b := run a2 (allRead [(100, LOW); (500, LOW); (999, LOW)]) in
  fired a2 b 2 EVENT_LONG_PRESS = 0%nat
  /\ transitions (readPin a2 2)
       (readings a2 2 (allRead [(100, LOW); (500, LOW); (999, LOW)]))
     = 0%nat
  /\ pressStartTime (recordOf b 2) = 0
  /\ clickCount (recordOf b 2) = 0
  /\ fired b (update b (fun _ => LOW) 1000) 2 EVENT_LONG_PRESS = 1%nat.
Proof.
  cbv zeta.
  assert (H1 : registry_ok newAvantDigitalRead) by constructor.
  assert (H2 : findPin newAvantDigitalRead 2 = None) by reflexivity.
  destruct (proj1 (long_press_without_press 2) newAvantDigitalRead 0 5%nat
              0 1000 false H1 H2)
    as (ND & p & F & En & Hcb & Hd & Hr & Hlow & Hps & Hcc & Hlt).
  change (snd (onLongPress (snd (addPin newAvantDigitalRead 2 0 LOW)) 2
                 (Some 5%nat) 0 1000 false))
    with pressedAtStart in ND, F.
  assert (Hnull : is_null (onLongPressCallback p) = false)
    by now rewrite Hcb.
  assert (H3 : Forall (eq PIN_LOW)
                 (readings pressedAtStart 2
                    (allRead [(100, LOW); (500, LOW); (999, LOW)]
                       ++ [(1000, fun _ => LOW)])))
    by (vm_compute; repeat constructor).
  assert (H4 : Forall (fun t => usub t 0 < pressDurationMs p)
                 (map fst (allRead [(100, LOW); (500, LOW); (999, LOW)])))
    by (rewrite Hd; repeat constructor).
  assert (H5 : pressDurationMs p <= usub 1000 0)
    by (rewrite Hd; vm_compute; discriminate).
  destruct (proj2 (long_press_without_press 2) pressedAtStart p
              (allRead [(100, LOW); (500, LOW); (999, LOW)])
              (fun _ => LOW) 1000 ND F En Hnull Hlow Hps H3 H4 H5)
    as (G1 & G2 & G3 & G4 & _ & G6).
  rewrite Hcc in G4. rewrite Hlt, orb_true_r in G6.
  repeat split; assumption.
Defined.

(** C10, the claim as first stated: two pins registered while reading
    LOW, with a long-press callback, events enabled, [pressStartTime] 0
    and no press transition ever accepted, for which the first tick at
    a time with [now - 0 >= pressDurationMs] raises nothing.  The first
    was released before that tick.  The second is still pressed, but
    its long press was already raised once (with a duration of 500)
    before the callback was registered again with a duration of 1000:
    the latch is set. *)
Lemma long_press_without_press_counterexample :
  let a := run pressedAtStart (allRead [(100, HIGH); (200, HIGH)]) in
  let a' := update a (fun _ => HIGH) 1000 in
  let b := pressedLatched in
  let b' := run b (allRead [(999, LOW); (1000, LOW); (5000, LOW)]) in
  (eventsEnabled (recordOf a 2) = true
   /\ is_null (onLongPressCallback (recordOf a 2)) = false
   /\ pressDurationMs (recordOf a 2) = 1000
   /\ pressStartTime (recordOf a 2) = 0
   /\ clickCount (recordOf a 2) = 0
   /\ readPin a 2 = PIN_HIGH
   /\ fired pressedAtStart a' 2 EVENT_LONG_PRESS = 0%nat)
  /\ (eventsEnabled (recordOf b 2) = true
      /\ is_null (onLongPressCallback (recordOf b 2)) = false
      /\ pressDurationMs (recordOf b 2) = 1000
      /\ repeatLongPress (recordOf b 2) = false
      /\ pressStartTime (recordOf b 2) = 0
      /\ clickCount (recordOf b 2) = 0
      /\ longPressTriggered (recordOf b 2) = true
      /\ readPin b 2 = PIN_LOW
      /\ readings b 2 (allRead [(999, LOW); (1000, LOW); (5000, LOW)])
         = [PIN_LOW; PIN_LOW; PIN_LOW]
      /\ fired b b' 2 EVENT_LONG_PRESS = 0%nat).
Proof. by_evaluation. Qed.

(** ** Clicks *)

(** The gesture blocks on a released pin with no press to account for:
    only the single-press timeout can act. *)
Lemma gestures_quiet q t :
  eventsEnabled q = true -> currentState q = PIN_HIGH ->
  pressStartTime q = 0 ->
  let expired :=
    (clickCount q =? 1) && negb (is_null (onDoublePressCallback q))
    && (maxIntervalMs q <? usub t (lastClickTime q)) in
  let q' := fst (detectButtonGestures q t noDispatch) in
  pressStartTime q' = 0
  /\ lastClickTime q' = lastClickTime q
  /\ clickCount q' = (if expired then 0 else clickCount q)
  /\ forall k e,
      raisedIn k e (snd (detectButtonGestures q t noDispatch))
      = if expired && negb (is_null (onSinglePressCallback q))
           && (pin q =? k) && EventType_eqb EVENT_SINGLE_PRESS e
        then 1%nat else 0%nat.
Proof.
  intros En Hc Hps expired q'. subst expired q'.
  unfold detectButtonGestures, checkLongPress. rewrite En, Hc. simpl.
  unfold checkClick. simpl. rewrite Hc, Hps. simpl.
  unfold checkSinglePressTimeout. simpl. rewrite Hc, Hps. simpl.
  destruct (clickCount q =? 1); simpl;
    [destruct (is_null (onDoublePressCallback q)); simpl|];
    [| destruct (maxIntervalMs q <? usub t (lastClickTime q)); simpl |];
    repeat split; auto; intros k e; rewrite ?raisedIn_noDispatch; auto.
  destruct (is_null (onSinglePressCallback q)) eqn:S1; simpl;
    [now rewrite raisedIn_noDispatch|].
  unfold triggerSinglePress. simpl. rewrite raisedIn_trigger, S1. reflexivity.
Qed.

Lemma no_change_no_accept p raw t :
  currentState (pinNext p raw t) = currentState p ->
  accepts p raw t = false /\ pressAccepted p raw t = false.
Proof.
  intro E. assert (A : accepts p raw t = false).
  { destruct (accepts p raw t) eqn:A; [|reflexivity].
    apply accepts_changes in A. contradiction. }
  split; [exact A|]. unfold pressAccepted. now rewrite A.
Qed.

(** One tick over which a released pin with no press to account for
    stays released. *)
Lemma quiet_tick p raw t :
  eventsEnabled p = true -> currentState p = PIN_HIGH ->
  currentState (pinNext p raw t) = PIN_HIGH -> pressStartTime p = 0 ->
  let p' := pinNext p raw t in
  sameConfig p p'
  /\ pressStartTime p' = 0
  /\ lastClickTime p' = lastClickTime p
  /\ clickCount p' = (if waitExpired p t then 0 else clickCount p)
  /\ forall e,
      raisedIn (pin p) e (pinRaised p raw t)
      = if waitExpired p t && negb (is_null (onSinglePressCallback p))
           && EventType_eqb EVENT_SINGLE_PRESS e
        then 1%nat else 0%nat.
Proof.
  intros En Hc Hc' Hps p'.
  destruct (no_change_no_accept p raw t) as [A PA]; [congruence|].
  destruct (updatePin_split p raw t) as [E1 E2].
  destruct (debounce_fields p raw t noDispatch)
    as (C & Hlc & _ & _ & _ & Hcur & Hps1 & Hcc).
  rewrite A in Hcur. rewrite PA in Hps1, Hcc.
  set (q := fst (debounce p raw t noDispatch)) in *.
  assert (Enq : eventsEnabled q = true)
    by now rewrite (sc_eventsEnabled _ _ C).
  destruct (gestures_quiet q t Enq ltac:(congruence) ltac:(congruence))
    as (G1 & G2 & G3 & G4).
  assert (W : (clickCount q =? 1) && negb (is_null (onDoublePressCallback q))
              && (maxIntervalMs q <? usub t (lastClickTime q))
              = waitExpired p t).
  { unfold waitExpired.
    now rewrite Hcc, Hlc, (sc_onDoublePress _ _ C), (sc_maxIntervalMs _ _ C). }
  rewrite W in G3, G4.
  unfold p'. rewrite E1, E2.
  split; [|split; [|split; [|split]]].
  - destruct (detectButtonGestures_keeps q t noDispatch) as [C2 _].
    eauto using sameConfig_trans.
  - exact G1.
  - congruence.
  - now rewrite G3, Hcc.
  - intro e. rewrite raisedIn_dappend, G4, debounce_count, A.
    rewrite (sc_onSinglePress _ _ C), (sc_pin _ _ C), Z.eqb_refl. simpl.
    now rewrite andb_true_r.
Qed.

(** A run of such ticks during which the timeout does not expire. *)
Lemma quiet_run p ticks :
  eventsEnabled p = true -> currentState p = PIN_HIGH ->
  pressStartTime p = 0 ->
  Forall (eq PIN_HIGH) (levels p ticks) ->
  Forall (fun t => waitExpired p t = false) (map fst ticks) ->
  let pf := fst (runPin p ticks noDispatch) in
  sameConfig p pf
  /\ currentState pf = PIN_HIGH
  /\ pressStartTime pf = 0
  /\ lastClickTime pf = lastClickTime p
  /\ clickCount pf = clickCount p
  /\ forall e, raisedIn (pin p) e (snd (runPin p ticks noDispatch)) = 0%nat.
Proof.
  revert p; induction ticks as [|[t raw] ticks IH];
    intros p En Hc Hps Hall Hw pf.
  - subst pf; simpl. repeat split; auto using sameConfig_refl.
  - simpl in Hall, Hw.
    inversion Hall as [|? ? Hl1 Hall']; subst. symmetry in Hl1.
    inversion Hw as [|? ? Hw1 Hw']; subst.
    destruct (quiet_tick p raw t En Hc Hl1 Hps) as (C & P1 & L1 & C1 & R1).
    rewrite Hw1 in C1, R1. simpl in R1.
    assert (En' : eventsEnabled (pinNext p raw t) = true)
      by now rewrite (sc_eventsEnabled _ _ C).
    assert (Hw2 : Forall (fun t0 => waitExpired (pinNext p raw t) t0 = false)
                    (map fst ticks)).
    { eapply Forall_impl; [|exact Hw']. intros t0 H0. unfold waitExpired in *.
      now rewrite C1, L1, (sc_onDoublePress _ _ C), (sc_maxIntervalMs _ _ C). }
    destruct (IH _ En' Hl1 P1 Hall' Hw2) as (C2 & H2 & P2 & L2 & K2 & R2).
    subst pf. rewrite runPin_pinNext. simpl fst. simpl snd.
    split; [eauto using sameConfig_trans|].
    split; [exact H2|]. split; [exact P2|].
    split; [congruence|]. split; [congruence|].
    intro e. rewrite raisedIn_dappend, R1.
    rewrite <- (sc_pin _ _ C). now rewrite R2.
Qed.

Lemma fst_runPin_app p l1 l2 :
  fst (runPin p (l1 ++ l2) noDispatch)
  = fst (runPin (fst (runPin p l1 noDispatch)) l2 noDispatch).
Proof. now rewrite runPin_app. Qed.

Lemma raisedIn_runPin_app k e p l1 l2 :
  raisedIn k e (snd (runPin p (l1 ++ l2) noDispatch))
  = (raisedIn k e (snd (runPin p l1 noDispatch))
     + raisedIn k e
         (snd (runPin (fst (runPin p l1 noDispatch)) l2 noDispatch)))%nat.
Proof. rewrite runPin_app. simpl snd. apply raisedIn_dappend. Qed.

Lemma recordOf_run a ticks k p :
  registry_ok a -> findPin a k = Some p ->
  recordOf (run a ticks) k = fst (runPin p (ticksOf k ticks) noDispatch).
Proof.
  intros ND F. unfold recordOf.
  destruct (run_pin_view a ticks k p ND F) as (_ & -> & _). reflexivity.
Qed.

Lemma within_not_expired p ts :
  Forall (fun t => usub t (lastClickTime p) <= maxIntervalMs p) ts ->
  Forall (fun t => waitExpired p t = false) ts.
Proof.
  apply Forall_impl. intros t H. unfold waitExpired.
  destruct (Z.ltb_spec (maxIntervalMs p) (usub t (lastClickTime p)));
    [lia|apply andb_false_r].
Qed.

Lemma no_click_not_expired p ts :
  clickCount p = 0 -> Forall (fun t => waitExpired p t = false) ts.
Proof.
  intro H. apply Forall_forall. intros t _. unfold waitExpired.
  now rewrite H.
Qed.

(** The single-press timeout, for one pin on its own. *)
Lemma timeout_run p before t raw after :
  eventsEnabled p = true -> is_null (onDoublePressCallback p) = false ->
  currentState p = PIN_HIGH -> clickCount p = 1 -> pressStartTime p = 0 ->
  Forall (eq PIN_HIGH) (levels p (before ++ (t, raw) :: after)) ->
  Forall (fun t' => usub t' (lastClickTime p) <= maxIntervalMs p)
    (map fst before) ->
  maxIntervalMs p < usub t (lastClickTime p) ->
  let single :=
    if is_null (onSinglePressCallback p) then 0%nat else 1%nat in
  let count l :=
    raisedIn (pin p) EVENT_SINGLE_PRESS (snd (runPin p l noDispatch)) in
  count before = 0%nat
  /\ clickCount (fst (runPin p before noDispatch)) = 1
  /\ count (before ++ [(t, raw)]) = single
  /\ count (before ++ (t, raw) :: after) = single
  /\ clickCount (fst (runPin p (before ++ (t, raw) :: after) noDispatch)) = 0.
Proof.
  intros En Hd Hc Hcc Hps Hall Hin Hexp single count.
  rewrite levels_app in Hall. apply Forall_app in Hall as [Hall1 Hall2].
  destruct (quiet_run p before En Hc Hps Hall1 (within_not_expired _ _ Hin))
    as (C1 & Hc1 & Hps1 & Hl1 & Hcc1 & R1).
  set (p1 := fst (runPin p before noDispatch)) in *.
  simpl in Hall2. inversion Hall2 as [|? ? Hl2 Hall3]; subst.
  symmetry in Hl2.
  assert (En1 : eventsEnabled p1 = true)
    by now rewrite (sc_eventsEnabled _ _ C1).
  destruct (quiet_tick p1 raw t En1 Hc1 Hl2 Hps1) as (C2 & Hps2 & _ & Hcc2 & R2).
  assert (W : waitExpired p1 t = true).
  { unfold waitExpired.
    rewrite Hcc1, Hcc, Hl1, (sc_onDoublePress _ _ C1),
      (sc_maxIntervalMs _ _ C1), Hd.
    destruct (Z.ltb_spec (maxIntervalMs p) (usub t (lastClickTime p)));
      [reflexivity|lia]. }
  rewrite W in Hcc2, R2.
  specialize (R2 EVENT_SINGLE_PRESS).
  rewrite (sc_onSinglePress _ _ C1), (sc_pin _ _ C1) in R2. simpl in R2.
  rewrite andb_true_r in R2.
  set (p2 := pinNext p1 raw t) in *.
  assert (En2 : eventsEnabled p2 = true)
    by now rewrite (sc_eventsEnabled _ _ C2).
  destruct (quiet_run p2 after En2 Hl2 Hps2 Hall3
              (no_click_not_expired _ _ Hcc2))
    as (_ & _ & _ & _ & Hcc3 & R3).
  assert (Single : count (before ++ [(t, raw)]) = single).
  { unfold count. rewrite raisedIn_runPin_app, R1. fold p1.
    rewrite runPin_pinNext. simpl snd. fold p2.
    rewrite raisedIn_dappend, R2. simpl. rewrite raisedIn_noDispatch.
    subst single. destruct (is_null (onSinglePressCallback p)); reflexivity. }
  assert (E2 : fst (runPin p (before ++ [(t, raw)]) noDispatch) = p2).
  { rewrite fst_runPin_app. fold p1. now rewrite runPin_pinNext. }
  split; [apply R1|]. split; [congruence|]. split; [exact Single|].
  change ((t, raw) :: after) with ([(t, raw)] ++ after).
  rewrite app_assoc. split.
  - unfold count in *. rewrite raisedIn_runPin_app, Single, E2.
    rewrite <- (sc_pin _ _ C1), <- (sc_pin _ _ C2), R3. lia.
  - rewrite fst_runPin_app, E2. congruence.
Qed.

(** C7, as amended.  For a registered pin with events enabled and a
    double-press callback, released, with one click counted and no press
    in progress ([clickCount = 1], [pressStartTime = 0]): over ticks
    after each of which the pin is still released, no SINGLE_PRESS is
    raised and the click stays counted while
    [now - lastClickTime <= maxIntervalMs]; at the first tick with
    [now - lastClickTime > maxIntervalMs] SINGLE_PRESS is raised once if
    a single-press callback is registered (not at all otherwise) and
    [clickCount] becomes 0; and no further SINGLE_PRESS is raised over
    the ticks that follow. *)
Theorem single_press_timeout
    (a : AvantDigitalRead) (k : Z) (p : PinInfo)
    (before : list Tick) (tick : Tick) (after : list Tick) :
  registry_ok a -> findPin a k = Some p ->
  eventsEnabled p = true -> is_null (onDoublePressCallback p) = false ->
  readPin a k = PIN_HIGH -> clickCount p = 1 -> pressStartTime p = 0 ->
  Forall (eq PIN_HIGH) (readings a k (before ++ tick :: after)) ->
  Forall (fun t => usub t (lastClickTime p) <= maxIntervalMs p)
    (map fst before) ->
  maxIntervalMs p < usub (fst tick) (lastClickTime p) ->
  let single :=
    if is_null (onSinglePressCallback p) then 0%nat else 1%nat in
  fired a (run a before) k EVENT_SINGLE_PRESS = 0%nat
  /\ clickCount (recordOf (run a before) k) = 1
  /\ fired a (run a (before ++ [tick])) k EVENT_SINGLE_PRESS = single
  /\ fired a (run a (before ++ tick :: after)) k EVENT_SINGLE_PRESS = single
  /\ clickCount (recordOf (run a (before ++ tick :: after)) k) = 0.
Proof.
  intros ND F En Hd Hc Hcc Hps Hall Hin Hexp single.
  assert (Hc' : currentState p = PIN_HIGH)
    by (unfold readPin in Hc; now rewrite F in Hc).
  rewrite (readings_levels a k p _ ND F), ticksOf_app in Hall.
  destruct tick as [t rd]. simpl in Hexp.
  change (ticksOf k ((t, rd) :: after))
    with ((t, rd k) :: ticksOf k after) in Hall.
  rewrite <- (map_fst_ticksOf k) in Hin.
  destruct (timeout_run p (ticksOf k before) t (rd k) (ticksOf k after)
              En Hd Hc' Hcc Hps Hall Hin Hexp) as (T1 & T2 & T3 & T4 & T5).
  rewrite (findPinIn_Some_pin _ _ _ F) in T1, T3, T4.
  rewrite !(fired_run a _ k p _ ND F), !(recordOf_run a _ k p ND F).
  rewrite !ticksOf_app.
  change (ticksOf k [(t, rd)]) with [(t, rd k)].
  change (ticksOf k ((t, rd) :: after)) with ((t, rd k) :: ticksOf k after).
  auto.
Qed.

Lemma single_press_timeout_witness :
  fired oneClick (run oneClick (allRead [(1300, HIGH); (1520, HIGH)])) 2
    EVENT_SINGLE_PRESS = 0%nat
  /\ fired oneClick
       (run oneClick
          (allRead [(1300, HIGH); (1520, HIGH)] ++ [(1521, fun _ => HIGH)])) 2
       EVENT_SINGLE_PRESS = 1%nat
  /\ fired oneClick
       (run oneClick
          (allRead [(1300, HIGH); (1520, HIGH)]
             ++ (1521, fun _ => HIGH)
                :: allRead [(1600, HIGH); (5000, HIGH)])) 2
       EVENT_SINGLE_PRESS = 1%nat.
Proof.
  assert (ND : registry_ok oneClick) by registry_by_evaluation.
  assert (F : findPin oneClick 2 = Some (recordOf oneClick 2))
    by (vm_compute; reflexivity).
  destruct (single_press_timeout oneClick 2 (recordOf oneClick 2)
              (allRead [(1300, HIGH); (1520, HIGH)])
              (1521, fun _ => HIGH)
              (allRead [(1600, HIGH); (5000, HIGH)]) ND F)
    as (H1 & _ & H3 & H4 & _); try closed_hypothesis.
  assert (S : (if is_null (onSinglePressCallback (recordOf oneClick 2))
               then 0%nat else 1%nat) = 1%nat) by (vm_compute; reflexivity).
  rewrite S in H3, H4.
  split; [exact H1|]. split; [exact H3|exact H4].
Defined.

(** C7 as stated fails: with the events of the pin disabled (the claim
    asks only for a double-press callback) the click stays counted and no
    SINGLE_PRESS is raised, however long after the click. *)
Lemma single_press_timeout_disabled_counterexample :
  let a := snd (disablePinEvents oneClick 2) in
  let a' := run a (allRead [(1300, HIGH); (1521, HIGH); (5000, HIGH)]) in
  (is_null (onDoublePressCallback (recordOf a 2)) = false
   /\ is_null (onSinglePressCallback (recordOf a 2)) = false
   /\ clickCount (recordOf a 2) = 1
   /\ pressStartTime (recordOf a 2) = 0
   /\ lastClickTime (recordOf a 2) = 1220
   /\ maxIntervalMs (recordOf a 2) = 300)
  /\ fired a a' 2 EVENT_SINGLE_PRESS = 0%nat
  /\ clickCount (recordOf a' 2) = 1.
Proof. by_evaluation. Qed.

Lemma checkLongPress_sameClicks p t d :
  sameClicks p (fst (checkLongPress p t d)).
Proof. unfold checkLongPress. split_ifs; now constructor. Qed.

(** The gesture blocks on a pin at the pressed level leave the click
    classifier alone and raise no press event. *)
Lemma gestures_low_clicks q t :
  eventsEnabled q = true -> currentState q = PIN_LOW ->
  sameClicks q (fst (detectButtonGestures q t noDispatch))
  /\ forall k e,
      e <> EVENT_LONG_PRESS ->
      raisedIn k e (snd (detectButtonGestures q t noDispatch)) = 0%nat.
Proof.
  intros En Hc. rewrite (detectButtonGestures_split q t En). simpl.
  pose proof (checkLongPress_sameClicks q t noDispatch) as S1.
  set (q1 := fst (checkLongPress q t noDispatch)) in *.
  assert (Hc1 : currentState q1 = PIN_LOW)
    by now rewrite (sk_currentState _ _ S1).
  assert (E2 : checkClick q1 t noDispatch = (q1, noDispatch))
    by (unfold checkClick; now rewrite Hc1).
  rewrite E2. simpl.
  assert (E3 : checkSinglePressTimeout q1 t noDispatch = (q1, noDispatch))
    by (unfold checkSinglePressTimeout; now rewrite Hc1).
  rewrite E3. simpl. split; [exact S1|].
  intros k e Ne. rewrite !dappend_nil_r.
  now apply checkLongPress_kinds.
Qed.

(** One tick that leaves the pin at the pressed level, seen from the
    click classifier. *)
Lemma low_tick p raw t :
  eventsEnabled p = true -> currentState (pinNext p raw t) = PIN_LOW ->
  let p' := pinNext p raw t in
  sameConfig p p'
  /\ pressStartTime p' = (if pressAccepted p raw t then t else pressStartTime p)
  /\ clickCount p'
     = (if pressAccepted p raw t then clickCount p + 1 else clickCount p)
  /\ lastClickTime p' = lastClickTime p
  /\ forall e,
      e = EVENT_SINGLE_PRESS \/ e = EVENT_DOUBLE_PRESS ->
      raisedIn (pin p) e (pinRaised p raw t) = 0%nat.
Proof.
  intros En Hlow p'.
  destruct (updatePin_split p raw t) as [E1 E2].
  destruct (debounce_fields p raw t noDispatch)
    as (C & Hlc & _ & _ & _ & _ & Hps & Hcc).
  set (q := fst (debounce p raw t noDispatch)) in *.
  destruct (detectButtonGestures_keeps q t noDispatch) as [C2 [S _ _]].
  assert (Hq : currentState q = PIN_LOW) by (rewrite <- S, <- E1; exact Hlow).
  assert (Enq : eventsEnabled q = true)
    by now rewrite (sc_eventsEnabled _ _ C).
  destruct (gestures_low_clicks q t Enq Hq) as [[_ K1 K2 K3] R].
  unfold p'. rewrite E1, E2.
  split; [eauto using sameConfig_trans|].
  split; [congruence|]. split; [congruence|]. split; [congruence|].
  intros e He. rewrite raisedIn_dappend, debounce_no_gestures, R.
  - reflexivity.
  - destruct He; subst; discriminate.
  - destruct He; subst; reflexivity.
Qed.

Lemma press_accepted p raw t :
  currentState p = PIN_HIGH -> currentState (pinNext p raw t) = PIN_LOW ->
  pressAccepted p raw t = true.
Proof.
  intros Hh Hl.
  assert (A : accepts p raw t = true)
    by (apply accepts_changes; congruence).
  rewrite pinNext_currentState, A in Hl.
  unfold pressAccepted. now rewrite A, Hl, Hh.
Qed.

(** A run of ticks in which the pin, already at the pressed level, stays
    there, seen from the click classifier. *)
Lemma pressed_run p ticks :
  eventsEnabled p = true -> currentState p = PIN_LOW ->
  Forall (eq PIN_LOW) (levels p ticks) ->
  let pf := fst (runPin p ticks noDispatch) in
  sameConfig p pf /\ sameClicks p pf
  /\ forall e,
      e = EVENT_SINGLE_PRESS \/ e = EVENT_DOUBLE_PRESS ->
      raisedIn (pin p) e (snd (runPin p ticks noDispatch)) = 0%nat.
Proof.
  revert p; induction ticks as [|[t raw] ticks IH]; intros p En Hlow Hall pf.
  - subst pf; simpl. split; [apply sameConfig_refl|].
    split; [now constructor|]. intros; apply raisedIn_noDispatch.
  - simpl in Hall. inversion Hall as [|? ? Hl1 Hall']; subst.
    symmetry in Hl1.
    destruct (low_tick p raw t En Hl1) as (C & Hps & Hcc & Hlc & R).
    rewrite (pressAccepted_from_low p raw t Hlow) in Hps, Hcc.
    assert (En' : eventsEnabled (pinNext p raw t) = true)
      by now rewrite (sc_eventsEnabled _ _ C).
    destruct (IH _ En' Hl1 Hall') as (C2 & [K0 K1 K2 K3] & R2).
    subst pf. rewrite runPin_pinNext. simpl fst. simpl snd.
    split; [eauto using sameConfig_trans|].
    split; [constructor; congruence|].
    intros e He. rewrite raisedIn_dappend, (R e He).
    rewrite <- (sc_pin _ _ C). now rewrite (R2 e He).
Qed.

(** The gesture blocks at the release of a press of valid duration, for a
    pin with a double-press callback: the first click is held pending;
    the second, released within [maxIntervalMs] of the first, raises
    DOUBLE_PRESS. *)
Lemma gestures_release q t s :
  eventsEnabled q = true -> currentState q = PIN_HIGH ->
  pressStartTime q = s -> 0 < s ->
  minPressMs q <= usub t s <= maxPressMs q ->
  is_null (onDoublePressCallback q) = false ->
  0 <= maxIntervalMs q ->
  let q' := fst (detectButtonGestures q t noDispatch) in
  let d' := snd (detectButtonGestures q t noDispatch) in
  (clickCount q = 1 ->
   clickCount q' = 1 /\ pressStartTime q' = 0 /\ lastClickTime q' = t
   /\ forall k e, raisedIn k e d' = 0%nat)
  /\ (clickCount q = 2 -> usub t (lastClickTime q) <= maxIntervalMs q ->
      clickCount q' = 0 /\ pressStartTime q' = 0 /\ lastClickTime q' = t
      /\ forall k e,
          raisedIn k e d'
          = if (pin q =? k) && EventType_eqb EVENT_DOUBLE_PRESS e
            then 1%nat else 0%nat).
Proof.
  intros En Hc Hps Hs Hdur Hd Hmi q' d'. subst q' d'.
  assert (B1 : (0 <? s) = true) by (apply Z.ltb_lt; lia).
  assert (B2 : (minPressMs q <=? usub t s) = true) by (apply Z.leb_le; lia).
  assert (B3 : (usub t s <=? maxPressMs q) = true) by (apply Z.leb_le; lia).
  assert (B4 : (maxIntervalMs q <? 0) = false) by (apply Z.ltb_ge; lia).
  unfold detectButtonGestures, checkLongPress. rewrite En, Hc. simpl.
  unfold checkClick. simpl. rewrite Hc, Hps, B1, B2, B3, Hd. simpl.
  split.
  - intro Hcc. rewrite Hcc. simpl.
    unfold checkSinglePressTimeout. simpl.
    rewrite Hc, Hcc, Hd, usub_same, B4. simpl.
    repeat split; auto.
  - intros Hcc Hint. rewrite Hcc. simpl.
    assert (B5 : (usub t (lastClickTime q) <=? maxIntervalMs q) = true)
      by (apply Z.leb_le; lia).
    rewrite B5. simpl.
    unfold checkSinglePressTimeout. simpl. rewrite Hc. simpl.
    repeat split; auto.
    intros k e. rewrite raisedIn_trigger, Hd. reflexivity.
Qed.

(** The tick at which the release of a press of valid duration is
    accepted. *)
Lemma release_tick p raw t :
  eventsEnabled p = true -> is_null (onDoublePressCallback p) = false ->
  currentState p = PIN_LOW -> currentState (pinNext p raw t) = PIN_HIGH ->
  0 < pressStartTime p ->
  minPressMs p <= usub t (pressStartTime p) <= maxPressMs p ->
  0 <= maxIntervalMs p ->
  let p' := pinNext p raw t in
  sameConfig p p'
  /\ (clickCount p = 1 ->
      clickCount p' = 1 /\ pressStartTime p' = 0 /\ lastClickTime p' = t
      /\ forall e,
          e = EVENT_SINGLE_PRESS \/ e = EVENT_DOUBLE_PRESS ->
          raisedIn (pin p) e (pinRaised p raw t) = 0%nat)
  /\ (clickCount p = 2 -> usub t (lastClickTime p) <= maxIntervalMs p ->
      clickCount p' = 0 /\ pressStartTime p' = 0 /\ lastClickTime p' = t
      /\ raisedIn (pin p) EVENT_DOUBLE_PRESS (pinRaised p raw t) = 1%nat
      /\ raisedIn (pin p) EVENT_SINGLE_PRESS (pinRaised p raw t) = 0%nat).
Proof.
  intros En Hd Hlow Hhigh Hs Hdur Hmi p'.
  destruct (updatePin_split p raw t) as [E1 E2].
  destruct (debounce_fields p raw t noDispatch)
    as (C & Hlc & _ & _ & _ & _ & Hps & Hcc).
  rewrite (pressAccepted_from_low p raw t Hlow) in Hps, Hcc.
  set (q := fst (debounce p raw t noDispatch)) in *.
  destruct (detectButtonGestures_keeps q t noDispatch) as [C2 [S _ _]].
  assert (Hq : currentState q = PIN_HIGH)
    by (rewrite <- S, <- E1; exact Hhigh).
  assert (Enq : eventsEnabled q = true)
    by now rewrite (sc_eventsEnabled _ _ C).
  destruct (gestures_release q t (pressStartTime p) Enq Hq Hps Hs)
    as [G1 G2].
  { now rewrite (sc_minPressMs _ _ C), (sc_maxPressMs _ _ C). }
  { now rewrite (sc_onDoublePress _ _ C). }
  { now rewrite (sc_maxIntervalMs _ _ C). }
  unfold p'. rewrite E1, E2.
  split; [eauto using sameConfig_trans|]. split.
  - intro H1. destruct G1 as (K1 & K2 & K3 & R); [congruence|].
    repeat split; auto.
    intros e He. rewrite raisedIn_dappend, debounce_no_gestures, R;
      [reflexivity|destruct He; subst; reflexivity].
  - intros H2 Hint. destruct G2 as (K1 & K2 & K3 & R); [congruence| |].
    { now rewrite Hlc, (sc_maxIntervalMs _ _ C). }
    repeat split; auto.
    + rewrite raisedIn_dappend, debounce_no_gestures, R by reflexivity.
      rewrite (sc_pin _ _ C), Z.eqb_refl. reflexivity.
    + rewrite raisedIn_dappend, debounce_no_gestures, R by reflexivity.
      now rewrite andb_false_r.
Qed.

(** ** The phases of a double click *)

Lemma length_levels p ticks : length (levels p ticks) = length ticks.
Proof.
  revert p; induction ticks as [|[t raw] ticks IH]; intro p; simpl;
    [reflexivity|now rewrite IH].
Qed.

Lemma app_eq_length {A} (l1 m1 l2 m2 : list A) :
  l1 ++ l2 = m1 ++ m2 -> length l1 = length m1 -> l1 = m1 /\ l2 = m2.
Proof.
  revert m1; induction l1 as [|x l1 IH]; intros [|y m1] E L;
    simpl in *; try discriminate; [now split|].
  injection E as -> E. destruct (IH m1 E) as [-> ->]; [lia|now split].
Qed.

Lemma Forall_eq_repeat {A} (c : A) n : Forall (eq c) (repeat c n).
Proof. induction n; simpl; now constructor. Qed.

(** Splitting a run whose first part is known to stay at one level. *)
Lemma levels_split p l1 l2 c L :
  levels p (l1 ++ l2) = repeat c (length l1) ++ L ->
  Forall (eq c) (levels p l1)
  /\ levels (fst (runPin p l1 noDispatch)) l2 = L.
Proof.
  rewrite levels_app. intro E.
  apply app_eq_length in E as [E1 E2].
  - split; [rewrite E1; apply Forall_eq_repeat|exact E2].
  - now rewrite length_levels, repeat_length.
Qed.

Lemma clockFrom_app t0 l1 t l2 :
  clockFrom t0 (l1 ++ t :: l2) ->
  Forall (fun x => t0 <= x <= t) l1
  /\ t0 <= t < ULONG_RANGE /\ clockFrom t l2.
Proof.
  revert t0; induction l1 as [|x l1 IH]; intros t0; simpl.
  - intros [H1 H2]. split; [constructor|now split].
  - intros [H1 H2]. destruct (IH x H2) as (F & Ht & Hc).
    split; [|split; [lia|exact Hc]].
    constructor; [lia|].
    eapply Forall_impl; [|exact F]. simpl. intros; lia.
Qed.

Lemma usub_plain a b : 0 <= a <= b -> b < ULONG_RANGE -> usub b a = b - a.
Proof. intros H1 H2. unfold usub. apply Z.mod_small. lia. Qed.

(** A press: the tick that takes a released pin to the pressed level,
    and the ticks over which it stays there. *)
Lemma press_phase p t raw hold :
  eventsEnabled p = true -> currentState p = PIN_HIGH ->
  Forall (eq PIN_LOW) (levels p ((t, raw) :: hold)) ->
  let pf := fst (runPin p ((t, raw) :: hold) noDispatch) in
  sameConfig p pf
  /\ currentState pf = PIN_LOW
  /\ pressStartTime pf = t
  /\ clickCount pf = clickCount p + 1
  /\ lastClickTime pf = lastClickTime p
  /\ forall e,
      e = EVENT_SINGLE_PRESS \/ e = EVENT_DOUBLE_PRESS ->
      raisedIn (pin p) e (snd (runPin p ((t, raw) :: hold) noDispatch))
      = 0%nat.
Proof.
  intros En Hh Hall pf.
  simpl in Hall. inversion Hall as [|? ? Hl1 Hall']; subst. symmetry in Hl1.
  destruct (low_tick p raw t En Hl1) as (C & Hps & Hcc & Hlc & R).
  rewrite (press_accepted p raw t Hh Hl1) in Hps, Hcc.
  assert (En' : eventsEnabled (pinNext p raw t) = true)
    by now rewrite (sc_eventsEnabled _ _ C).
  destruct (pressed_run _ hold En' Hl1 Hall') as (C2 & [K0 K1 K2 K3] & R2).
  subst pf. rewrite runPin_pinNext. simpl fst. simpl snd.
  split; [eauto using sameConfig_trans|].
  split; [congruence|]. split; [congruence|]. split; [congruence|].
  split; [congruence|].
  intros e He. rewrite raisedIn_dappend, (R e He).
  rewrite <- (sc_pin _ _ C). now rewrite (R2 e He).
Qed.

(** The release of a first press of valid duration, and the ticks over
    which the pin then stays released while the wait for a second click
    has not expired. *)
Lemma first_release_phase p t raw rest :
  eventsEnabled p = true -> is_null (onDoublePressCallback p) = false ->
  currentState p = PIN_LOW -> clickCount p = 1 ->
  Forall (eq PIN_HIGH) (levels p ((t, raw) :: rest)) ->
  0 < pressStartTime p ->
  minPressMs p <= usub t (pressStartTime p) <= maxPressMs p ->
  0 <= maxIntervalMs p ->
  Forall (fun t' => usub t' t <= maxIntervalMs p) (map fst rest) ->
  let pf := fst (runPin p ((t, raw) :: rest) noDispatch) in
  sameConfig p pf /\ currentState pf = PIN_HIGH /\ pressStartTime pf = 0
  /\ lastClickTime pf = t /\ clickCount pf = 1
  /\ forall e,
      e = EVENT_SINGLE_PRESS \/ e = EVENT_DOUBLE_PRESS ->
      raisedIn (pin p) e (snd (runPin p ((t, raw) :: rest) noDispatch))
      = 0%nat.
Proof.
  intros En Hd Hlow Hcc Hall Hs Hdur Hmi Hin pf.
  simpl in Hall. inversion Hall as [|? ? Hl1 Hall']; subst. symmetry in Hl1.
  destruct (release_tick p raw t En Hd Hlow Hl1 Hs Hdur Hmi) as (C & G1 & _).
  destruct (G1 Hcc) as (K1 & Hps1 & Hlc1 & R1).
  set (p1 := pinNext p raw t) in *.
  assert (En1 : eventsEnabled p1 = true)
    by now rewrite (sc_eventsEnabled _ _ C).
  assert (Hw : Forall (fun t0 => waitExpired p1 t0 = false) (map fst rest)).
  { apply within_not_expired.
    now rewrite Hlc1, (sc_maxIntervalMs _ _ C). }
  destruct (quiet_run p1 rest En1 Hl1 Hps1 Hall' Hw)
    as (C2 & H2 & P2 & L2 & K2 & R2).
  rewrite (sc_pin _ _ C) in R2.
  subst pf. rewrite runPin_pinNext. simpl fst. simpl snd. fold p1.
  split; [eauto using sameConfig_trans|].
  split; [exact H2|]. split; [exact P2|].
  split; [congruence|]. split; [congruence|].
  intros e He. now rewrite raisedIn_dappend, (R1 e He), R2.
Qed.

(** The release of a second press of valid duration within
    [maxIntervalMs] of the first release, and the ticks over which the
    pin then stays released. *)
Lemma second_release_phase p t raw rest :
  eventsEnabled p = true -> is_null (onDoublePressCallback p) = false ->
  currentState p = PIN_LOW -> clickCount p = 2 ->
  Forall (eq PIN_HIGH) (levels p ((t, raw) :: rest)) ->
  0 < pressStartTime p ->
  minPressMs p <= usub t (pressStartTime p) <= maxPressMs p ->
  0 <= maxIntervalMs p ->
  usub t (lastClickTime p) <= maxIntervalMs p ->
  let pf := fst (runPin p ((t, raw) :: rest) noDispatch) in
  let d := snd (runPin p ((t, raw) :: rest) noDispatch) in
  clickCount pf = 0
  /\ raisedIn (pin p) EVENT_DOUBLE_PRESS d = 1%nat
  /\ raisedIn (pin p) EVENT_SINGLE_PRESS d = 0%nat.
Proof.
  intros En Hd Hlow Hcc Hall Hs Hdur Hmi Hint pf d.
  simpl in Hall. inversion Hall as [|? ? Hl1 Hall']; subst. symmetry in Hl1.
  destruct (release_tick p raw t En Hd Hlow Hl1 Hs Hdur Hmi) as (C & _ & G2).
  destruct (G2 Hcc Hint) as (K1 & Hps1 & Hlc1 & RD & RS).
  set (p1 := pinNext p raw t) in *.
  assert (En1 : eventsEnabled p1 = true)
    by now rewrite (sc_eventsEnabled _ _ C).
  destruct (quiet_run p1 rest En1 Hl1 Hps1 Hall'
              (no_click_not_expired _ _ K1))
    as (_ & _ & _ & _ & K2 & R2).
  rewrite (sc_pin _ _ C) in R2.
  subst pf d. rewrite runPin_pinNext. simpl fst. simpl snd. fold p1.
  split; [congruence|].
  now rewrite !raisedIn_dappend, RD, RS, !R2.
Qed.

Lemma cons_app {A} (x : A) l1 l2 : x :: l1 ++ l2 = (x :: l1) ++ l2.
Proof. reflexivity. Qed.

Lemma map_fst_app_cons {A B} (l1 : list (A * B)) x l2 :
  map fst (l1 ++ x :: l2) = map fst l1 ++ fst x :: map fst l2.
Proof. now rewrite map_app. Qed.

(** The whole gesture, for one pin on its own. *)
Lemma double_click_run p pre t1 r1 hold1 t2 r2 gap t3 r3 hold2 t4 r4 post :
  eventsEnabled p = true -> is_null (onDoublePressCallback p) = false ->
  currentState p = PIN_HIGH -> clickCount p = 0 -> pressStartTime p = 0 ->
  let ticks :=
    pre ++ (t1, r1) :: hold1 ++ (t2, r2) :: gap
        ++ (t3, r3) :: hold2 ++ (t4, r4) :: post in
  levels p ticks
  = repeat PIN_HIGH (length pre) ++ repeat PIN_LOW (S (length hold1))
      ++ repeat PIN_HIGH (S (length gap)) ++ repeat PIN_LOW (S (length hold2))
      ++ repeat PIN_HIGH (S (length post)) ->
  clockFrom 0 (map fst ticks) -> 0 < t1 ->
  minPressMs p <= t2 - t1 <= maxPressMs p ->
  minPressMs p <= t4 - t3 <= maxPressMs p ->
  t4 - t2 <= maxIntervalMs p ->
  raisedIn (pin p) EVENT_DOUBLE_PRESS (snd (runPin p ticks noDispatch)) = 1%nat
  /\ raisedIn (pin p) EVENT_SINGLE_PRESS (snd (runPin p ticks noDispatch))
     = 0%nat.
Proof.
  intros En Hd Hh Hcc Hps ticks Hlev Hclk Ht1 Hd1 Hd2 Hint. subst ticks.
  (* the clock *)
  rewrite !map_fst_app_cons in Hclk. simpl fst in Hclk.
  apply clockFrom_app in Hclk as (_ & Hc1 & Hclk).
  apply clockFrom_app in Hclk as (_ & Hc2 & Hclk).
  apply clockFrom_app in Hclk as (Hgap & Hc3 & Hclk).
  apply clockFrom_app in Hclk as (_ & Hc4 & _).
  (* the phases *)
  apply levels_split in Hlev as [L0 Hlev].
  rewrite (cons_app _ hold1) in Hlev.
  apply (levels_split _ ((t1, r1) :: hold1)) in Hlev as [L1 Hlev].
  rewrite (cons_app _ gap) in Hlev.
  apply (levels_split _ ((t2, r2) :: gap)) in Hlev as [L2 Hlev].
  rewrite (cons_app _ hold2) in Hlev.
  apply (levels_split _ ((t3, r3) :: hold2)) in Hlev as [L3 Hlev].
  assert (L4 : Forall (eq PIN_HIGH)
                 (levels
                    (fst (runPin
                       (fst (runPin
                          (fst (runPin
                             (fst (runPin p pre noDispatch))
                             ((t1, r1) :: hold1) noDispatch))
                          ((t2, r2) :: gap) noDispatch))
                       ((t3, r3) :: hold2) noDispatch))
                    ((t4, r4) :: post))).
  { rewrite Hlev.
    change (S (length post)) with (length ((t4, r4) :: post)).
    apply Forall_eq_repeat. }
  clear Hlev.
  (* before the first press *)
  destruct (quiet_run p pre En Hh Hps L0 (no_click_not_expired _ _ Hcc))
    as (C0 & H0 & P0 & _ & K0 & R0).
  set (p0 := fst (runPin p pre noDispatch)) in *.
  assert (En0 : eventsEnabled p0 = true)
    by now rewrite (sc_eventsEnabled _ _ C0).
  (* the first press *)
  destruct (press_phase p0 t1 r1 hold1 En0 H0 L1)
    as (C1 & H1 & P1 & K1 & _ & R1).
  set (p1 := fst (runPin p0 ((t1, r1) :: hold1) noDispatch)) in *.
  assert (C01 : sameConfig p p1) by eauto using sameConfig_trans.
  assert (En1 : eventsEnabled p1 = true)
    by now rewrite (sc_eventsEnabled _ _ C01).
  assert (Hd1' : is_null (onDoublePressCallback p1) = false)
    by now rewrite (sc_onDoublePress _ _ C01).
  (* the first release and the wait *)
  destruct (first_release_phase p1 t2 r2 gap En1 Hd1' H1)
    as (C2 & H2 & P2 & LC2 & K2 & R2); try assumption.
  { lia. }
  { lia. }
  { rewrite P1, (sc_minPressMs _ _ C01), (sc_maxPressMs _ _ C01).
    rewrite usub_plain; lia. }
  { rewrite (sc_maxIntervalMs _ _ C01). lia. }
  { rewrite (sc_maxIntervalMs _ _ C01).
    eapply Forall_impl; [|exact Hgap]. simpl. intros x Hx.
    rewrite usub_plain; lia. }
  set (p2 := fst (runPin p1 ((t2, r2) :: gap) noDispatch)) in *.
  assert (C02 : sameConfig p p2) by eauto using sameConfig_trans.
  assert (En2 : eventsEnabled p2 = true)
    by now rewrite (sc_eventsEnabled _ _ C02).
  (* the second press *)
  destruct (press_phase p2 t3 r3 hold2 En2 H2 L3)
    as (C3 & H3 & P3 & K3 & LC3 & R3).
  set (p3 := fst (runPin p2 ((t3, r3) :: hold2) noDispatch)) in *.
  assert (C03 : sameConfig p p3) by eauto using sameConfig_trans.
  assert (En3 : eventsEnabled p3 = true)
    by now rewrite (sc_eventsEnabled _ _ C03).
  assert (Hd3 : is_null (onDoublePressCallback p3) = false)
    by now rewrite (sc_onDoublePress _ _ C03).
  (* the second release *)
  destruct (second_release_phase p3 t4 r4 post En3 Hd3 H3)
    as (_ & RD & RS); try assumption.
  { lia. }
  { lia. }
  { rewrite P3, (sc_minPressMs _ _ C03), (sc_maxPressMs _ _ C03).
    rewrite usub_plain; lia. }
  { rewrite (sc_maxIntervalMs _ _ C03). lia. }
  { rewrite LC3, LC2, (sc_maxIntervalMs _ _ C03).
    rewrite usub_plain; lia. }
  (* the sum *)
  rewrite (sc_pin _ _ C0) in R1.
  rewrite (sc_pin _ _ C01) in R2.
  rewrite (sc_pin _ _ C02) in R3.
  rewrite (sc_pin _ _ C03) in RD, RS.
  rewrite (cons_app _ hold1), (cons_app _ gap), (cons_app _ hold2).
  rewrite !raisedIn_runPin_app. fold p0. fold p1. fold p2. fold p3.
  rewrite !R0, !R1, !R2, !R3, RD, RS by auto.
  split; reflexivity.
Qed.

Lemma ticksOf_app_cons k l1 (x : Tick) l2 :
  ticksOf k (l1 ++ x :: l2)
  = ticksOf k l1 ++ (fst x, snd x k) :: ticksOf k l2.
Proof. unfold ticksOf. now rewrite map_app. Qed.

Lemma length_ticksOf k l : length (ticksOf k l) = length l.
Proof. apply length_map. Qed.

(** C1, as amended.  For a registered pin with events enabled and a
    double-press callback, released and with no click pending: ticks
    after which the debounced level is HIGH, then LOW (first press,
    accepted at [press1]), HIGH (released at [release1]), LOW (second
    press, accepted at [press2]) and HIGH again (released at
    [release2]), on a clock that does not wrap and is not 0 at the first
    press, with both presses lasting between [minPressMs] and
    [maxPressMs] and the second release at most [maxIntervalMs] after
    the first release, raise exactly one DOUBLE_PRESS and no
    SINGLE_PRESS. *)
Theorem double_press_gesture
    (a : AvantDigitalRead) (k : Z) (p : PinInfo)
    (pre : list Tick) (press1 : Tick) (hold1 : list Tick)
    (release1 : Tick) (gap : list Tick) (press2 : Tick)
    (hold2 : list Tick) (release2 : Tick) (post : list Tick) :
  registry_ok a -> findPin a k = Some p ->
  eventsEnabled p = true -> is_null (onDoublePressCallback p) = false ->
  readPin a k = PIN_HIGH -> clickCount p = 0 -> pressStartTime p = 0 ->
  let ticks :=
    pre ++ press1 :: hold1 ++ release1 :: gap
        ++ press2 :: hold2 ++ release2 :: post in
  readings a k ticks
  = repeat PIN_HIGH (length pre) ++ repeat PIN_LOW (S (length hold1))
      ++ repeat PIN_HIGH (S (length gap)) ++ repeat PIN_LOW (S (length hold2))
      ++ repeat PIN_HIGH (S (length post)) ->
  clockFrom 0 (map fst ticks) -> 0 < fst press1 ->
  minPressMs p <= fst release1 - fst press1 <= maxPressMs p ->
  minPressMs p <= fst release2 - fst press2 <= maxPressMs p ->
  fst release2 - fst release1 <= maxIntervalMs p ->
  fired a (run a ticks) k EVENT_DOUBLE_PRESS = 1%nat
  /\ fired a (run a ticks) k EVENT_SINGLE_PRESS = 0%nat.
Proof.
  intros ND F En Hd Hh Hcc Hps ticks Hlev Hclk Ht1 Hd1 Hd2 Hint.
  assert (Hh' : currentState p = PIN_HIGH)
    by (unfold readPin in Hh; now rewrite F in Hh).
  rewrite (readings_levels a k p _ ND F) in Hlev.
  rewrite <- (map_fst_ticksOf k) in Hclk.
  rewrite !(fired_run a _ k p _ ND F).
  subst ticks. rewrite !ticksOf_app_cons in *.
  rewrite <- (length_ticksOf k pre), <- (length_ticksOf k hold1),
    <- (length_ticksOf k gap), <- (length_ticksOf k hold2),
    <- (length_ticksOf k post) in Hlev.
  pose proof (findPinIn_Some_pin _ _ _ F) as Ek. subst k.
  now apply double_click_run.
Qed.

Lemma double_press_gesture_witness :
  let ticks :=
    allRead [(900, HIGH); (1000, LOW)]
      ++ (1060, fun _ => LOW)
         :: allRead [(1100, LOW); (1160, HIGH)]
      ++ (1220, fun _ => HIGH)
         :: allRead [(1300, LOW)]
      ++ (1360, fun _ => LOW)
         :: allRead [(1400, HIGH)]
      ++ (1460, fun _ => HIGH)
         :: allRead [(1500, HIGH); (3000, HIGH)] in
  fired clickSetup (run clickSetup ticks) 2 EVENT_DOUBLE_PRESS = 1%nat
  /\ fired clickSetup (run clickSetup ticks) 2 EVENT_SINGLE_PRESS = 0%nat.
Proof.
  assert (ND : registry_ok clickSetup) by registry_by_evaluation.
  assert (F : findPin clickSetup 2 = Some (recordOf clickSetup 2))
    by (vm_compute; reflexivity).
  apply (double_press_gesture clickSetup 2 (recordOf clickSetup 2)
           (allRead [(900, HIGH); (1000, LOW)]) (1060, fun _ => LOW)
           (allRead [(1100, LOW); (1160, HIGH)]) (1220, fun _ => HIGH)
           (allRead [(1300, LOW)]) (1360, fun _ => LOW)
           (allRead [(1400, HIGH)]) (1460, fun _ => HIGH)
           (allRead [(1500, HIGH); (3000, HIGH)]) ND F);
    try (vm_compute; reflexivity);
    vm_compute; repeat split; intro H; discriminate H.
Defined.

(** C1 as stated fails: both presses last 160 and 200 ms (within 50 to
    300) and the second press is accepted at 1460 ms, 240 ms after the
    first release at 1220 ms (within 300); it is released at 1660 ms,
    440 ms after the first release, and the code measures the interval
    to the second release: no DOUBLE_PRESS is raised and SINGLE_PRESS is
    raised twice, at 1660 ms and when the second click times out. *)
Lemma double_press_interval_counterexample :
  let ticks :=
    allRead [(1000, LOW); (1060, LOW); (1160, HIGH); (1220, HIGH);
             (1400, LOW); (1460, LOW); (1600, HIGH); (1660, HIGH);
             (2000, HIGH)] in
  (minPressMs (recordOf clickSetup 2) = 50
   /\ maxPressMs (recordOf clickSetup 2) = 300
   /\ maxIntervalMs (recordOf clickSetup 2) = 300)
  /\ readings clickSetup 2 ticks
     = [PIN_HIGH; PIN_LOW; PIN_LOW; PIN_HIGH; PIN_HIGH; PIN_LOW; PIN_LOW;
        PIN_HIGH; PIN_HIGH]
  /\ fired clickSetup (run clickSetup ticks) 2 EVENT_DOUBLE_PRESS = 0%nat
  /\ fired clickSetup (run clickSetup ticks) 2 EVENT_SINGLE_PRESS = 2%nat
  /\ invoked (dispatch (run clickSetup ticks))
     = [mkInvocation 1%nat 2 PIN_HIGH PIN_HIGH EVENT_SINGLE_PRESS 1660;
        mkInvocation 1%nat 2 PIN_HIGH PIN_HIGH EVENT_SINGLE_PRESS 2000].
Proof. by_evaluation. Qed.

(** ** A single click without a double-press callback *)

(** The gesture blocks at the release of a press of valid duration, for a
    pin with no double-press callback: the click is reported at once. *)
Lemma gestures_release_single q t s :
  eventsEnabled q = true -> currentState q = PIN_HIGH ->
  pressStartTime q = s -> 0 < s ->
  minPressMs q <= usub t s <= maxPressMs q ->
  is_null (onDoublePressCallback q) = true -> clickCount q = 1 ->
  let q' := fst (detectButtonGestures q t noDispatch) in
  clickCount q' = 0 /\ pressStartTime q' = 0 /\ lastClickTime q' = t
  /\ forall k e,
      raisedIn k e (snd (detectButtonGestures q t noDispatch))
      = if negb (is_null (onSinglePressCallback q)) && (pin q =? k)
           && EventType_eqb EVENT_SINGLE_PRESS e
        then 1%nat else 0%nat.
Proof.
  intros En Hc Hps Hs Hdur Hd Hcc q'. subst q'.
  assert (B1 : (0 <? s) = true) by (apply Z.ltb_lt; lia).
  assert (B2 : (minPressMs q <=? usub t s) = true) by (apply Z.leb_le; lia).
  assert (B3 : (usub t s <=? maxPressMs q) = true) by (apply Z.leb_le; lia).
  unfold detectButtonGestures, checkLongPress. rewrite En, Hc. simpl.
  unfold checkClick. simpl. rewrite Hc, Hps, B1, B2, B3, Hd, Hcc. simpl.
  unfold checkSinglePressTimeout. simpl. rewrite Hc, Hd. simpl.
  repeat split; auto. intros k e.
  destruct (is_null (onSinglePressCallback q)) eqn:S1; simpl;
    [apply raisedIn_noDispatch|].
  unfold triggerSinglePress. simpl. now rewrite raisedIn_trigger, S1.
Qed.

(** The whole click, for one pin on its own. *)
Lemma single_click_run p pre t1 r1 hold t2 r2 post :
  eventsEnabled p = true -> is_null (onDoublePressCallback p) = true ->
  currentState p = PIN_HIGH -> clickCount p = 0 -> pressStartTime p = 0 ->
  let ticks := pre ++ (t1, r1) :: hold ++ (t2, r2) :: post in
  levels p ticks
  = repeat PIN_HIGH (length pre) ++ repeat PIN_LOW (S (length hold))
      ++ repeat PIN_HIGH (S (length post)) ->
  clockFrom 0 (map fst ticks) -> 0 < t1 ->
  minPressMs p <= t2 - t1 <= maxPressMs p ->
  let pressed := fst (runPin p (pre ++ (t1, r1) :: hold) noDispatch) in
  raisedIn (pin p) EVENT_SINGLE_PRESS
    (snd (runPin p (pre ++ (t1, r1) :: hold) noDispatch)) = 0%nat
  /\ raisedIn (pin p) EVENT_SINGLE_PRESS (pinRaised pressed r2 t2)
     = (if is_null (onSinglePressCallback p) then 0%nat else 1%nat)
  /\ raisedIn (pin p) EVENT_SINGLE_PRESS
       (snd (runPin (pinNext pressed r2 t2) post noDispatch)) = 0%nat
  /\ raisedIn (pin p) EVENT_SINGLE_PRESS (snd (runPin p ticks noDispatch))
     = (if is_null (onSinglePressCallback p) then 0%nat else 1%nat)
  /\ clickCount (fst (runPin p ticks noDispatch)) = 0.
Proof.
  intros En Hd Hh Hcc Hps ticks Hlev Hclk Ht1 Hdur pressed.
  subst ticks pressed.
  rewrite !map_fst_app_cons in Hclk. simpl fst in Hclk.
  apply clockFrom_app in Hclk as (_ & Hc1 & Hclk).
  apply clockFrom_app in Hclk as (_ & Hc2 & _).
  apply levels_split in Hlev as [L0 Hlev].
  rewrite (cons_app _ hold) in Hlev.
  apply (levels_split _ ((t1, r1) :: hold)) in Hlev as [L1 Hlev].
  (* before the press *)
  destruct (quiet_run p pre En Hh Hps L0 (no_click_not_expired _ _ Hcc))
    as (C0 & H0 & P0 & _ & K0 & R0).
  set (p0 := fst (runPin p pre noDispatch)) in *.
  assert (En0 : eventsEnabled p0 = true)
    by now rewrite (sc_eventsEnabled _ _ C0).
  (* the press *)
  destruct (press_phase p0 t1 r1 hold En0 H0 L1)
    as (C1 & H1 & P1 & K1 & _ & R1).
  set (p1 := fst (runPin p0 ((t1, r1) :: hold) noDispatch)) in *.
  assert (C01 : sameConfig p p1) by eauto using sameConfig_trans.
  (* the release *)
  simpl in Hlev. injection Hlev as Hl2 Hlev.
  destruct (updatePin_split p1 r2 t2) as [E1 E2].
  destruct (debounce_fields p1 r2 t2 noDispatch)
    as (C & _ & _ & _ & _ & _ & Hps2 & Hcc2).
  rewrite (pressAccepted_from_low p1 r2 t2 H1) in Hps2, Hcc2.
  set (q := fst (debounce p1 r2 t2 noDispatch)) in *.
  destruct (detectButtonGestures_keeps q t2 noDispatch) as [C2 [S _ _]].
  assert (C0q : sameConfig p q) by eauto using sameConfig_trans.
  destruct (gestures_release_single q t2 t1) as (G1 & G2 & _ & G4).
  { now rewrite (sc_eventsEnabled _ _ C0q). }
  { rewrite <- S, <- E1. exact Hl2. }
  { congruence. }
  { exact Ht1. }
  { rewrite (sc_minPressMs _ _ C0q), (sc_maxPressMs _ _ C0q).
    rewrite usub_plain; lia. }
  { now rewrite (sc_onDoublePress _ _ C0q). }
  { rewrite Hcc2, K1, K0, Hcc. reflexivity. }
  rewrite <- E1 in G1, G2.
  set (p2 := pinNext p1 r2 t2) in *.
  assert (C12 : sameConfig p1 p2)
    by (rewrite E1; eauto using sameConfig_trans).
  assert (C02 : sameConfig p p2) by eauto using sameConfig_trans.
  assert (En2 : eventsEnabled p2 = true)
    by now rewrite (sc_eventsEnabled _ _ C02).
  (* after the release *)
  assert (L2 : Forall (eq PIN_HIGH) (levels p2 post))
    by (rewrite Hlev; apply Forall_eq_repeat).
  destruct (quiet_run p2 post En2 Hl2 G2 L2 (no_click_not_expired _ _ G1))
    as (_ & _ & _ & _ & K3 & R3).
  (* the sum *)
  rewrite (sc_pin _ _ C0) in R1.
  rewrite (sc_pin _ _ C02) in R3.
  assert (Rel : raisedIn (pin p) EVENT_SINGLE_PRESS (pinRaised p1 r2 t2)
                = if is_null (onSinglePressCallback p) then 0%nat
                  else 1%nat).
  { rewrite E2, raisedIn_dappend, debounce_no_gestures, G4 by reflexivity.
    rewrite (sc_onSinglePress _ _ C0q), (sc_pin _ _ C0q), Z.eqb_refl.
    destruct (is_null (onSinglePressCallback p)); reflexivity. }
  assert (Bef : raisedIn (pin p) EVENT_SINGLE_PRESS
                  (snd (runPin p (pre ++ (t1, r1) :: hold) noDispatch))
                = 0%nat).
  { rewrite raisedIn_runPin_app. fold p0. now rewrite R0, R1 by auto. }
  rewrite (fst_runPin_app p pre ((t1, r1) :: hold)). fold p0. fold p1.
  fold p2.
  split; [exact Bef|]. split; [exact Rel|]. split; [apply R3|].
  rewrite (cons_app _ hold).
  rewrite !raisedIn_runPin_app, !fst_runPin_app. fold p0. fold p1.
  rewrite R0, R1 by auto.
  rewrite !runPin_pinNext. simpl fst. simpl snd. fold p2.
  rewrite raisedIn_dappend, R3.
  split; [|congruence].
  rewrite Rel. destruct (is_null (onSinglePressCallback p)); reflexivity.
Qed.

Lemma run_app a l1 l2 : run a (l1 ++ l2) = run (run a l1) l2.
Proof.
  revert a; induction l1 as [|[t rd] l1 IH]; intro a; [reflexivity|].
  simpl. apply IH.
Qed.

(** A single click.  For a registered pin with events enabled and no
    double-press callback, released and with no click pending: ticks
    after which the debounced level is HIGH, then LOW (the press,
    accepted at [press]) and HIGH again (released at [release]), on a
    clock that does not wrap and is not 0 at the press, the press
    lasting between [minPressMs] and [maxPressMs].  No SINGLE_PRESS is
    raised up to the end of the press; the update that accepts the
    release raises exactly one SINGLE_PRESS when a single-press
    callback is registered (none otherwise); none is raised after it;
    so the whole run raises that one event, and [clickCount] is left at
    0. *)
Theorem single_click_gesture
    (a : AvantDigitalRead) (k : Z) (p : PinInfo)
    (pre : list Tick) (press : Tick) (hold : list Tick)
    (release : Tick) (post : list Tick) :
  registry_ok a -> findPin a k = Some p ->
  eventsEnabled p = true -> is_null (onDoublePressCallback p) = true ->
  readPin a k = PIN_HIGH -> clickCount p = 0 -> pressStartTime p = 0 ->
  let ticks := pre ++ press :: hold ++ release :: post in
  readings a k ticks
  = repeat PIN_HIGH (length pre) ++ repeat PIN_LOW (S (length hold))
      ++ repeat PIN_HIGH (S (length post)) ->
  clockFrom 0 (map fst ticks) -> 0 < fst press ->
  minPressMs p <= fst release - fst press <= maxPressMs p ->
  let pressed := run a (pre ++ press :: hold) in
  let released := update pressed (snd release) (fst release) in
  fired a pressed k EVENT_SINGLE_PRESS = 0%nat
  /\ fired pressed released k EVENT_SINGLE_PRESS
     = (if is_null (onSinglePressCallback p) then 0%nat else 1%nat)
  /\ fired released (run released post) k EVENT_SINGLE_PRESS = 0%nat
  /\ run released post = run a ticks
  /\ fired a (run a ticks) k EVENT_SINGLE_PRESS
     = (if is_null (onSinglePressCallback p) then 0%nat else 1%nat)
  /\ clickCount (recordOf (run a ticks) k) = 0.
Proof.
  intros ND F En Hd Hh Hcc Hps ticks Hlev Hclk Ht1 Hdur pressed released.
  assert (Hh' : currentState p = PIN_HIGH)
    by (unfold readPin in Hh; now rewrite F in Hh).
  rewrite (readings_levels a k p _ ND F) in Hlev.
  rewrite <- (map_fst_ticksOf k) in Hclk.
  destruct (run_pin_view a (pre ++ press :: hold) k p ND F)
    as (NDb & Fb & _).
  fold pressed in NDb, Fb.
  destruct (update_pin_view pressed (snd release) (fst release) k _ NDb Fb)
    as (NDc & Fc & _).
  fold released in NDc, Fc.
  assert (Erun : run released post = run a ticks).
  { subst ticks released pressed. destruct release as [t2 rd2].
    change (pre ++ press :: hold ++ (t2, rd2) :: post)
      with (pre ++ (press :: hold) ++ (t2, rd2) :: post).
    rewrite (app_assoc pre (press :: hold)),
      (run_app a (pre ++ press :: hold)).
    reflexivity. }
  subst pressed released.
  rewrite (fired_run a (pre ++ press :: hold) k p _ ND F),
    (fired_update _ (snd release) (fst release) k _ _ NDb Fb),
    (fired_run _ post k _ _ NDc Fc),
    (fired_run a ticks k p _ ND F), (recordOf_run a ticks k p ND F).
  clear NDb Fb NDc Fc.
  subst ticks. rewrite !ticksOf_app_cons in *.
  rewrite <- (length_ticksOf k pre), <- (length_ticksOf k hold),
    <- (length_ticksOf k post) in Hlev.
  pose proof (findPinIn_Some_pin _ _ _ F) as Ek. subst k.
  destruct press as [t1 rd1], release as [t2 rd2]. simpl fst in *.
  simpl snd in *.
  destruct (single_click_run p (ticksOf (pin p) pre) t1 (rd1 (pin p))
              (ticksOf (pin p) hold) t2 (rd2 (pin p))
              (ticksOf (pin p) post) En Hd Hh' Hcc Hps Hlev Hclk Ht1 Hdur)
    as (G1 & G2 & G3 & G4 & G5).
  split; [exact G1|]. split; [exact G2|]. split; [exact G3|].
  split; [exact Erun|]. split; [exact G4|exact G5].
Qed.

Lemma single_click_gesture_witness :
  let a := snd (onSinglePress onePin 2 (Some 1%nat) 0) in
  let before :=
    allRead [(900, HIGH); (1000, LOW)]
      ++ (1060, fun _ => LOW) :: allRead [(1100, LOW); (1160, HIGH)] in
  let after := allRead [(1300, HIGH); (3000, HIGH)] in
  let pressed := run a before in
  let released := update pressed (fun _ => HIGH) 1220 in
  fired a pressed 2 EVENT_SINGLE_PRESS = 0%nat
  /\ fired pressed released 2 EVENT_SINGLE_PRESS = 1%nat
  /\ fired released (run released after) 2 EVENT_SINGLE_PRESS = 0%nat
  /\ clickCount (recordOf (run released after) 2) = 0.
Proof.
  intros a before after pressed released.
  assert (ND : registry_ok a) by registry_by_evaluation.
  assert (F : findPin a 2 = Some (recordOf a 2)) by (vm_compute; reflexivity).
  pose proof (single_click_gesture a 2 (recordOf a 2)
                (allRead [(900, HIGH); (1000, LOW)]) (1060, fun _ => LOW)
                (allRead [(1100, LOW); (1160, HIGH)]) (1220, fun _ => HIGH)
                (allRead [(1300, HIGH); (3000, HIGH)]) ND F) as H.
  cbv zeta in H.
  destruct H as (H1 & H2 & H3 & _ & _ & H6); try closed_hypothesis.
  - vm_compute. repeat split; intro H; discriminate H.
  - vm_compute. repeat split; intro H; discriminate H.
  - vm_compute in H1, H2, H3, H6. vm_compute.
    split; [exact H1|]. split; [exact H2|]. split; [exact H3|exact H6].
Defined.

(** * Further properties *)

(** ** Registering and unregistering *)

Lemma findPinIn_app_other l k k' x :
  pin x = k -> k' <> k -> findPinIn (l ++ [x]) k' = findPinIn l k'.
Proof.
  intros E N. induction l as [|q l IH]; simpl.
  - rewrite E. destruct (Z.eqb_spec k k'); [congruence|reflexivity].
  - now rewrite IH.
Qed.

Lemma erasePin_app_new l k x :
  findPinIn l k = None -> pin x = k -> erasePin (l ++ [x]) k = Some l.
Proof.
  intros F E. induction l as [|q l IH]; simpl in *.
  - now rewrite E, Z.eqb_refl.
  - destruct (pin q =? k); [discriminate|]. now rewrite IH.
Qed.

(** [addPin] on an unregistered pin succeeds: [pinMode] is called once,
    the new record goes to the end of the registry with the level read
    as both its debounced level and its last sample and with the
    defaults of the header; the queries find it, the other pins and the
    scheduler are untouched, and removing the pin again gives the
    registry back. *)
Theorem addPin_registers
    (a : AvantDigitalRead) (k m : Z) (r : Level) :
  findPin a k = None ->
  let a' := snd (addPin a k m r) in
  fst (addPin a k m r) = true
  /\ pinList a' = pinList a ++ [newPin k m r]
  /\ pinModeCalls a' = pinModeCalls a ++ [(k, m)]
  /\ dispatch a' = dispatch a
  /\ isInitialized a' k = true
  /\ getPinMode a' k = m
  /\ readPin a' k = PinState_of_Level r
  /\ getDebounceTime a' k = DEFAULT_DEBOUNCE_TIME
  /\ (forall k', k' <> k -> findPin a' k' = findPin a k')
  /\ fst (removePin a' k) = true
  /\ pinList (snd (removePin a' k)) = pinList a.
Proof.
  intros F a'. pose proof (addPin_new a k m r F) as F'. fold a' in F'.
  assert (E : addPin a k m r
              = (true, mkAvantDigitalRead (pinList a ++ [newPin k m r])
                         (dispatch a) (pinModeCalls a ++ [(k, m)])))
    by (unfold addPin; now rewrite F).
  unfold a' in *. rewrite E in *. simpl fst in *. simpl snd in *.
  repeat split.
  - unfold isInitialized. now rewrite F'.
  - unfold getPinMode. now rewrite F'.
  - unfold readPin. now rewrite F'.
  - unfold getDebounceTime. now rewrite F'.
  - intros k' N. unfold findPin. simpl.
    now apply (findPinIn_app_other _ k).
  - unfold removePin. simpl.
    now rewrite (erasePin_app_new (pinList a) k (newPin k m r) F eq_refl).
  - unfold removePin. simpl.
    now rewrite (erasePin_app_new (pinList a) k (newPin k m r) F eq_refl).
Qed.

Lemma addPin_registers_witness :
  let a' := snd (addPin twoPins 7 1 LOW) in
  fst (addPin twoPins 7 1 LOW) = true
  /\ pinList a' = pinList twoPins ++ [newPin 7 1 LOW]
  /\ pinModeCalls a' = pinModeCalls twoPins ++ [(7, 1)]
  /\ dispatch a' = dispatch twoPins
  /\ isInitialized a' 7 = true
  /\ getPinMode a' 7 = 1
  /\ readPin a' 7 = PinState_of_Level LOW
  /\ getDebounceTime a' 7 = DEFAULT_DEBOUNCE_TIME
  /\ (forall k', k' <> 7 -> findPin a' k' = findPin twoPins k')
  /\ fst (removePin a' 7) = true
  /\ pinList (snd (removePin a' 7)) = pinList twoPins.
Proof. exact (addPin_registers twoPins 7 1 LOW eq_refl). Defined.

Lemma withoutPin_absent l k : ~ In k (map pin l) -> withoutPin k l = l.
Proof.
  unfold withoutPin. induction l as [|x l IH]; simpl; intro N;
    [reflexivity|].
  destruct (Z.eqb_spec (pin x) k); simpl; [tauto|].
  f_equal. apply IH. tauto.
Qed.

Lemma erasePin_withoutPin l k :
  NoDup (map pin l) ->
  match erasePin l k with
  | Some l' => l' = withoutPin k l
  | None => l = withoutPin k l
  end.
Proof.
  induction l as [|q l IH]; intro ND; simpl; [reflexivity|].
  inversion ND as [|? ? Hnot ND']; subst.
  unfold withoutPin. simpl.
  destruct (Z.eqb_spec (pin q) k) as [E|N]; simpl.
  - subst k. symmetry. now apply withoutPin_absent.
  - specialize (IH ND'). unfold withoutPin in IH.
    destruct (erasePin l k); simpl; now f_equal.
Qed.

Lemma findPinIn_withoutPin l k k' :
  findPinIn (withoutPin k l) k'
  = if k' =? k then None else findPinIn l k'.
Proof.
  unfold withoutPin. induction l as [|q l IH]; simpl;
    [now destruct (k' =? k)|].
  destruct (Z.eqb_spec (pin q) k) as [E|N]; simpl.
  - rewrite IH. destruct (Z.eqb_spec k' k) as [E'|N']; [reflexivity|].
    destruct (Z.eqb_spec (pin q) k'); [congruence|reflexivity].
  - rewrite IH. destruct (Z.eqb_spec (pin q) k') as [E'|N'];
      [|reflexivity].
    destruct (Z.eqb_spec k' k); [congruence|reflexivity].
Qed.

(** [removePin] returns whether the pin was registered; afterwards the
    pin is unregistered and the other records are where they were, in
    the same order.  The scheduler is untouched: callbacks already
    queued for the removed pin stay queued. *)
Theorem removePin_unregisters (a : AvantDigitalRead) (k : Z) :
  registry_ok a ->
  let a' := snd (removePin a k) in
  fst (removePin a k) = isInitialized a k
  /\ pinList a' = withoutPin k (pinList a)
  /\ isInitialized a' k = false
  /\ readPin a' k = PIN_UNINITIALIZED
  /\ (forall k', k' <> k -> findPin a' k' = findPin a k')
  /\ dispatch a' = dispatch a
  /\ pinModeCalls a' = pinModeCalls a.
Proof.
  intros ND a'. pose proof (erasePin_withoutPin (pinList a) k ND) as E.
  assert (L : pinList a' = withoutPin k (pinList a)).
  { unfold a', removePin.
    destruct (erasePin (pinList a) k); simpl; congruence. }
  assert (F : forall k', findPin a' k'
                         = if k' =? k then None else findPin a k').
  { intro k'. unfold findPin. rewrite L. apply findPinIn_withoutPin. }
  split; [|split; [exact L|]].
  - unfold removePin, isInitialized, findPin.
    destruct (erasePin (pinList a) k) eqn:Er; simpl.
    + destruct (findPinIn (pinList a) k) eqn:Fi; [reflexivity|].
      apply erasePin_None in Fi. congruence.
    + apply erasePin_None in Er. now rewrite Er.
  - repeat split.
    + unfold isInitialized. now rewrite F, Z.eqb_refl.
    + unfold readPin. now rewrite F, Z.eqb_refl.
    + intros k' N. rewrite F.
      destruct (Z.eqb_spec k' k); [contradiction|reflexivity].
    + unfold a', removePin. now destruct (erasePin (pinList a) k).
    + unfold a', removePin. now destruct (erasePin (pinList a) k).
Qed.

Lemma threePins_ok : registry_ok threePins.
Proof. registry_by_evaluation. Qed.

Lemma removePin_unregisters_witness :
  let a' := snd (removePin threePins 4) in
  fst (removePin threePins 4) = isInitialized threePins 4
  /\ pinList a' = withoutPin 4 (pinList threePins)
  /\ isInitialized a' 4 = false
  /\ readPin a' 4 = PIN_UNINITIALIZED
  /\ (forall k', k' <> 4 -> findPin a' k' = findPin threePins k')
  /\ dispatch a' = dispatch threePins
  /\ pinModeCalls a' = pinModeCalls threePins.
Proof. exact (removePin_unregisters threePins 4 threePins_ok). Defined.

(** ** Reconfiguring a registered pin *)

Lemma findPinIn_storePin_other l k k' f :
  (forall p, pin (f p) = pin p) -> k' <> k ->
  findPinIn (storePin l k f) k' = findPinIn l k'.
Proof.
  intros Hf N. induction l as [|q l IH]; simpl; [reflexivity|].
  destruct (Z.eqb_spec (pin q) k) as [E|Nq]; simpl.
  - rewrite Hf. destruct (Z.eqb_spec (pin q) k'); [congruence|reflexivity].
  - now rewrite IH.
Qed.

Lemma applySetter_withPin a k s : applySetter a k s = withPin a k (setterFn s).
Proof. now destruct s. Qed.

Lemma setterFn_sameState s p : sameState p (setterFn s p).
Proof. destruct s; now constructor. Qed.

(** A setter called on a registered pin returns [true] and assigns only
    configuration: the identity of the record, its debounce state and
    its gesture state are as before, as are the order of the registry,
    the records of the other pins, the deferred queue and the call log.
    [getDebounceTime] reads back what [setDebounceTime] wrote, and the
    two event switches set [eventsEnabled]. *)
Theorem setter_on_registered_pin
    (a : AvantDigitalRead) (k : Z) (s : Setter) (p : PinInfo) :
  findPin a k = Some p ->
  let a' := snd (applySetter a k s) in
  fst (applySetter a k s) = true
  /\ (exists p',
        findPin a' k = Some p' /\ sameState p p'
        /\ (s = EnablePinEvents -> eventsEnabled p' = true)
        /\ (s = DisablePinEvents -> eventsEnabled p' = false))
  /\ (forall ms, s = SetDebounceTime ms -> getDebounceTime a' k = ms)
  /\ map pin (pinList a') = map pin (pinList a)
  /\ (forall k', k' <> k -> findPin a' k' = findPin a k')
  /\ dispatch a' = dispatch a
  /\ pinModeCalls a' = pinModeCalls a.
Proof.
  intros F a'. unfold a'. rewrite applySetter_withPin.
  pose proof (setterFn_sameState s) as Hs.
  assert (Hf : forall q, pin (setterFn s q) = pin q)
    by (intro q; apply Hs).
  assert (F' : findPin (snd (withPin a k (setterFn s))) k
               = Some (setterFn s p)).
  { unfold withPin. rewrite F. unfold findPin. simpl.
    now apply findPinIn_storePin. }
  split; [unfold withPin; now rewrite F|]. split; [|split; [|split]].
  - exists (setterFn s p). split; [exact F'|]. split; [apply Hs|].
    split; intros ->; reflexivity.
  - intros ms ->. unfold getDebounceTime. now rewrite F'.
  - now apply withPin_pins.
  - unfold withPin. rewrite F. simpl. repeat split.
    intros k' N. unfold findPin. simpl.
    now apply findPinIn_storePin_other.
Qed.

Lemma setter_on_registered_pin_witness :
  let a' := snd (setDebounceTime threePins 4 120) in
  fst (setDebounceTime threePins 4 120) = true
  /\ getDebounceTime a' 4 = 120
  /\ map pin (pinList a') = map pin (pinList threePins)
  /\ (forall k', k' <> 4 -> findPin a' k' = findPin threePins k')
  /\ dispatch a' = dispatch threePins.
Proof.
  destruct (setter_on_registered_pin threePins 4 (SetDebounceTime 120)
              (recordOf threePins 4) eq_refl)
    as (H1 & _ & H3 & H4 & H5 & H6 & _).
  split; [exact H1|]. split; [exact (H3 120 eq_refl)|].
  split; [exact H4|]. split; [exact H5|exact H6].
Defined.

(** ** Switching all pins at once *)

Lemma updatePins_all_disabled l rd t d :
  Forall (fun p => eventsEnabled p = false) l ->
  snd (updatePins l rd t d) = d.
Proof.
  intro H. rewrite updatePins_frame. simpl.
  induction H as [|p l Hp _ IH]; simpl; [apply dappend_nil_r|].
  rewrite pinRaised_disabled by exact Hp.
  now rewrite dappend_nil_l.
Qed.

Lemma findPinIn_map_setter f l k :
  (forall p, pin (f p) = pin p) ->
  findPinIn (map f l) k = option_map f (findPinIn l k).
Proof.
  intro Hf. induction l as [|q l IH]; simpl; [reflexivity|].
  rewrite Hf. now destruct (pin q =? k).
Qed.

(** [enableAllEvents] and [disableAllEvents] set the switch of every
    record and nothing else; the later call wins; and a tick taken with
    all events disabled raises nothing: on the scheduler it does what
    draining alone does. *)
Theorem all_events_switch
    (a : AvantDigitalRead) (b : bool) (rd : Z -> Level) (t : Z) :
  let switch := if b then enableAllEvents else disableAllEvents in
  (forall k,
     findPin (switch a) k = option_map (set_eventsEnabled b) (findPin a k))
  /\ dispatch (switch a) = dispatch a
  /\ pinModeCalls (switch a) = pinModeCalls a
  /\ enableAllEvents (disableAllEvents a) = enableAllEvents a
  /\ disableAllEvents (enableAllEvents a) = disableAllEvents a
  /\ dispatch (update (disableAllEvents a) rd t)
     = processDelayedCallbacks t (dispatch a).
Proof.
  intro switch. split; [|split; [|split; [|split; [|split]]]].
  - intro k. subst switch. destruct b; unfold findPin; simpl;
      now apply findPinIn_map_setter.
  - subst switch. now destruct b.
  - subst switch. now destruct b.
  - unfold enableAllEvents, disableAllEvents. simpl. now rewrite map_map.
  - unfold enableAllEvents, disableAllEvents. simpl. now rewrite map_map.
  - unfold update.
    pose proof (updatePins_all_disabled
                  (pinList (disableAllEvents a)) rd t
                  (dispatch (disableAllEvents a))) as H.
    destruct (updatePins (pinList (disableAllEvents a)) rd t
                (dispatch (disableAllEvents a))) as [l d].
    simpl in *. rewrite H; [reflexivity|].
    apply Forall_forall. intros p Hp.
    apply in_map_iff in Hp as (q & <- & _). reflexivity.
Qed.

(** ** What the events of a tick carry *)

Lemma EveryRaised_noDispatch Q : EveryRaised Q noDispatch.
Proof. split; constructor. Qed.

Lemma EveryRaised_dappend Q d d' :
  EveryRaised Q d -> EveryRaised Q d' -> EveryRaised Q (dappend d d').
Proof.
  intros [H1 H2] [H3 H4]. split; simpl; apply Forall_app; now split.
Qed.

Lemma EveryRaised_impl (Q Q' : Raised -> Prop) d :
  (forall r, Q r -> Q' r) -> EveryRaised Q d -> EveryRaised Q' d.
Proof.
  intros H [H1 H2]. split.
  - eapply Forall_impl; [|exact H1]. simpl. auto.
  - eapply Forall_impl; [|exact H2]. simpl. intros c (? & ? & ?). auto.
Qed.

Lemma EveryRaised_trigger Q c k n o e t dl :
  (forall c', c = Some c' -> Q (mkRaised c' k n o e t dl)) ->
  EveryRaised Q (triggerCallback c k n o e t dl noDispatch).
Proof.
  intro H. unfold triggerCallback. destruct c as [c'|];
    [|apply EveryRaised_noDispatch].
  specialize (H c' eq_refl).
  destruct (Z.eqb_spec dl 0) as [E|N]; split; simpl; repeat constructor;
    auto. unfold raisedOfCall. simpl. now rewrite <- E.
Qed.

Lemma payload_config cfg cfg' old new t r :
  sameConfig cfg cfg' -> payload cfg' old new t r -> payload cfg old new t r.
Proof.
  intros C (H1 & H2 & H3 & H4 & H5 & H6 & H7).
  assert (Cb : callbackFor cfg' (r_event r) = callbackFor cfg (r_event r))
    by (destruct (r_event r); apply C).
  assert (Dl : delayFor cfg' (r_event r) = delayFor cfg (r_event r))
    by (destruct (r_event r); apply C).
  unfold payload.
  rewrite <- Cb, <- Dl, <- (sc_eventsEnabled _ _ C), <- (sc_pin _ _ C).
  repeat split; assumption.
Qed.

Lemma and_true_low q c :
  PinState_eqb (currentState q) PIN_LOW && c = true ->
  currentState q = PIN_LOW.
Proof. intro H. apply andb_prop in H as [H _]. now apply PinState_eqb_eq. Qed.

Lemma checkLongPress_payload q t old :
  eventsEnabled q = true ->
  EveryRaised (payload q old (currentState q) t)
    (snd (checkLongPress q t noDispatch)).
Proof.
  intro En. unfold checkLongPress.
  destruct (PinState_eqb (currentState q) PIN_LOW
            && negb (is_null (onLongPressCallback q))) eqn:E1;
    [|apply EveryRaised_noDispatch].
  apply and_true_low in E1.
  split_ifs; simpl; try apply EveryRaised_noDispatch.
  apply EveryRaised_trigger. intros c' Hc.
  unfold payload; simpl; repeat split; auto.
Qed.

Lemma singlePress_payload q t old :
  eventsEnabled q = true -> currentState q = PIN_HIGH ->
  EveryRaised (payload q old (currentState q) t)
    (triggerSinglePress q t noDispatch).
Proof.
  intros En Hc. apply EveryRaised_trigger. intros c' Hcb.
  unfold payload; simpl; repeat split; auto.
Qed.

Lemma checkClick_payload q t old :
  eventsEnabled q = true ->
  EveryRaised (payload q old (currentState q) t)
    (snd (checkClick q t noDispatch)).
Proof.
  intro En. unfold checkClick.
  destruct (PinState_eqb (currentState q) PIN_HIGH) eqn:E1;
    [|apply EveryRaised_noDispatch].
  apply PinState_eqb_eq in E1.
  split_ifs; simpl; try apply EveryRaised_noDispatch;
    try (now apply singlePress_payload).
  apply EveryRaised_trigger. intros c' Hcb.
  unfold payload; simpl; repeat split; auto.
Qed.

Lemma checkSinglePressTimeout_payload q t old :
  eventsEnabled q = true ->
  EveryRaised (payload q old (currentState q) t)
    (snd (checkSinglePressTimeout q t noDispatch)).
Proof.
  intro En. unfold checkSinglePressTimeout.
  destruct (PinState_eqb (currentState q) PIN_HIGH) eqn:E1;
    [|apply EveryRaised_noDispatch].
  apply PinState_eqb_eq in E1.
  split_ifs; simpl; try apply EveryRaised_noDispatch.
  now apply singlePress_payload.
Qed.

Lemma checkLongPress_sameSample p t d :
  sameSample p (fst (checkLongPress p t d)).
Proof. unfold checkLongPress. split_ifs; now constructor. Qed.

Lemma checkClick_sameSample p t d : sameSample p (fst (checkClick p t d)).
Proof. unfold checkClick. split_ifs; now constructor. Qed.

Lemma detectButtonGestures_payload q t old :
  EveryRaised (payload q old (currentState q) t)
    (snd (detectButtonGestures q t noDispatch)).
Proof.
  destruct (eventsEnabled q) eqn:En;
    [|rewrite detectButtonGestures_disabled by exact En;
      apply EveryRaised_noDispatch].
  rewrite (detectButtonGestures_split q t En). simpl.
  pose proof (checkLongPress_sameConfig q t noDispatch) as C1.
  pose proof (checkLongPress_sameSample q t noDispatch) as S1.
  set (q1 := fst (checkLongPress q t noDispatch)) in *.
  pose proof (checkClick_sameConfig q1 t noDispatch) as C2.
  pose proof (checkClick_sameSample q1 t noDispatch) as S2.
  set (q2 := fst (checkClick q1 t noDispatch)) in *.
  assert (En1 : eventsEnabled q1 = true)
    by now rewrite (sc_eventsEnabled _ _ C1).
  assert (En2 : eventsEnabled q2 = true)
    by now rewrite (sc_eventsEnabled _ _ C2).
  apply EveryRaised_dappend; [now apply checkLongPress_payload|].
  apply EveryRaised_dappend.
  - apply (EveryRaised_impl (payload q1 old (currentState q1) t)).
    + intros r H. rewrite (ss_currentState _ _ S1) in H.
      now apply (payload_config q q1).
    + now apply checkClick_payload.
  - apply (EveryRaised_impl (payload q2 old (currentState q2) t)).
    + intros r H.
      rewrite (ss_currentState _ _ S2), (ss_currentState _ _ S1) in H.
      apply (payload_config q q2); eauto using sameConfig_trans.
    + now apply checkSinglePressTimeout_payload.
Qed.

Lemma triggerEdges_payload q prev t :
  currentState q <> prev ->
  EveryRaised (payload q prev (currentState q) t)
    (triggerEdges q prev t noDispatch).
Proof.
  intro Hne. unfold triggerEdges.
  destruct (eventsEnabled q) eqn:En; [|apply EveryRaised_noDispatch].
  assert (T1 : forall d,
            EveryRaised (payload q prev (currentState q) t) d ->
            EveryRaised (payload q prev (currentState q) t)
              (if negb (is_null (onChangeCallback q))
               then triggerCallback (onChangeCallback q) (pin q)
                      (currentState q) prev EVENT_CHANGE t
                      (onChangeDelay q) d
               else d)).
  { intros d Hd. destruct (negb _); [|exact Hd].
    rewrite triggerCallback_frame. apply EveryRaised_dappend; [exact Hd|].
    apply EveryRaised_trigger. intros c' Hc.
    unfold payload; simpl; repeat split; auto. }
  assert (T2 : forall d,
            EveryRaised (payload q prev (currentState q) t) d ->
            EveryRaised (payload q prev (currentState q) t)
              (if PinState_eqb (currentState q) PIN_HIGH
                  && PinState_eqb prev PIN_LOW
                  && negb (is_null (onRisingCallback q))
               then triggerCallback (onRisingCallback q) (pin q)
                      (currentState q) prev EVENT_RISING t
                      (onRisingDelay q) d
               else d)).
  { intros d Hd.
    destruct (PinState_eqb (currentState q) PIN_HIGH
              && PinState_eqb prev PIN_LOW
              && negb (is_null (onRisingCallback q))) eqn:E; [|exact Hd].
    apply andb_prop in E as [E _]. apply andb_prop in E as [E1 E2].
    apply PinState_eqb_eq in E1, E2.
    rewrite triggerCallback_frame. apply EveryRaised_dappend; [exact Hd|].
    apply EveryRaised_trigger. intros c' Hc.
    unfold payload; simpl; repeat split; auto. }
  assert (T3 : forall d,
            EveryRaised (payload q prev (currentState q) t) d ->
            EveryRaised (payload q prev (currentState q) t)
              (if PinState_eqb (currentState q) PIN_LOW
                  && PinState_eqb prev PIN_HIGH
                  && negb (is_null (onFallingCallback q))
               then triggerCallback (onFallingCallback q) (pin q)
                      (currentState q) prev EVENT_FALLING t
                      (onFallingDelay q) d
               else d)).
  { intros d Hd.
    destruct (PinState_eqb (currentState q) PIN_LOW
              && PinState_eqb prev PIN_HIGH
              && negb (is_null (onFallingCallback q))) eqn:E; [|exact Hd].
    apply andb_prop in E as [E _]. apply andb_prop in E as [E1 E2].
    apply PinState_eqb_eq in E1, E2.
    rewrite triggerCallback_frame. apply EveryRaised_dappend; [exact Hd|].
    apply EveryRaised_trigger. intros c' Hc.
    unfold payload; simpl; repeat split; auto. }
  apply T3, T2, T1, EveryRaised_noDispatch.
Qed.

Lemma debounce_payload p raw t :
  EveryRaised
    (payload p (currentState p)
       (currentState (fst (debounce p raw t noDispatch))) t)
    (snd (debounce p raw t noDispatch)).
Proof.
  unfold debounce.
  set (p0 := if negb (Level_to_int raw =? PinState_to_int (lastState p))
             then set_lastDebounceTime t p else p).
  assert (C0 : sameConfig p p0)
    by (unfold p0; destruct (negb _); now constructor).
  assert (S0 : currentState p0 = currentState p)
    by (unfold p0; now destruct (negb _)).
  destruct (debounceTime p0 <? usub t (lastDebounceTime p0));
    [|apply EveryRaised_noDispatch].
  destruct (negb (Level_to_int raw =? PinState_to_int (currentState p0)))
    eqn:D; [|apply EveryRaised_noDispatch].
  apply differs_int in D. rewrite S0 in D.
  destruct (PinState_eqb (currentState
              (set_currentState (PinState_of_Level raw) p0)) PIN_LOW
            && PinState_eqb (currentState p0) PIN_HIGH).
  - pose proof (triggerEdges_payload
                  (set_clickCount (clickCount p0 + 1)
                     (set_pressStartTime t
                        (set_currentState (PinState_of_Level raw) p0)))
                  (currentState p) t D) as H.
    rewrite S0. simpl fst. simpl snd.
    eapply EveryRaised_impl; [|exact H].
    intros r Hr. eapply payload_config; [|exact Hr].
    destruct C0; now constructor.
  - pose proof (triggerEdges_payload
                  (set_currentState (PinState_of_Level raw) p0)
                  (currentState p) t D) as H.
    rewrite S0. simpl fst. simpl snd.
    eapply EveryRaised_impl; [|exact H].
    intros r Hr. eapply payload_config; [|exact Hr].
    destruct C0; now constructor.
Qed.

Lemma pinRaised_payload p raw t :
  EveryRaised
    (payload p (currentState p) (currentState (pinNext p raw t)) t)
    (pinRaised p raw t).
Proof.
  destruct (updatePin_split p raw t) as [En Er]. rewrite En, Er.
  pose proof (debounce_fields p raw t noDispatch) as (C & _).
  set (p1 := fst (debounce p raw t noDispatch)) in *.
  destruct (detectButtonGestures_keeps p1 t noDispatch) as [_ S].
  rewrite (ss_currentState _ _ S).
  apply EveryRaised_dappend; [apply debounce_payload|].
  eapply EveryRaised_impl;
    [|apply (detectButtonGestures_payload p1 t (currentState p))].
  intros r Hr. now apply (payload_config p p1).
Qed.

(** The events of one pin in one tick.  [updatePin] only appends to the
    call log and to the deferred queue.  Every event it raises is for a
    pin with events enabled, goes to the callback registered for its
    kind, carries the pin's number, the time of the tick and the
    debounced level after the tick; an edge event carries the level
    before the tick, which differs from the new one (LOW to HIGH for
    RISING, HIGH to LOW for FALLING); a gesture event carries the
    present level twice, HIGH for the click events and LOW for the long
    press.  An event is called at once exactly when the delay of its
    kind is 0, and is queued otherwise, not executed, with that delay. *)
Theorem tick_event_payload
    (p : PinInfo) (raw : Level) (t : Z) (d : Dispatch) :
  let p' := fst (updatePin p raw t d) in
  let d' := snd (updatePin p raw t d) in
  exists calls entries,
    invoked d' = invoked d ++ calls
    /\ delayedCallbacks d' = delayedCallbacks d ++ entries
    /\ Forall (fun i =>
                 payload p (currentState p) (currentState p') t
                   (raisedOfCall i))
         calls
    /\ Forall (fun c =>
                 payload p (currentState p) (currentState p') t
                   (raisedOfEntry c)
                 /\ dc_executed c = false /\ dc_delayMs c <> 0)
         entries.
Proof.
  intros p' d'. subst p' d'. rewrite updatePin_frame. simpl.
  exists (invoked (pinRaised p raw t)),
         (delayedCallbacks (pinRaised p raw t)).
  destruct (pinRaised_payload p raw t) as [H1 H2].
  repeat split; assumption.
Qed.

(** ** The deferred queue *)

Lemma pinsRaised_pending l rd t :
  Forall pending (delayedCallbacks (pinsRaised l rd t)).
Proof.
  induction l as [|p l IH]; simpl; [constructor|].
  apply Forall_app. split; [|exact IH].
  destruct (pinRaised_payload p (rd (pin p)) t) as [_ H].
  eapply Forall_impl; [|exact H]. intros c (_ & ? & ?). now split.
Qed.

Lemma update_dispatch a rd t :
  dispatch (update a rd t)
  = processDelayedCallbacks t
      (dappend (dispatch a) (pinsRaised (pinList a) rd t)).
Proof. unfold update. now rewrite updatePins_frame. Qed.

Lemma processDelayedCallbacks_filter t d :
  processDelayedCallbacks t d
  = mkDispatch (filter (fun c => negb (isReady t c)) (delayedCallbacks d))
      (invoked d ++ map (fire t) (filter (isReady t) (delayedCallbacks d))).
Proof. unfold processDelayedCallbacks. now rewrite scanDelayed_filter. Qed.

Lemma Forall_filter_keep {A} (P : A -> Prop) f (l : list A) :
  Forall P l -> Forall P (filter f l).
Proof.
  intro H. apply Forall_forall. intros x Hx. apply filter_In in Hx as [Hx _].
  revert x Hx. now apply Forall_forall.
Qed.

Lemma withPin_dispatch a k f : dispatch (snd (withPin a k f)) = dispatch a.
Proof. unfold withPin. now destruct (findPin a k). Qed.

(** The deferred queue of the object.  Whatever sequence of public
    operations built the object, every entry in its queue is one not yet
    executed with a delay other than 0: the [executed] flag tested by
    [processDelayedCallbacks] is never set on a stored entry, so an
    entry is due exactly when its delay has elapsed since its timestamp
    (modulo 2^32). *)
Theorem queue_entries_pending (a : AvantDigitalRead) :
  Reachable a ->
  Forall pending (delayedCallbacks (dispatch a))
  /\ forall t c,
       In c (delayedCallbacks (dispatch a)) ->
       isReady t c = (dc_delayMs c <=? usub t (dc_timestamp c)).
Proof.
  intro R.
  assert (H : Forall pending (delayedCallbacks (dispatch a))).
  { induction R as [|a k m r R IH|a k R IH|a k s R IH|a R IH|a R IH
                    |a rd t R IH].
    - constructor.
    - unfold addPin. now destruct (findPin a k).
    - unfold removePin. now destruct (erasePin (pinList a) k).
    - rewrite applySetter_withPin, withPin_dispatch. exact IH.
    - exact IH.
    - exact IH.
    - rewrite update_dispatch, processDelayedCallbacks_filter. simpl.
      apply Forall_filter_keep, Forall_app. split; [exact IH|].
      apply pinsRaised_pending. }
  split; [exact H|].
  intros t c Hc. unfold isReady.
  rewrite Forall_forall in H. destruct (H c Hc) as [-> _]. reflexivity.
Qed.

Lemma threePins_Reachable : Reachable threePins.
Proof.
  unfold threePins.
  apply (Reachable_setter _ 4 (OnChange (Some 9%nat) 40)).
  apply Reachable_addPin, twoPins_Reachable.
Qed.

Lemma queue_entries_pending_witness :
  let a := update (update threePins (fun _ => HIGH) 100) (fun _ => HIGH) 200 in
  Forall pending (delayedCallbacks (dispatch a))
  /\ length (delayedCallbacks (dispatch a)) = 1%nat.
Proof.
  split; [|vm_compute; reflexivity].
  exact (proj1 (queue_entries_pending _
                  (Reachable_update _ (fun _ => HIGH) 200
                     (Reachable_update _ (fun _ => HIGH) 100
                        threePins_Reachable)))).
Defined.

Lemma pinsRaised_not_ready l rd t :
  Forall delaysUnsigned l ->
  Forall (fun c => isReady t c = false)
    (delayedCallbacks (pinsRaised l rd t)).
Proof.
  induction 1 as [|p l Hp Hl IH]; simpl; [constructor|].
  apply Forall_app. split; [|exact IH].
  destruct (pinRaised_payload p (rd (pin p)) t) as [_ H].
  eapply Forall_impl; [|exact H].
  intros c ((_ & _ & Hd & _ & Ht & _) & Hx & Hn). simpl in Hd, Ht.
  unfold isReady. rewrite Hx, Ht, usub_same. simpl.
  specialize (Hp (dc_event c)). apply Z.leb_gt. lia.
Qed.

Lemma filter_all_false {A} (f : A -> bool) (l : list A) :
  Forall (fun x => f x = false) l -> filter f l = [].
Proof.
  induction 1 as [|x l Hx Hl IH]; simpl; [reflexivity|]. now rewrite Hx.
Qed.

Lemma filter_all_true {A} (f : A -> bool) (l : list A) :
  Forall (fun x => f x = true) l -> filter f l = l.
Proof.
  induction 1 as [|x l Hx Hl IH]; simpl; [reflexivity|].
  now rewrite Hx, IH.
Qed.

(** The order of one [update].  With delays that are [unsigned long]
    values, an event queued in a tick is never called in that tick: the
    queue after [update] is what was not due of the old queue, in its
    order, followed by everything the pins queued in this tick.  The
    calls of the tick are first the undelayed events of the pins, in
    registry order, then the due entries of the old queue, in queue
    order. *)
Theorem update_order
    (a : AvantDigitalRead) (rd : Z -> Level) (t : Z) :
  Forall delaysUnsigned (pinList a) ->
  let raisedNow := pinsRaised (pinList a) rd t in
  let old := delayedCallbacks (dispatch a) in
  delayedCallbacks (dispatch (update a rd t))
  = filter (fun c => negb (isReady t c)) old ++ delayedCallbacks raisedNow
  /\ invoked (dispatch (update a rd t))
     = invoked (dispatch a) ++ invoked raisedNow
       ++ map (fire t) (filter (isReady t) old).
Proof.
  intros U raisedNow old. subst raisedNow old.
  pose proof (pinsRaised_not_ready _ rd t U) as N.
  rewrite update_dispatch, processDelayedCallbacks_filter. simpl.
  rewrite !filter_app, (filter_all_false _ _ N), app_nil_r, <- app_assoc.
  split; [|reflexivity]. f_equal.
  apply filter_all_true. eapply Forall_impl; [|exact N].
  simpl. now intros c ->.
Qed.

Lemma afterFirstTick_delaysUnsigned :
  Forall delaysUnsigned (pinList (update threePins (fun _ => HIGH) 100)).
Proof.
  match goal with
  | |- Forall ?P ?l =>
      let l' := eval vm_compute in l in change (Forall P l')
  end.
  repeat (apply Forall_cons; [intros []; vm_compute; discriminate|]).
  apply Forall_nil.
Qed.

Lemma update_order_witness :
  let a := update threePins (fun _ => HIGH) 100 in
  let rd := fun _ : Z => HIGH in
  let raisedNow := pinsRaised (pinList a) rd 200 in
  let old := delayedCallbacks (dispatch a) in
  (delayedCallbacks (dispatch (update a rd 200))
   = filter (fun c => negb (isReady 200 c)) old ++ delayedCallbacks raisedNow
   /\ invoked (dispatch (update a rd 200))
      = invoked (dispatch a) ++ invoked raisedNow
        ++ map (fire 200) (filter (isReady 200) old))
  /\ length (delayedCallbacks raisedNow) = 1%nat.
Proof.
  split; [|vm_compute; reflexivity].
  exact (update_order (update threePins (fun _ => HIGH) 100)
           (fun _ => HIGH) 200 afterFirstTick_delaysUnsigned).
Defined.

Lemma filter_filter_negb {A} (f : A -> bool) (l : list A) :
  filter f (filter (fun x => negb (f x)) l) = []
  /\ filter (fun x => negb (f x)) (filter (fun x => negb (f x)) l)
     = filter (fun x => negb (f x)) l.
Proof.
  induction l as [|x l [IH1 IH2]]; simpl; [now split|].
  destruct (f x) eqn:E; simpl; rewrite ?E; simpl; [now split|].
  split; [exact IH1|now rewrite IH2].
Qed.

Lemma filter_partition_length {A} (f : A -> bool) (l : list A) :
  (length (filter f l) + length (filter (fun x => negb (f x)) l))%nat
  = length l.
Proof.
  induction l as [|x l IH]; simpl; [reflexivity|].
  destruct (f x); simpl; lia.
Qed.

(** Draining the queue.  [processDelayedCallbacks] calls the due
    entries in queue order after the calls already made, and keeps the
    others in their order; nothing is lost or duplicated, so the number
    of events raised for any pin and kind is unchanged; every call it
    makes passes the time of the drain as timestamp and the pin, levels
    and event kind stored in its entry; and a second drain at the same
    time does nothing. *)
Theorem drain_queue (t : Z) (d : Dispatch) :
  let d' := processDelayedCallbacks t d in
  let due := filter (isReady t) (delayedCallbacks d) in
  delayedCallbacks d'
  = filter (fun c => negb (isReady t c)) (delayedCallbacks d)
  /\ invoked d' = invoked d ++ map (fire t) due
  /\ (length (delayedCallbacks d') + length (invoked d')
      = length (delayedCallbacks d) + length (invoked d))%nat
  /\ (forall k e, raisedIn k e d' = raisedIn k e d)
  /\ Forall (fun i => iv_timestamp i = t) (map (fire t) due)
  /\ map raisedOfCall (map (fire t) due)
     = map (fun c => mkRaised (dc_callback c) (dc_pin c) (dc_newState c)
                       (dc_oldState c) (dc_event c) t 0) due
  /\ processDelayedCallbacks t d' = d'.
Proof.
  intros d' due. subst d' due.
  rewrite processDelayedCallbacks_filter. simpl.
  split; [reflexivity|]. split; [reflexivity|]. split; [|split; [|split]].
  - rewrite length_app, length_map.
    pose proof (filter_partition_length (isReady t) (delayedCallbacks d)).
    lia.
  - intros k e. rewrite <- (raisedIn_processDelayedCallbacks k e t d).
    now rewrite processDelayedCallbacks_filter.
  - apply Forall_forall. intros i Hi. apply in_map_iff in Hi as (c & <- & _).
    reflexivity.
  - split; [now rewrite map_map|].
    rewrite processDelayedCallbacks_filter. simpl.
    destruct (filter_filter_negb (isReady t) (delayedCallbacks d))
      as [-> ->].
    simpl. now rewrite app_nil_r.
Qed.

(** ** Pins do not interfere *)

(** What a pin does over a run of ticks depends only on its own record
    and on its own readings: in two registries that hold the same record
    for the pin, run over ticks that agree on the times and on the
    levels of that pin, the pin ends with the same record, [readPin]
    returns the same levels after each tick, and the same number of
    events of each kind is raised for it. *)
Theorem pin_independence
    (a b : AvantDigitalRead) (ticks ticks' : list Tick) (k : Z)
    (p : PinInfo) :
  registry_ok a -> registry_ok b ->
  findPin a k = Some p -> findPin b k = Some p ->
  ticksOf k ticks = ticksOf k ticks' ->
  findPin (run a ticks) k = findPin (run b ticks') k
  /\ readings a k ticks = readings b k ticks'
  /\ forall e, fired a (run a ticks) k e = fired b (run b ticks') k e.
Proof.
  intros Na Nb Fa Fb E.
  destruct (run_pin_view a ticks k p Na Fa) as (_ & Ra & _).
  destruct (run_pin_view b ticks' k p Nb Fb) as (_ & Rb & _).
  split; [now rewrite Ra, Rb, E|]. split.
  - now rewrite (readings_levels a k p), (readings_levels b k p), E.
  - intro e. now rewrite (fired_run a ticks k p), (fired_run b ticks' k p), E.
Qed.

Lemma twoPins_ok : registry_ok twoPins.
Proof. registry_by_evaluation. Qed.

Lemma pin_independence_witness :
  let a := twoPins in
  let b := threePins in
  let ticks := allRead [(100, LOW); (200, LOW)] in
  let ticks' :=
    [(100, fun k => if k =? 2 then LOW else HIGH);
     (200, fun k => if k =? 2 then LOW else HIGH)] in
  findPin (run a ticks) 2 = findPin (run b ticks') 2
  /\ readings a 2 ticks = readings b 2 ticks'
  /\ forall e, fired a (run a ticks) 2 e = fired b (run b ticks') 2 e.
Proof.
  refine (pin_independence twoPins threePins _ _ 2 (recordOf twoPins 2)
            twoPins_ok threePins_ok _ _ _); vm_compute; reflexivity.
Defined.

(** ** Releases the click classifier does not count *)

Lemma released_after_debounce p raw t :
  currentState (pinNext p raw t) = PIN_HIGH ->
  let q := fst (debounce p raw t noDispatch) in
  sameConfig p q /\ currentState q = PIN_HIGH
  /\ pressStartTime q = pressStartTime p
  /\ clickCount q = clickCount p
  /\ lastClickTime q = lastClickTime p.
Proof.
  intros H q. subst q.
  destruct (debounce_fields p raw t noDispatch)
    as (C & Hlc & _ & _ & _ & Hcur & Hps & Hcc).
  rewrite pinNext_currentState in H.
  assert (PA : pressAccepted p raw t = false).
  { unfold pressAccepted. destruct (accepts p raw t); [|reflexivity].
    now rewrite H. }
  rewrite PA in Hps, Hcc. rewrite H in Hcur.
  split; [exact C|]. repeat split; assumption.
Qed.

Lemma gestures_long_release q t s :
  eventsEnabled q = true -> currentState q = PIN_HIGH ->
  pressStartTime q = s -> 0 < s -> maxPressMs q < usub t s ->
  let q' := fst (detectButtonGestures q t noDispatch) in
  let d' := snd (detectButtonGestures q t noDispatch) in
  clickCount q' = 0 /\ pressStartTime q' = 0
  /\ lastClickTime q' = lastClickTime q
  /\ forall k e, raisedIn k e d' = 0%nat.
Proof.
  intros En Hc Hps Hs Hdur q' d'. subst q' d'.
  assert (B1 : (0 <? s) = true) by (apply Z.ltb_lt; lia).
  assert (B3 : (usub t s <=? maxPressMs q) = false)
    by (apply Z.leb_gt; lia).
  assert (B6 : (maxPressMs q <? usub t s) = true) by (apply Z.ltb_lt; lia).
  unfold detectButtonGestures, checkLongPress. rewrite En, Hc. simpl.
  unfold checkClick. simpl. rewrite Hc, Hps, B1, B3, andb_false_r, B6. simpl.
  unfold checkSinglePressTimeout. simpl. rewrite Hc. simpl.
  repeat split; auto.
Qed.

Lemma gestures_short_release q t s :
  eventsEnabled q = true -> currentState q = PIN_HIGH ->
  pressStartTime q = s -> 0 < s ->
  usub t s < minPressMs q -> usub t s <= maxPressMs q ->
  let q' := fst (detectButtonGestures q t noDispatch) in
  let d' := snd (detectButtonGestures q t noDispatch) in
  pressStartTime q' = 0
  /\ lastClickTime q' = lastClickTime q
  /\ clickCount q' = (if waitExpired q t then 0 else clickCount q)
  /\ forall k e,
      raisedIn k e d'
      = if waitExpired q t && negb (is_null (onSinglePressCallback q))
           && (pin q =? k) && EventType_eqb EVENT_SINGLE_PRESS e
        then 1%nat else 0%nat.
Proof.
  intros En Hc Hps Hs Hmin Hmax q' d'. subst q' d'.
  assert (B1 : (0 <? s) = true) by (apply Z.ltb_lt; lia).
  assert (B2 : (minPressMs q <=? usub t s) = false)
    by (apply Z.leb_gt; lia).
  assert (B6 : (maxPressMs q <? usub t s) = false) by (apply Z.ltb_ge; lia).
  unfold detectButtonGestures, checkLongPress. rewrite En, Hc. simpl.
  unfold checkClick. simpl. rewrite Hc, Hps, B1, B2, B6. simpl.
  unfold checkSinglePressTimeout, waitExpired. simpl. rewrite Hc. simpl.
  rewrite andb_true_r.
  destruct (clickCount q =? 1); simpl;
    [destruct (is_null (onDoublePressCallback q)); simpl|];
    [| destruct (maxIntervalMs q <? usub t (lastClickTime q)); simpl |];
    repeat split; auto; intros k e; rewrite ?raisedIn_noDispatch; auto.
  destruct (is_null (onSinglePressCallback q)) eqn:S1; simpl;
    [now rewrite raisedIn_noDispatch|].
  unfold triggerSinglePress. simpl. rewrite raisedIn_trigger, S1. reflexivity.
Qed.

(** Release of a press held too long.  When a pin with events enabled
    is at the released level after a tick, a press is on record and it
    lasted longer than [maxPressMs] (modulo 2^32), the tick discards the
    whole click sequence: the click count is 0 and the press record is
    cleared, the time of the last click is kept, and no gesture event is
    raised for the pin in that tick. *)
Theorem too_long_press_release
    (p : PinInfo) (raw : Level) (t : Z) (d : Dispatch) :
  eventsEnabled p = true ->
  currentState (fst (updatePin p raw t d)) = PIN_HIGH ->
  0 < pressStartTime p ->
  maxPressMs p < usub t (pressStartTime p) ->
  let p' := fst (updatePin p raw t d) in
  let d' := snd (updatePin p raw t d) in
  clickCount p' = 0 /\ pressStartTime p' = 0
  /\ lastClickTime p' = lastClickTime p
  /\ forall e, isEdge e = false ->
       raisedIn (pin p) e d' = raisedIn (pin p) e d.
Proof.
  intros En Hh Hs Hd p' d'. subst p' d'.
  rewrite updatePin_frame in *. simpl fst in *. simpl snd.
  destruct (released_after_debounce p raw t Hh)
    as (C & Hc & Hps & Hcc & Hlc).
  destruct (updatePin_split p raw t) as [E1 E2].
  set (q := fst (debounce p raw t noDispatch)) in *.
  assert (Enq : eventsEnabled q = true)
    by now rewrite (sc_eventsEnabled _ _ C).
  destruct (gestures_long_release q t (pressStartTime p) Enq Hc Hps Hs)
    as (G1 & G2 & G3 & G4); [now rewrite (sc_maxPressMs _ _ C)|].
  rewrite E1, E2.
  split; [exact G1|]. split; [exact G2|]. split; [congruence|].
  intros e He. rewrite !raisedIn_dappend, G4.
  rewrite (debounce_no_gestures p raw t (pin p) e He). lia.
Qed.

(** Release of a press that was too short.  When a pin with events
    enabled is at the released level after a tick, a press is on record
    and it lasted less than [minPressMs] (and no more than
    [maxPressMs]), the click block only clears the press record: the
    click count that the press raised is kept and no DOUBLE_PRESS is
    raised.  The timeout block of the same tick then runs on that
    count: when it is 1, a double-press callback is registered and the
    last click time is more than [maxIntervalMs] back, the count is
    reset to 0 and the too short press is reported as SINGLE_PRESS (if
    a single-press callback is registered). *)
Theorem too_short_press_release
    (p : PinInfo) (raw : Level) (t : Z) (d : Dispatch) :
  eventsEnabled p = true ->
  currentState (fst (updatePin p raw t d)) = PIN_HIGH ->
  0 < pressStartTime p ->
  usub t (pressStartTime p) < minPressMs p ->
  usub t (pressStartTime p) <= maxPressMs p ->
  let p' := fst (updatePin p raw t d) in
  let d' := snd (updatePin p raw t d) in
  pressStartTime p' = 0
  /\ lastClickTime p' = lastClickTime p
  /\ clickCount p' = (if waitExpired p t then 0 else clickCount p)
  /\ raisedIn (pin p) EVENT_DOUBLE_PRESS d'
     = raisedIn (pin p) EVENT_DOUBLE_PRESS d
  /\ raisedIn (pin p) EVENT_SINGLE_PRESS d'
     = (raisedIn (pin p) EVENT_SINGLE_PRESS d
        + if waitExpired p t && negb (is_null (onSinglePressCallback p))
          then 1 else 0)%nat.
Proof.
  intros En Hh Hs Hmin Hmax p' d'. subst p' d'.
  rewrite updatePin_frame in *. simpl fst in *. simpl snd.
  destruct (released_after_debounce p raw t Hh)
    as (C & Hc & Hps & Hcc & Hlc).
  destruct (updatePin_split p raw t) as [E1 E2].
  set (q := fst (debounce p raw t noDispatch)) in *.
  assert (Enq : eventsEnabled q = true)
    by now rewrite (sc_eventsEnabled _ _ C).
  destruct (gestures_short_release q t (pressStartTime p) Enq Hc Hps Hs)
    as (G1 & G2 & G3 & G4);
    [now rewrite (sc_minPressMs _ _ C)|now rewrite (sc_maxPressMs _ _ C)|].
  assert (W : waitExpired q t = waitExpired p t).
  { unfold waitExpired.
    now rewrite Hcc, Hlc, (sc_onDoublePress _ _ C), (sc_maxIntervalMs _ _ C). }
  rewrite W in G3, G4. rewrite E1, E2.
  split; [exact G1|]. split; [congruence|].
  split; [now rewrite G3, Hcc|].
  rewrite !raisedIn_dappend, !G4.
  rewrite !(debounce_no_gestures p raw t (pin p)) by reflexivity.
  rewrite (sc_onSinglePress _ _ C), (sc_pin _ _ C), Z.eqb_refl. simpl.
  rewrite !andb_false_r, !andb_true_r. split; lia.
Qed.

(** ** Click counts that are never reported *)

Lemma checkClick_unreported q t :
  unreported q ->
  (forall k e, raisedIn k e (snd (checkClick q t noDispatch)) = 0%nat)
  /\ sameConfig q (fst (checkClick q t noDispatch))
  /\ (unreported (fst (checkClick q t noDispatch))
      \/ (clickCount (fst (checkClick q t noDispatch)) = 0
          /\ currentState q = PIN_HIGH /\ 0 < pressStartTime q
          /\ maxPressMs q < usub t (pressStartTime q))).
Proof.
  intro U. split; [|split; [apply checkClick_sameConfig|]].
  - intros k e. unfold checkClick.
    destruct (PinState_eqb (currentState q) PIN_HIGH);
      [|apply raisedIn_noDispatch].
    destruct (0 <? pressStartTime q); [|apply raisedIn_noDispatch].
    destruct ((minPressMs q <=? usub t (pressStartTime q))
              && (usub t (pressStartTime q) <=? maxPressMs q));
      [|destruct (maxPressMs q <? usub t (pressStartTime q));
        apply raisedIn_noDispatch].
    destruct (Z.eqb_spec (clickCount q) 2) as [E2|N2]; simpl.
    + destruct U as [U|[_ U]]; [lia|]. rewrite U. simpl.
      destruct (Z.eqb_spec (clickCount q) 1); [lia|].
      apply raisedIn_noDispatch.
    + destruct (Z.eqb_spec (clickCount q) 1) as [E1|N1];
        [destruct U as [U|[U _]]; lia|].
      apply raisedIn_noDispatch.
  - unfold checkClick.
    destruct (PinState_eqb (currentState q) PIN_HIGH) eqn:Hc;
      [|now left].
    apply PinState_eqb_eq in Hc.
    destruct (Z.ltb_spec 0 (pressStartTime q)) as [Hs|Hs]; [|now left].
    destruct ((minPressMs q <=? usub t (pressStartTime q))
              && (usub t (pressStartTime q) <=? maxPressMs q)).
    + left.
      destruct (Z.eqb_spec (clickCount q) 2) as [E2|N2]; simpl.
      * destruct U as [U|[U1 U]]; [lia|]. rewrite U. simpl.
        destruct (Z.eqb_spec (clickCount q) 1); [lia|].
        right. now split.
      * destruct (Z.eqb_spec (clickCount q) 1) as [E1|N1];
          [destruct U as [U|[U _]]; lia|].
        exact U.
    + destruct (Z.ltb_spec (maxPressMs q) (usub t (pressStartTime q)));
        [right; now repeat split|now left].
Qed.

Lemma checkSinglePressTimeout_noop q t :
  clickCount q <> 1 -> checkSinglePressTimeout q t noDispatch = (q, noDispatch).
Proof.
  intro N. unfold checkSinglePressTimeout.
  destruct (Z.eqb_spec (clickCount q) 1); [contradiction|].
  now rewrite andb_false_r.
Qed.

Lemma unreported_not_one q : unreported q -> clickCount q <> 1.
Proof. intros [U|[U _]]; lia. Qed.

Lemma unreported_config q q' :
  sameConfig q q' -> clickCount q <= clickCount q' ->
  unreported q -> unreported q'.
Proof.
  intros C Hle [U|[U1 U2]]; [left; lia|right].
  rewrite (sc_onDoublePress _ _ C). split; [lia|exact U2].
Qed.

Lemma gestures_unreported q t :
  unreported q ->
  let q' := fst (detectButtonGestures q t noDispatch) in
  let d' := snd (detectButtonGestures q t noDispatch) in
  (forall k e, e <> EVENT_LONG_PRESS -> raisedIn k e d' = 0%nat)
  /\ (unreported q'
      \/ (clickCount q' = 0 /\ currentState q = PIN_HIGH
          /\ 0 < pressStartTime q
          /\ maxPressMs q < usub t (pressStartTime q))).
Proof.
  intros U q' d'. subst q' d'.
  destruct (eventsEnabled q) eqn:En.
  2:{ rewrite detectButtonGestures_disabled by exact En. simpl.
      split; [intros; apply raisedIn_noDispatch|now left]. }
  rewrite (detectButtonGestures_split q t En). simpl.
  pose proof (checkLongPress_sameConfig q t noDispatch) as C1.
  pose proof (checkLongPress_sameClicks q t noDispatch) as S1.
  set (q1 := fst (checkLongPress q t noDispatch)) in *.
  assert (U1 : unreported q1).
  { apply (unreported_config q q1 C1); [|exact U].
    rewrite (sk_clickCount _ _ S1). lia. }
  destruct (checkClick_unreported q1 t U1) as (R2 & C2 & H2).
  set (q2 := fst (checkClick q1 t noDispatch)) in *.
  assert (N2 : clickCount q2 <> 1).
  { destruct H2 as [H2|[H2 _]]; [now apply unreported_not_one|lia]. }
  rewrite (checkSinglePressTimeout_noop q2 t N2). simpl. split.
  - intros k e Ne. rewrite !raisedIn_dappend, R2, raisedIn_noDispatch.
    rewrite (checkLongPress_kinds q t k e Ne). reflexivity.
  - destruct H2 as [H2|(H2 & H3 & H4 & H5)]; [now left|right].
    rewrite (sk_currentState _ _ S1), (sk_pressStartTime _ _ S1),
      (sc_maxPressMs _ _ C1) in *.
    now repeat split.
Qed.

(** A click count the classifier never reports.  While a pin's click
    count is 3 or more, or 2 or more with no double-press callback, no
    tick raises SINGLE_PRESS or DOUBLE_PRESS for it, whatever the
    readings and the times; and the count stays in that range until a
    tick that finds the pin released from a press longer than
    [maxPressMs], which resets it to 0. *)
Theorem unreported_click_count
    (p : PinInfo) (raw : Level) (t : Z) (d : Dispatch) :
  unreported p ->
  let p' := fst (updatePin p raw t d) in
  let d' := snd (updatePin p raw t d) in
  (forall k,
     raisedIn k EVENT_SINGLE_PRESS d' = raisedIn k EVENT_SINGLE_PRESS d
     /\ raisedIn k EVENT_DOUBLE_PRESS d' = raisedIn k EVENT_DOUBLE_PRESS d)
  /\ (unreported p'
      \/ (clickCount p' = 0 /\ currentState p' = PIN_HIGH
          /\ 0 < pressStartTime p
          /\ maxPressMs p < usub t (pressStartTime p))).
Proof.
  intros U p' d'. subst p' d'.
  rewrite updatePin_frame. simpl fst. simpl snd.
  destruct (updatePin_split p raw t) as [E1 E2].
  destruct (debounce_fields p raw t noDispatch)
    as (C & _ & _ & _ & _ & _ & _ & Hcc).
  pose proof (released_after_debounce p raw t) as Hrel.
  set (q := fst (debounce p raw t noDispatch)) in *.
  assert (Uq : unreported q).
  { apply (unreported_config p q C); [|exact U].
    rewrite Hcc. destruct (pressAccepted p raw t); lia. }
  destruct (gestures_unreported q t Uq) as (G1 & G2).
  destruct (detectButtonGestures_keeps q t noDispatch) as [_ S].
  split.
  - intro k. rewrite E2, !raisedIn_dappend.
    rewrite !(debounce_no_gestures p raw t k) by reflexivity.
    rewrite !G1 by discriminate. split; lia.
  - rewrite E1. destruct G2 as [G2|(G2 & G3 & G4 & G5)]; [now left|right].
    assert (Hh : currentState (pinNext p raw t) = PIN_HIGH)
      by (rewrite E1, (ss_currentState _ _ S); exact G3).
    destruct (Hrel Hh) as (_ & _ & Hps & _ & _).
    rewrite (ss_currentState _ _ S).
    rewrite Hps, (sc_maxPressMs _ _ C) in *. now repeat split.
Qed.

(** ** The three releases on concrete runs *)

Lemma too_long_press_release_witness :
  let p := recordOf longPressHeld 2 in
  let p' := fst (updatePin p HIGH 2060 noDispatch) in
  let d' := snd (updatePin p HIGH 2060 noDispatch) in
  (clickCount p' = 0 /\ pressStartTime p' = 0
   /\ lastClickTime p' = lastClickTime p
   /\ forall e, isEdge e = false ->
        raisedIn (pin p) e d' = raisedIn (pin p) e noDispatch)
  /\ clickCount p = 1 /\ usub 2060 (pressStartTime p) = 1000.
Proof.
  split; [|split; vm_compute; reflexivity].
  refine (too_long_press_release (recordOf longPressHeld 2) HIGH 2060
            noDispatch _ _ _ _); vm_compute; reflexivity.
Defined.

Lemma too_short_press_release_witness :
  let p := recordOf shortPressHeld 2 in
  let p' := fst (updatePin p HIGH 1160 noDispatch) in
  let d' := snd (updatePin p HIGH 1160 noDispatch) in
  (pressStartTime p' = 0
   /\ lastClickTime p' = lastClickTime p
   /\ clickCount p' = (if waitExpired p 1160 then 0 else clickCount p)
   /\ raisedIn (pin p) EVENT_DOUBLE_PRESS d'
      = raisedIn (pin p) EVENT_DOUBLE_PRESS noDispatch
   /\ raisedIn (pin p) EVENT_SINGLE_PRESS d'
      = (raisedIn (pin p) EVENT_SINGLE_PRESS noDispatch
         + if waitExpired p 1160
              && negb (is_null (onSinglePressCallback p))
           then 1 else 0)%nat)
  /\ usub 1160 (pressStartTime p) = 100 /\ minPressMs p = 200
  /\ raisedIn 2 EVENT_SINGLE_PRESS d' = 1%nat.
Proof.
  split; [|repeat split; vm_compute; reflexivity].
  refine (too_short_press_release (recordOf shortPressHeld 2) HIGH 1160
            noDispatch _ _ _ _ _);
    vm_compute; try reflexivity; discriminate.
Defined.

Lemma unreported_click_count_witness :
  let p := recordOf secondPressHeld 2 in
  let p' := fst (updatePin p HIGH 2360 noDispatch) in
  let d' := snd (updatePin p HIGH 2360 noDispatch) in
  ((forall k,
      raisedIn k EVENT_SINGLE_PRESS d'
      = raisedIn k EVENT_SINGLE_PRESS noDispatch
      /\ raisedIn k EVENT_DOUBLE_PRESS d'
         = raisedIn k EVENT_DOUBLE_PRESS noDispatch)
   /\ (unreported p'
       \/ (clickCount p' = 0 /\ currentState p' = PIN_HIGH
           /\ 0 < pressStartTime p
           /\ maxPressMs p < usub 2360 (pressStartTime p))))
  /\ clickCount p = 2 /\ usub 2360 (pressStartTime p) = 300
  /\ minPressMs p = 200 /\ maxPressMs p = 1000
  /\ is_null (onSinglePressCallback p) = false
  /\ currentState p' = PIN_HIGH /\ clickCount p' = 2.
Proof.
  split; [|repeat split; vm_compute; reflexivity].
  refine (unreported_click_count (recordOf secondPressHeld 2) HIGH 2360
            noDispatch _).
  right. split; vm_compute; [discriminate|reflexivity].
Defined.

(** ** What every registered record satisfies *)

Lemma twoValued_of_Level r : twoValued (PinState_of_Level r).
Proof. destruct r; [now left|now right]. Qed.

Lemma checkLongPress_clickCount p t d :
  clickCount (fst (checkLongPress p t d)) = clickCount p.
Proof. unfold checkLongPress. split_ifs; reflexivity. Qed.

Lemma checkClick_clickCount p t d :
  0 <= clickCount p -> 0 <= clickCount (fst (checkClick p t d)).
Proof. intro H. unfold checkClick. split_ifs; simpl; lia. Qed.

Lemma checkSinglePressTimeout_clickCount p t d :
  0 <= clickCount p -> 0 <= clickCount (fst (checkSinglePressTimeout p t d)).
Proof. intro H. unfold checkSinglePressTimeout. split_ifs; simpl; lia. Qed.

Lemma detectButtonGestures_clickCount p t d :
  0 <= clickCount p -> 0 <= clickCount (fst (detectButtonGestures p t d)).
Proof.
  intro H. unfold detectButtonGestures.
  destruct (negb (eventsEnabled p)); simpl; [exact H|].
  pose proof (checkLongPress_clickCount p t d) as H1.
  destruct (checkLongPress p t d) as [p1 d1]; simpl in *.
  pose proof (checkClick_clickCount p1 t d1) as H2.
  destruct (checkClick p1 t d1) as [p2 d2]; simpl in *.
  apply checkSinglePressTimeout_clickCount, H2. lia.
Qed.

Lemma pinNext_recordOk calls p raw t :
  recordOk calls p -> recordOk calls (pinNext p raw t).
Proof.
  intros (Hc & Hl & Hm & Hn).
  destruct (pinNext_sample p raw t) as (_ & Sl & _ & Sc).
  destruct (updatePin_split p raw t) as [E _].
  destruct (debounce_fields p raw t noDispatch)
    as (C & _ & _ & _ & _ & _ & _ & Hcc).
  set (q := fst (debounce p raw t noDispatch)) in *.
  destruct (detectButtonGestures_keeps q t noDispatch) as [C2 _].
  repeat split.
  - rewrite Sc. destruct (accepts p raw t);
      [apply twoValued_of_Level|exact Hc].
  - rewrite Sl. apply twoValued_of_Level.
  - rewrite pinNext_pin, E, (sc_mode _ _ C2), (sc_mode _ _ C). exact Hm.
  - rewrite E. apply detectButtonGestures_clickCount.
    rewrite Hcc. destruct (pressAccepted p raw t); lia.
Qed.

Lemma recordOk_calls calls calls' p :
  recordOk calls p -> recordOk (calls ++ calls') p.
Proof.
  intros (Hc & Hl & Hm & Hn). repeat split; auto.
  apply in_or_app. now left.
Qed.

Lemma Forall_erasePin (P : PinInfo -> Prop) l k l' :
  erasePin l k = Some l' -> Forall P l -> Forall P l'.
Proof.
  revert l'; induction l as [|q l IH]; intros l'; simpl; [discriminate|].
  intros E H. inversion H as [|? ? Hq Hl]; subst.
  destruct (pin q =? k); [now injection E as <-|].
  destruct (erasePin l k) as [l0|]; simpl in E; [|discriminate].
  injection E as <-. constructor; [exact Hq|now apply IH].
Qed.

Lemma Forall_storePin (P : PinInfo -> Prop) l k f :
  (forall p, P p -> P (f p)) -> Forall P l -> Forall P (storePin l k f).
Proof.
  intros Hf. induction 1 as [|q l Hq Hl IH]; simpl; [constructor|].
  destruct (pin q =? k); constructor; auto.
Qed.

Lemma findPinIn_Some_In l k p : findPinIn l k = Some p -> In p l.
Proof.
  induction l as [|q l IH]; simpl; [discriminate|].
  destruct (pin q =? k); [intros [= <-]; now left|right; now apply IH].
Qed.

Lemma Reachable_recordOk a :
  Reachable a -> Forall (recordOk (pinModeCalls a)) (pinList a).
Proof.
  induction 1 as [|a k m r _ IH|a k _ IH|a k s _ IH|a _ IH|a _ IH
                  |a rd t _ IH].
  - constructor.
  - unfold addPin. destruct (findPin a k); simpl; [exact IH|].
    apply Forall_app. split.
    + eapply Forall_impl; [|exact IH]. intros p. apply recordOk_calls.
    + constructor; [|constructor].
      repeat split; simpl; try apply twoValued_of_Level; try lia.
      apply in_or_app. right. now left.
  - unfold removePin. destruct (erasePin (pinList a) k) eqn:E; simpl;
      [|exact IH].
    now apply (Forall_erasePin _ _ _ _ E).
  - rewrite applySetter_withPin. unfold withPin.
    destruct (findPin a k); simpl; [|exact IH].
    apply Forall_storePin; [|exact IH].
    intros q (Hc & Hl & Hm & Hn).
    destruct (setterFn_sameState s q) as [E1 E2 E3 E4 _ _ _ _ E9 _].
    unfold recordOk. now rewrite E1, E2, E3, E4, E9.
  - unfold enableAllEvents; simpl. apply Forall_map.
    eapply Forall_impl; [|exact IH]. now intros p.
  - unfold disableAllEvents; simpl. apply Forall_map.
    eapply Forall_impl; [|exact IH]. now intros p.
  - unfold update. rewrite updatePins_frame; simpl. apply Forall_map.
    eapply Forall_impl; [|exact IH]. intros p. apply pinNext_recordOk.
Qed.

(** The records of the object.  Whatever sequence of public operations
    built it: [readPin] returns the sentinel PIN_UNINITIALIZED exactly
    for the pins that are not registered, and LOW or HIGH for the
    others; [getPinMode] of a registered pin is a mode [pinMode] was
    called with for that pin; and every stored record is filed under
    its own pin number, has a raw sample that is LOW or HIGH and a click
    count that is not negative. *)
Theorem registered_records (a : AvantDigitalRead) :
  Reachable a ->
  (forall k, readPin a k = PIN_UNINITIALIZED <-> isInitialized a k = false)
  /\ (forall k,
        isInitialized a k = true ->
        twoValued (readPin a k)
        /\ In (k, getPinMode a k) (pinModeCalls a))
  /\ (forall k p,
        findPin a k = Some p ->
        pin p = k /\ twoValued (lastState p) /\ 0 <= clickCount p).
Proof.
  intro R. pose proof (Reachable_recordOk a R) as H.
  rewrite Forall_forall in H.
  assert (K : forall k p, findPin a k = Some p ->
                          pin p = k /\ recordOk (pinModeCalls a) p).
  { intros k p F. split; [now apply (findPinIn_Some_pin _ _ _ F)|].
    apply H. now apply (findPinIn_Some_In _ k). }
  split; [|split].
  - intro k. unfold readPin, isInitialized.
    destruct (findPin a k) as [p|] eqn:F; [|now split].
    destruct (K k p F) as (_ & [Hc|Hc] & _); rewrite Hc;
      split; discriminate.
  - intros k Hk. unfold readPin, getPinMode, isInitialized in *.
    destruct (findPin a k) as [p|] eqn:F; [|discriminate].
    destruct (K k p F) as (Hp & Hc & _ & Hm & _).
    split; [exact Hc|]. now rewrite <- Hp at 1.
  - intros k p F. destruct (K k p F) as (Hp & _ & Hl & _ & Hn).
    now repeat split.
Qed.

Lemma registered_records_witness :
  let a := update threePins (fun _ => HIGH) 100 in
  (forall k, readPin a k = PIN_UNINITIALIZED <-> isInitialized a k = false)
  /\ (forall k,
        isInitialized a k = true ->
        twoValued (readPin a k)
        /\ In (k, getPinMode a k) (pinModeCalls a))
  /\ (forall k p,
        findPin a k = Some p ->
        pin p = k /\ twoValued (lastState p) /\ 0 <= clickCount p).
Proof.
  exact (registered_records _
           (Reachable_update _ (fun _ => HIGH) 100 threePins_Reachable)).
Defined.

(** ** What [update] touches *)

Lemma updatePins_ext l rd rd' t d :
  (forall p, In p l -> rd (pin p) = rd' (pin p)) ->
  updatePins l rd t d = updatePins l rd' t d.
Proof.
  revert d; induction l as [|p l IH]; intros d H; simpl; [reflexivity|].
  rewrite (H p) by now left.
  destruct (updatePin p (rd' (pin p)) t d) as [p' d1].
  rewrite IH by (intros q Hq; apply H; now right). reflexivity.
Qed.

Lemma In_findPinIn l p : In p l -> findPinIn l (pin p) <> None.
Proof.
  intros Hp F. apply findPinIn_None in F. apply F. now apply in_map.
Qed.

Lemma pinNext_sameConfig p raw t : sameConfig p (pinNext p raw t).
Proof.
  destruct (updatePin_split p raw t) as [-> _].
  destruct (debounce_fields p raw t noDispatch) as (C & _).
  destruct (detectButtonGestures_keeps
              (fst (debounce p raw t noDispatch)) t noDispatch) as [C2 _].
  eauto using sameConfig_trans.
Qed.

(** The footprint of [update].  One [update] reads the hardware level
    of the registered pins only: two [digitalRead] that agree on the
    registered pins give the same object.  It registers and removes no
    pin and keeps the order of the registry, calls [pinMode] for no pin,
    and assigns no configuration field of any record (mode, debounce
    time, event switch, callbacks, delays and gesture parameters). *)
Theorem update_footprint
    (a : AvantDigitalRead) (rd rd' : Z -> Level) (t : Z) :
  (forall k, isInitialized a k = true -> rd k = rd' k) ->
  update a rd t = update a rd' t
  /\ map pin (pinList (update a rd t)) = map pin (pinList a)
  /\ pinModeCalls (update a rd t) = pinModeCalls a
  /\ Forall2 sameConfig (pinList a) (pinList (update a rd t)).
Proof.
  intro H. split; [|split; [|split]].
  - unfold update. rewrite (updatePins_ext _ rd rd'); [reflexivity|].
    intros p Hp. apply H. unfold isInitialized, findPin.
    pose proof (In_findPinIn _ p Hp).
    now destruct (findPinIn (pinList a) (pin p)).
  - unfold update. rewrite updatePins_frame; simpl. apply map_pin_next.
  - unfold update. now rewrite updatePins_frame.
  - unfold update. rewrite updatePins_frame; simpl.
    induction (pinList a) as [|p l IH]; simpl; constructor;
      [apply pinNext_sameConfig|exact IH].
Qed.

Lemma twoPins_readings_agree k :
  isInitialized twoPins k = true ->
  (fun _ : Z => HIGH) k = (if (k =? 2) || (k =? 4) then HIGH else LOW).
Proof.
  intro H.
  destruct (Z.eqb_spec k 2) as [->|N2]; [reflexivity|].
  destruct (Z.eqb_spec k 4) as [->|N4]; [reflexivity|].
  assert (E2 : (2 =? k) = false) by (apply Z.eqb_neq; lia).
  assert (E4 : (4 =? k) = false) by (apply Z.eqb_neq; lia).
  unfold isInitialized, findPin in H.
  change (pinList twoPins) with [newPin 2 0 HIGH; newPin 4 0 LOW] in H.
  cbn -[Z.eqb] in H. rewrite E2, E4 in H. discriminate.
Qed.

Lemma update_footprint_witness :
  let rd := fun _ : Z => HIGH in
  let rd' := fun k => if (k =? 2) || (k =? 4) then HIGH else LOW in
  update twoPins rd 100 = update twoPins rd' 100
  /\ map pin (pinList (update twoPins rd 100)) = map pin (pinList twoPins)
  /\ pinModeCalls (update twoPins rd 100) = pinModeCalls twoPins
  /\ Forall2 sameConfig (pinList twoPins) (pinList (update twoPins rd 100)).
Proof.
  exact (update_footprint twoPins (fun _ => HIGH)
           (fun k => if (k =? 2) || (k =? 4) then HIGH else LOW) 100
           twoPins_readings_agree).
Defined.
